(** * The Ising engine of IsingModel.jsx: lattice, energy delta, Metropolis
      sweep, paint, magnetization and the React state that owns them.

    Numbers.  Spins and indices are integers ([Z]).  The real-valued
    quantities of the component (temperature, coupling, external field,
    pointer coordinates, radius, the values of [Math.random()]) are exact
    rationals ([Q]); rounding of IEEE doubles is not modelled.  [Math.exp] and
    the sequence of values returned by [Math.random()] are parameters of the
    development. *)

From Stdlib Require Import ZArith QArith Qround Qabs Qminmax Lia Lqa.
From stdpp Require Import prelude list list_numbers.

Local Open Scope Z_scope.

(** ** JavaScript arrays read by index

    [a[i]] is [undefined] when [i] is negative or past the end. *)

Definition js_index {A : Type} (a : list A) (i : Z) : option A :=
  if decide (0 <= i) then a !! Z.to_nat i else None.

(** [grid[y][x]], [None] when [grid[y]] or [grid[y][x]] is [undefined]. *)
Definition cell (g : list (list Z)) (x y : Z) : option Z :=
  match js_index g y with
  | Some row => js_index row x
  | None => None
  end.

(** [a.length] *)
Definition js_length {A : Type} (a : list A) : Z := Z.of_nat (length a).

(** ** Component state (the [useState] cells the engine reads or writes) *)

Inductive Pattern := Positive | Negative | Checkerboard | Random.
Inductive DrawMode := Circle | Square.

Record State := mkState {
  grid : list (list Z);
  size : Z;
  temperature : Q;
  coupling : Q;
  externalField : Q;
  magnetization : Q;
  isPlaying : bool;
  magnetizationHistory : list Q;
  annealingRate : Q;
  drawMode : DrawMode;
  initialPattern : Pattern;
  gridInitialized : bool;
  simulationSpeed : Z
}.

Definition setGrid (v : list (list Z)) (s : State) : State :=
  mkState v (size s) (temperature s) (coupling s) (externalField s)
    (magnetization s) (isPlaying s) (magnetizationHistory s) (annealingRate s)
    (drawMode s) (initialPattern s) (gridInitialized s) (simulationSpeed s).
Definition setSize (v : Z) (s : State) : State :=
  mkState (grid s) v (temperature s) (coupling s) (externalField s)
    (magnetization s) (isPlaying s) (magnetizationHistory s) (annealingRate s)
    (drawMode s) (initialPattern s) (gridInitialized s) (simulationSpeed s).
Definition setTemperature (v : Q) (s : State) : State :=
  mkState (grid s) (size s) v (coupling s) (externalField s)
    (magnetization s) (isPlaying s) (magnetizationHistory s) (annealingRate s)
    (drawMode s) (initialPattern s) (gridInitialized s) (simulationSpeed s).
Definition setCoupling (v : Q) (s : State) : State :=
  mkState (grid s) (size s) (temperature s) v (externalField s)
    (magnetization s) (isPlaying s) (magnetizationHistory s) (annealingRate s)
    (drawMode s) (initialPattern s) (gridInitialized s) (simulationSpeed s).
Definition setExternalField (v : Q) (s : State) : State :=
  mkState (grid s) (size s) (temperature s) (coupling s) v
    (magnetization s) (isPlaying s) (magnetizationHistory s) (annealingRate s)
    (drawMode s) (initialPattern s) (gridInitialized s) (simulationSpeed s).
Definition setMagnetization (v : Q) (s : State) : State :=
  mkState (grid s) (size s) (temperature s) (coupling s) (externalField s)
    v (isPlaying s) (magnetizationHistory s) (annealingRate s)
    (drawMode s) (initialPattern s) (gridInitialized s) (simulationSpeed s).
Definition setIsPlaying (v : bool) (s : State) : State :=
  mkState (grid s) (size s) (temperature s) (coupling s) (externalField s)
    (magnetization s) v (magnetizationHistory s) (annealingRate s)
    (drawMode s) (initialPattern s) (gridInitialized s) (simulationSpeed s).
Definition setMagnetizationHistory (v : list Q) (s : State) : State :=
  mkState (grid s) (size s) (temperature s) (coupling s) (externalField s)
    (magnetization s) (isPlaying s) v (annealingRate s)
    (drawMode s) (initialPattern s) (gridInitialized s) (simulationSpeed s).
Definition setAnnealingRate (v : Q) (s : State) : State :=
  mkState (grid s) (size s) (temperature s) (coupling s) (externalField s)
    (magnetization s) (isPlaying s) (magnetizationHistory s) v
    (drawMode s) (initialPattern s) (gridInitialized s) (simulationSpeed s).
Definition setDrawMode (v : DrawMode) (s : State) : State :=
  mkState (grid s) (size s) (temperature s) (coupling s) (externalField s)
    (magnetization s) (isPlaying s) (magnetizationHistory s) (annealingRate s)
    v (initialPattern s) (gridInitialized s) (simulationSpeed s).
Definition setInitialPattern (v : Pattern) (s : State) : State :=
  mkState (grid s) (size s) (temperature s) (coupling s) (externalField s)
    (magnetization s) (isPlaying s) (magnetizationHistory s) (annealingRate s)
    (drawMode s) v (gridInitialized s) (simulationSpeed s).
Definition setGridInitialized (v : bool) (s : State) : State :=
  mkState (grid s) (size s) (temperature s) (coupling s) (externalField s)
    (magnetization s) (isPlaying s) (magnetizationHistory s) (annealingRate s)
    (drawMode s) (initialPattern s) v (simulationSpeed s).
Definition setSimulationSpeed (v : Z) (s : State) : State :=
  mkState (grid s) (size s) (temperature s) (coupling s) (externalField s)
    (magnetization s) (isPlaying s) (magnetizationHistory s) (annealingRate s)
    (drawMode s) (initialPattern s) (gridInitialized s) v.

(** The guard that opens [calculateDeltaE], [flipSpinsInRadius],
    [evolveSystem] and the magnetization effect:
    [!gridInitialized || !grid.length || grid.length !== size || !grid[0] ||
     grid[0].length !== size].  [true] means: leave without computing. *)
Definition notReady (s : State) : bool :=
  negb (gridInitialized s)
  || (js_length (grid s) =? 0)
  || negb (js_length (grid s) =? size s)
  || match js_index (grid s) 0 with
     | None => true
     | Some row0 => negb (js_length row0 =? size s)
     end.

(** ** calculateDeltaE

    A [useCallback] closure over [grid], [size], [coupling], [externalField]
    and [gridInitialized]: it reads the state [s] of the render it was
    created in.  [evolveSystem] and [flipSpinsInRadius] list it among their
    dependencies, so the closure they call belongs to their own render and
    reads the same [grid] as they do. *)

Definition calculateDeltaE (s : State) (x y : Z) : Q :=
  if notReady s then 0%Q
  else match js_index (grid s) y with
  | None => 0%Q
  | Some row =>
    match js_index row x with
    | None => 0%Q
    | Some spin =>
      let neighbors :=
        [ (Z.rem (y - 1 + size s) (size s), x);
          (Z.rem (y + 1) (size s), x);
          (y, Z.rem (x - 1 + size s) (size s));
          (y, Z.rem (x + 1) (size s)) ] in
      let sum :=
        foldl (fun sum '(ny, nx) =>
                 match cell (grid s) nx ny with
                 | Some v => sum + v
                 | None => sum
                 end) 0 neighbors in
      (2 * coupling s * inject_Z spin * inject_Z sum
       + 2 * externalField s * inject_Z spin)%Q
    end
  end.

(** ** Randomness and faults

    A computation reads the values of [Math.random()] in call order; the
    natural number threaded through is the count of values consumed so far.
    [None] is the outcome of a computation that leaves the integer lattices
    of this development: a TypeError thrown by a cell update (see [negate]),
    or a lattice holding NaN handed to [setGrid] (see [publish]). *)

Definition M (A : Type) : Type := nat -> option (A * nat).

Definition ret {A : Type} (a : A) : M A := fun n => Some (a, n).

Definition bind {A B : Type} (m : M A) (k : A -> M B) : M B :=
  fun n => match m n with
           | Some (a, n') => k a n'
           | None => None
           end.

Notation "'let!' x ':=' m 'in' k" := (bind m (fun x => k))
  (at level 10, x name, m at level 100, k at level 200).

Fixpoint foldM {A B : Type} (f : B -> A -> M B) (l : list A) (b : B) : M B :=
  match l with
  | [] => ret b
  | a :: l' => let! b' := f b a in foldM f l' b'
  end.

Fixpoint replicateM {A : Type} (n : nat) (m : M A) : M (list A) :=
  match n with
  | O => ret []
  | S n' => let! a := m in let! l := replicateM n' m in ret (a :: l)
  end.

(** [x < y] on numbers *)
Definition Qlt_bool (x y : Q) : bool := negb (Qle_bool y x).

(** [newGrid[y][x] *= -1] on a cell that holds a number; [None] when
    [newGrid[y][x]] does not hold one, which [negate] follows up. *)
Definition flipAt (g : list (list Z)) (x y : Z) : option (list (list Z)) :=
  match cell g x y with
  | Some _ =>
      Some (alter (alter (fun v => v * -1) (Z.to_nat x)) (Z.to_nat y) g)
  | None => None
  end.

(** [grid.map((row) => row.slice())] *)
Definition copyGrid (g : list (list Z)) : list (list Z) :=
  (fun row => row) <$> g.

(** One evaluated candidate: the site, the [deltaE] that was computed for it
    and whether the spin was flipped, that is, whether the update
    [newGrid[y][x] *= -1] was executed.  The list of trials of an operation
    is a ghost record of what the loop did; the program does not store it. *)
Record Trial := mkTrial {
  t_x : Z;
  t_y : Z;
  t_deltaE : Q;
  t_flipped : bool
}.

(** The loop state: the integer cells of the local [newGrid], the ghost
    list of trials, and the positions of [newGrid] that hold NaN. *)
Record Work := mkWork {
  newGrid : list (list Z);
  trials : list Trial;
  nans : list (Z * Z)
}.

(** [newGrid[y][x] *= -1] in a loop body, and the trial that it ends.  A
    cell that holds a number is negated.  Where the row [newGrid[y]] exists
    and [newGrid[y][x]] is [undefined], [undefined * -1] is NaN and the
    assignment stores it at [x] of the row: the loop goes on, the cells that
    hold integers are as before, and the position is kept in [nans] (a cell
    holding NaN is read by nothing but this statement, which stores NaN
    again).  Where [newGrid[y]] is [undefined] the statement throws a
    TypeError, which ends the handler. *)
Definition negate (w : Work) (x y : Z) (deltaE : Q) : M Work :=
  match flipAt (newGrid w) x y with
  | Some g => ret (mkWork g (trials w ++ [mkTrial x y deltaE true]) (nans w))
  | None =>
      match js_index (newGrid w) y with
      | Some _ =>
          ret (mkWork (newGrid w) (trials w ++ [mkTrial x y deltaE true])
                 (nans w ++ [(x, y)]))
      | None => fun _ => None
      end
  end.

(** [setGrid(newGrid)] at the end of a loop.  A lattice in which the loop
    has stored NaN is not a lattice of integers: no [State] holds it, and
    what the component computes from it is not followed here. *)
Definition publish (s : State) (w : Work) : M (State * list Trial) :=
  match nans w with
  | [] => ret (setGrid (newGrid w) s, trials w)
  | _ :: _ => fun _ => None
  end.

Inductive PatternOrDefault := Given (p : Pattern) | Default.

Section Engine.

(** [Math.exp] *)
Variable exp : Q -> Q.
(** [rand n] is the value returned by the [n]-th call of [Math.random()]. *)
Variable rand : nat -> Q.

Definition Math_random : M Q := fun n => Some (rand n, S n).

(** *** evolveSystem *)

(** The body of [for (let i = 0; i < size * size; i++)]. *)
Definition sweepTrial (s : State) (w : Work) : M Work :=
  let! u1 := Math_random in
  let x := Qfloor (u1 * inject_Z (size s)) in
  let! u2 := Math_random in
  let y := Qfloor (u2 * inject_Z (size s)) in
  match cell (grid s) x y with
  | None => ret w                                   (* continue *)
  | Some _ =>
    let deltaE := calculateDeltaE s x y in
    if Qle_bool deltaE 0 then
      negate w x y deltaE
    else
      let! u := Math_random in
      if Qlt_bool u (exp (- deltaE / Qmax (1 # 10) (temperature s))) then
        negate w x y deltaE
      else
        ret (mkWork (newGrid w) (trials w ++ [mkTrial x y deltaE false])
               (nans w))
  end.

Definition evolveSystem (s : State) : M (State * list Trial) :=
  if notReady s then ret (s, [])
  else
    let! w := foldM (fun w (_ : Z) => sweepTrial s w)
                (seqZ 0 (size s * size s))
                (mkWork (copyGrid (grid s)) [] []) in
    publish s w.

(** *** flipSpinsInRadius *)

Definition inShape (mode : DrawMode) (centerX centerY radius : Q) (x y : Z)
  : bool :=
  let dx := (inject_Z x - centerX)%Q in
  let dy := (inject_Z y - centerY)%Q in
  match mode with
  | Circle => Qle_bool (dx * dx + dy * dy) (radius * radius)
  | Square => Qle_bool (Qabs dx) radius && Qle_bool (Qabs dy) radius
  end.

(** The body of the inner loop, for one cell of the bounding box. *)
Definition paintCell (s : State) (centerX centerY radius : Q)
    (y : Z) (w : Work) (x : Z) : M Work :=
  if inShape (drawMode s) centerX centerY radius x y then
    let deltaE := calculateDeltaE s x y in
    if Qle_bool deltaE 0 then
      negate w x y deltaE
    else
      let! u := Math_random in
      if Qlt_bool u (exp (- deltaE / Qmax (1 # 10) (temperature s))) then
        negate w x y deltaE
      else
        ret (mkWork (newGrid w) (trials w ++ [mkTrial x y deltaE false])
               (nans w))
  else ret w.

Definition flipSpinsInRadius (s : State) (centerX centerY radius : Q)
  : M (State * list Trial) :=
  if notReady s then ret (s, [])
  else
    let xStart := Z.max 0 (Qfloor (centerX - radius)) in
    let xEnd := Z.min (size s - 1) (Qceiling (centerX + radius)) in
    let yStart := Z.max 0 (Qfloor (centerY - radius)) in
    let yEnd := Z.min (size s - 1) (Qceiling (centerY + radius)) in
    let! w := foldM (fun w y =>
                  foldM (paintCell s centerX centerY radius y)
                    (seqZ xStart (xEnd - xStart + 1)) w)
                (seqZ yStart (yEnd - yStart + 1))
                (mkWork (copyGrid (grid s)) [] []) in
    publish s w.

(** *** initializeGrid

    [initializeGrid] is a [useCallback] closure over [size] and
    [initialPattern]; [c] is the render whose closure is called and [s] the
    state its [set...] calls are applied to. *)
Definition initializeGrid (c : State) (pattern : PatternOrDefault) (s : State)
  : M State :=
  let pattern :=
    match pattern with Given p => p | Default => initialPattern c end in
  let n := Z.to_nat (size c) in
  let! newGrid :=
    match pattern with
    | Positive => ret (replicate n (replicate n 1))
    | Negative => ret (replicate n (replicate n (-1)))
    | Checkerboard =>
        ret ((fun y =>
                (fun x => if Z.rem (x + y) 2 =? 0 then 1 else -1)
                  <$> seqZ 0 (size c))
               <$> seqZ 0 (size c))
    | Random =>
        replicateM n
          (replicateM n
             (let! u := Math_random in
              ret (if Qlt_bool u (1 # 2) then 1 else -1)))
    end in
  ret (setGridInitialized true
         (setMagnetizationHistory []
            (setGrid newGrid
               (setGridInitialized false s)))).

(** *** The magnetization effect *)

Definition magnetizationEffect (s : State) : State :=
  if notReady s then s
  else
    let totalSpins := size s * size s in
    let sumSpins := foldl (fun sum spin => sum + spin) 0 (concat (grid s)) in
    let netMagnetization :=
      (inject_Z sumSpins / inject_Z totalSpins * 100)%Q in
    setMagnetizationHistory (magnetizationHistory s ++ [netMagnetization])
      (setMagnetization netMagnetization s).

(** *** Event handlers

    A handler runs in the closure of the render [c]; its [set...] calls are
    batched, so the next render sees all of them applied to [c]. *)

Definition handleGridSizeChange (value : Z) (c : State) : State :=
  setSize value c.

(** [onClick] of the four "Initial State" buttons *)
Definition onClickPattern (p : Pattern) (c : State) : M State :=
  initializeGrid c (Given p) (setInitialPattern p c).

Definition handleReset (c : State) : M State :=
  initializeGrid c (Given Random)
    (setMagnetizationHistory []
    (setIsPlaying false
    (setSimulationSpeed 100
    (setInitialPattern Random
    (setDrawMode Circle
    (setAnnealingRate 0%Q
    (setExternalField 0%Q
    (setCoupling 1%Q
    (setTemperature 2%Q
    (setSize 30 c)))))))))).

(** [onClick] of the Play/Pause button *)
Definition onClickPlay (c : State) : State :=
  setIsPlaying (negb (isPlaying c)) c.

(** *** The two effects that depend on [initializeGrid]

    [useCallback(..., [size, initialPattern])] returns a new function exactly
    when [size] or [initialPattern] differs from the previous render, and an
    effect runs after a render exactly when one of its dependencies differs.
    [prev] is the previous render, [c] the one just committed. *)

Definition Pattern_eqb (p q : Pattern) : bool :=
  match p, q with
  | Positive, Positive | Negative, Negative
  | Checkerboard, Checkerboard | Random, Random => true
  | _, _ => false
  end.

Definition initializeGrid_changed (prev c : State) : bool :=
  negb (size prev =? size c)
  || negb (Pattern_eqb (initialPattern prev) (initialPattern c)).

Definition initEffects (prev c : State) : M State :=
  (* useEffect(() => { initializeGrid(); }, [initializeGrid]) *)
  let! s1 :=
    (if initializeGrid_changed prev c then initializeGrid c Default c
     else ret c) in
  (* useEffect(() => { setIsPlaying(false); initializeGrid(); },
               [size, initializeGrid]) *)
  if negb (size prev =? size c) || initializeGrid_changed prev c then
    initializeGrid c Default (setIsPlaying false s1)
  else ret s1.

(** [handleReset] followed by the two effects on [initializeGrid] of the
    render it causes. *)
Definition reset (c : State) : M State :=
  let! s := handleReset c in initEffects c s.

End Engine.

(** * The rest of the component: timers, backdrop, pointer, renders, canvas *)

(** ** The annealing interval

    The interval exists while [annealingRate !== 0 && isPlaying]; once a
    second its callback runs
    [setTemperature((prevTemp) => Math.max(0.1, prevTemp + annealingRate))].
    [annealingTick c] is the state one second after the render [c]. *)
Definition annealingTick (c : State) : State :=
  if negb (Qeq_bool (annealingRate c) 0) && isPlaying c then
    setTemperature (Qmax (1 # 10) (temperature c + annealingRate c)) c
  else c.

(** ** The backdrop *)

Inductive Background := Sunrise | Night | DefaultBackground.

(** [getBackgroundStyle] *)
Definition getBackgroundStyle (c : State) : Background :=
  if Qlt_bool 50 (magnetization c) then Sunrise
  else if Qlt_bool (magnetization c) (-50) then Night
  else DefaultBackground.

(** The conditions of the three backdrop blocks of the markup:
    [magnetization < -50 && ...], [magnetization > 50 && ...],
    [magnetization >= -50 && magnetization <= 50 && ...]. *)
Definition nightShown (c : State) : bool := Qlt_bool (magnetization c) (-50).
Definition sunriseShown (c : State) : bool := Qlt_bool 50 (magnetization c).
Definition defaultShown (c : State) : bool :=
  Qle_bool (-50) (magnetization c) && Qle_bool (magnetization c) 50.

(** [magnetization >= 0 ? <Sun/> : <Moon/>] *)
Definition sunIcon (c : State) : bool := Qle_bool 0 (magnetization c).

(** ** The pointer

    The [useState] cells of the drawing gesture, and what a handler reads
    from its event: the pointer position, the rectangle returned by
    [getBoundingClientRect()] and the value of [Date.now()]. *)

Record Pointer := mkPointer {
  isDrawing : bool;
  radius : Q;
  startTime : option Q;
  circle : option (Q * Q * Q)
}.

Record PointerEvent := mkPointerEvent {
  clientX : Q;
  clientY : Q;
  rect_left : Q;
  rect_top : Q;
  rect_width : Q;
  rect_height : Q;
  now : Q
}.

(** [a / b]; a division by 0 gives NaN or an infinity, which are [None]. *)
Definition js_div (a b : Q) : option Q :=
  if Qeq_bool b 0 then None else Some (a / b)%Q.

(** [getMousePos] *)
Definition getMousePos (size : Z) (e : PointerEvent) : option Q * option Q :=
  (js_div ((clientX e - rect_left e) * inject_Z size) (rect_width e),
   js_div ((clientY e - rect_top e) * inject_Z size) (rect_height e)).

(** [x >= 0 && x < size && y >= 0 && y < size]: false as soon as a
    coordinate is NaN or infinite. *)
Definition onLattice (size : Z) (p : option Q * option Q) : option (Q * Q) :=
  match p with
  | (Some x, Some y) =>
      if Qle_bool 0 x && Qlt_bool x (inject_Z size)
         && Qle_bool 0 y && Qlt_bool y (inject_Z size)
      then Some (x, y) else None
  | _ => None
  end.

(** [Math.min(15, 1 + (Date.now() - startTime) / 100)]; [startTime] is
    [null] before the first gesture, and [null] counts as 0 in a
    subtraction. *)
Definition currentRadius (p : Pointer) (e : PointerEvent) : Q :=
  Qmin 15 (1 + (now e - default 0%Q (startTime p)) / 100).

(** [handleMouseUp] *)
Definition handleMouseUp (p : Pointer) : Pointer :=
  mkPointer false 1 (startTime p) None.

(** The magnetization effect run in the render [c]: it reads the lattice
    of [c]; [setMagnetization] stores the value and
    [setMagnetizationHistory((prev) => [...prev, netMagnetization])]
    appends it to the history as the updates queued before it have left
    it, which is the history of [s]. *)
Definition magnetizationEffectIn (c s : State) : State :=
  if notReady c then s
  else
    let totalSpins := size c * size c in
    let sumSpins := foldl (fun sum spin => sum + spin) 0 (concat (grid c)) in
    let netMagnetization :=
      (inject_Z sumSpins / inject_Z totalSpins * 100)%Q in
    setMagnetizationHistory (magnetizationHistory s ++ [netMagnetization])
      (setMagnetization netMagnetization s).

(** The [useState] defaults. *)
Definition initialState : State :=
  mkState [] 30 2 1 0 0 false [] 0 Circle Random false 100.

Definition initialPointer : Pointer := mkPointer false 1 None None.

(** The actions of the user and of the two intervals. *)
Inductive Event :=
| GridSizeSlider (value : Z)
| SpeedSlider (value : Z)
| TemperatureSlider (value : Q)
| CouplingSlider (value : Q)
| FieldSlider (value : Q)
| AnnealingSlider (value : Q)
| DrawModeButton (mode : DrawMode)
| PatternButton (p : Pattern)
| PlayButton
| ResetButton
| MouseDown (e : PointerEvent)
| MouseMove (e : PointerEvent)
| MouseUp
| SweepInterval
| AnnealingInterval.

Section Component.

Variable exp : Q -> Q.
Variable rand : nat -> Q.

(** The callback of the sweep interval, which exists while [isPlaying]. *)
Definition sweepTick (c : State) : M (State * list Trial) :=
  if isPlaying c then evolveSystem exp rand c else ret (c, []).

(** [handleMouseDown], also reached from [handleTouchStart].  The paint
    uses [radius] as the render holds it, not the 1 just passed to
    [setRadius].  The handlers run on events of the canvas, so
    [canvasRef.current] is set when they do. *)
Definition handleMouseDown (c : State) (p : Pointer) (e : PointerEvent)
  : M (State * Pointer) :=
  match onLattice (size c) (getMousePos (size c) e) with
  | Some (x, y) =>
      let! r := flipSpinsInRadius exp rand c x y (radius p) in
      ret (fst r, mkPointer true 1 (Some (now e)) (Some (x, y, 1%Q)))
  | None => ret (c, mkPointer true 1 (Some (now e)) (circle p))
  end.

(** [handleMouseMove], also reached from [handleTouchMove]. *)
Definition handleMouseMove (c : State) (p : Pointer) (e : PointerEvent)
  : M (State * Pointer) :=
  if negb (isDrawing p) then ret (c, p)
  else
    let r := currentRadius p e in
    match onLattice (size c) (getMousePos (size c) e) with
    | Some (x, y) =>
        let! res := flipSpinsInRadius exp rand c x y r in
        ret (fst res,
             mkPointer (isDrawing p) r (startTime p) (Some (x, y, r)))
    | None => ret (c, mkPointer (isDrawing p) r (startTime p) (circle p))
    end.

(** *** Renders

    The markup calls [Math.random()] in one place: the night backdrop,
    [magnetization < -50 && ...], holds 100 stars, each with
    [top: `${Math.random() * 100}%`] and [left: `${Math.random() * 100}%`].
    A render of a state whose magnetization is below -50 thus consumes 200
    values; any other render consumes none. *)
Definition stars : M (list (Q * Q)) :=
  replicateM 100
    (let! top := Math_random rand in
     let! left := Math_random rand in
     ret (top * 100, left * 100)%Q).

Definition render (c : State) : M unit :=
  if nightShown c then let! _ := stars in ret tt else ret tt.

(** The render [c] that follows the render [prev], and the effects that
    write state, which run after it: the two effects on [initializeGrid]
    ([initEffects]), then the magnetization effect, whose dependencies are
    [grid], [size] and [gridInitialized].  [grid] is compared by identity,
    and every [setGrid] of the component installs a fresh array:
    [gridChanged] says whether one was called since [prev].  The result
    carries the same information for the next render. *)
Definition commit (prev c : State) (gridChanged : bool) : M (State * bool) :=
  let! _ := render c in
  let! s := initEffects rand prev c in
  let s' :=
    if gridChanged || negb (size prev =? size c)
       || negb (Bool.eqb (gridInitialized prev) (gridInitialized c))
    then magnetizationEffectIn c s else s in
  ret (s', negb (size prev =? size c) || initializeGrid_changed prev c).

(** Whether these effects call a [set...] at all: the effects on
    [initializeGrid] when they run, the magnetization effect when it runs
    and passes its guard.  Each of them stores a new array, so that another
    render follows. *)
Definition effectsFire (prev c : State) (gridChanged : bool) : bool :=
  negb (size prev =? size c) || initializeGrid_changed prev c
  || ((gridChanged || negb (size prev =? size c)
       || negb (Bool.eqb (gridInitialized prev) (gridInitialized c)))
      && negb (notReady c)).

(** The renders caused by a batch of updates that turns [prev] into [c]:
    the render of [c] with its effects; if these have set state, the render
    of what they leave, with its effects; if these have set state in turn,
    one more render.  No effect runs after that one: its [grid], [size],
    [gridInitialized] and [initializeGrid] are those of the render before
    it. *)
Definition settle (prev c : State) (gridChanged : bool) : M State :=
  let! r1 := commit prev c gridChanged in
  if effectsFire prev c gridChanged then
    let! r2 := commit c (fst r1) (snd r1) in
    if effectsFire c (fst r1) (snd r1) then
      let! _ := render (fst r2) in ret (fst r2)
    else ret (fst r2)
  else ret (fst r1).

(** The renders after a handler that leaves [c1].  [touched]: the handler
    has passed some cell a value that is not the one it holds, an array or
    an object built by the handler counting as new; when it has not, React
    leaves out the render. *)
Definition rerender (c c1 : State) (touched gridChanged : bool) : M State :=
  if touched then settle c c1 gridChanged else ret c1.

(** The first render: every effect runs; the magnetization effect finds
    [gridInitialized] false and returns.  The effects on [initializeGrid]
    have set state, and the renders go on from there. *)
Definition mount : M State :=
  let c := initialState in
  let! _ := render c in
  let! s1 := initializeGrid rand c Default c in
  let! s2 := initializeGrid rand c Default (setIsPlaying false s1) in
  let s3 := magnetizationEffectIn c s2 in
  settle c s3 true.

(** Whether two values of [startTime] are the same. *)
Definition sameTime (a b : option Q) : bool :=
  match a, b with
  | Some x, Some y => Qeq_bool x y
  | None, None => true
  | _, _ => false
  end.

Definition sameMode (a b : DrawMode) : bool :=
  match a, b with
  | Circle, Circle | Square, Square => true
  | _, _ => false
  end.

(** One action, from the handler to the last render it causes. *)
Definition dispatch (ev : Event) (u : State * Pointer) : M (State * Pointer) :=
  let c := fst u in
  let p := snd u in
  match ev with
  | GridSizeSlider value =>
      let! s := rerender c (handleGridSizeChange value c)
                  (negb (value =? size c)) false in
      ret (s, p)
  | SpeedSlider value =>
      let! s := rerender c (setSimulationSpeed value c)
                  (negb (value =? simulationSpeed c)) false in
      ret (s, p)
  | TemperatureSlider value =>
      let! s := rerender c (setTemperature value c)
                  (negb (Qeq_bool value (temperature c))) false in
      ret (s, p)
  | CouplingSlider value =>
      let! s := rerender c (setCoupling value c)
                  (negb (Qeq_bool value (coupling c))) false in
      ret (s, p)
  | FieldSlider value =>
      let! s := rerender c (setExternalField value c)
                  (negb (Qeq_bool value (externalField c))) false in
      ret (s, p)
  | AnnealingSlider value =>
      let! s := rerender c (setAnnealingRate value c)
                  (negb (Qeq_bool value (annealingRate c))) false in
      ret (s, p)
  | DrawModeButton mode =>
      let! s := rerender c (setDrawMode mode c)
                  (negb (sameMode mode (drawMode c))) false in
      ret (s, p)
  | PatternButton pat =>
      let! s1 := onClickPattern rand pat c in
      let! s := rerender c s1 true true in ret (s, p)
  | PlayButton =>
      let! s := rerender c (onClickPlay c) true false in ret (s, p)
  | ResetButton =>
      let! s1 := handleReset rand c in
      let! s := rerender c s1 true true in ret (s, p)
  | MouseDown e =>
      let! r := handleMouseDown c p e in
      let hit :=
        match onLattice (size c) (getMousePos (size c) e) with
        | Some _ => true
        | None => false
        end in
      let touched :=
        hit || negb (isDrawing p) || negb (sameTime (startTime p) (Some (now e)))
        || negb (Qeq_bool (radius p) 1) in
      let! s := rerender c (fst r) touched (hit && negb (notReady c)) in
      ret (s, snd r)
  | MouseMove e =>
      let! r := handleMouseMove c p e in
      let hit :=
        match onLattice (size c) (getMousePos (size c) e) with
        | Some _ => true
        | None => false
        end in
      let touched :=
        isDrawing p
        && (hit || negb (Qeq_bool (radius p) (currentRadius p e))) in
      let! s := rerender c (fst r) touched
                  (isDrawing p && hit && negb (notReady c)) in
      ret (s, snd r)
  | MouseUp =>
      let touched :=
        isDrawing p || negb (Qeq_bool (radius p) 1)
        || match circle p with Some _ => true | None => false end in
      let! s := rerender c c touched false in
      ret (s, handleMouseUp p)
  | SweepInterval =>
      let! r := sweepTick c in
      let! s := rerender c (fst r) (isPlaying c && negb (notReady c))
                  (isPlaying c && negb (notReady c)) in
      ret (s, p)
  | AnnealingInterval =>
      let! s := rerender c (annealingTick c)
                  (negb (Qeq_bool (temperature (annealingTick c))
                           (temperature c))) false in
      ret (s, p)
  end.

End Component.

(** ** The draw effect

    What the effect on [grid], [size], [circle], [drawMode], ... draws on
    the canvas: the calls of [ctx.fillRect] in order, each with the
    [fillStyle] in force, and the path stroked for the brush.  The frame
    handed to the GIF recorder is left out. *)

Inductive Style :=
| Veil        (* 'rgba(0, 0, 0, 0.3)' *)
| Cyan        (* '#00FFF0' *)
| CyanShadow  (* '#00bfb7' *)
| Pink        (* '#FF71CE' *)
| PinkShadow. (* '#b000b0' *)

Record Fill := mkFill {
  f_style : Style;
  f_x : Q;
  f_y : Q;
  f_w : Q;
  f_h : Q
}.

(** [ctx.arc(cx, cy, r, 0, 2 * Math.PI)] and [ctx.rect(x, y, w, h)] *)
Inductive Path :=
| Arc (cx cy r : Q)
| Box (x y w h : Q).

(** The body of the two loops for the cell [(x, y)]; nothing is drawn for
    a cell that is [undefined]. *)
Definition drawCell (g : list (list Z)) (cellSize : Q) (y x : Z) : list Fill :=
  match cell g x y with
  | None => []
  | Some value =>
      let cellX := (inject_Z x * cellSize)%Q in
      let cellY := (inject_Z y * cellSize)%Q in
      let main := if value =? 1 then Cyan else Pink in
      let shadow := if value =? 1 then CyanShadow else PinkShadow in
      [mkFill shadow (cellX + 1) (cellY + 1) (cellSize - 2) (cellSize - 2);
       mkFill main (cellX + 2) (cellY + 2) (cellSize - 4) (cellSize - 4)]
  end.

(** The expanding shape, [if (circle) { ... }] *)
Definition drawShape (c : State) (p : Pointer) (cellSize : Q) : option Path :=
  match circle p with
  | Some (x, y, r) =>
      match drawMode c with
      | Circle =>
          Some (Arc (x * cellSize + cellSize / 2) (y * cellSize + cellSize / 2)
                  (r * cellSize))
      | Square =>
          Some (Box ((x - r) * cellSize) ((y - r) * cellSize)
                  (r * 2 * cellSize) (r * 2 * cellSize))
      end
  | None => None
  end.

(** The effect, for a canvas of the given [width] and [height]; [None]
    when it returns at its guard and leaves the canvas as it was. *)
Definition drawEffect (c : State) (p : Pointer) (width height : Q)
  : option (list Fill * option Path) :=
  if notReady c then None
  else
    let cellSize := (width / inject_Z (size c))%Q in
    Some (mkFill Veil 0 0 width height
            :: (seqZ 0 (size c) ≫= fun y =>
                seqZ 0 (size c) ≫= fun x => drawCell (grid c) cellSize y x),
          drawShape c p cellSize).

(** [<canvas width={400} height={400}>] *)
Definition canvas_width : Q := 400.
Definition canvas_height : Q := 400.

(** * Vocabulary of the statements

    Nothing below is program code: these are the predicates, the reference
    functions and the concrete inputs that the statements about the program
    are written with. *)

#[local] Instance Pattern_eq_dec : EqDecision Pattern.
Proof. solve_decision. Defined.

(** ** Lattices *)

(** An initialized [n] x [n] lattice held by a state whose [size] is [n]. *)
Definition lattice (s : State) : Prop :=
  gridInitialized s = true
  /\ 0 < size s
  /\ js_length (grid s) = size s
  /\ Forall (fun row => js_length row = size s) (grid s).

(** Every cell is +1 or -1. *)
Definition spins (g : list (list Z)) : Prop :=
  Forall (Forall (fun v => v = 1 \/ v = -1)) g.

(** [g] has [n] rows of [n] cells. *)
Definition square (n : Z) (g : list (list Z)) : Prop :=
  js_length g = n /\ Forall (fun row => js_length row = n) g.

(** The spin stored at [(x, y)], 0 where there is none. *)
Definition spin (g : list (list Z)) (x y : Z) : Z :=
  default 0 (cell g x y).

(** The lattice with the spin at [(x, y)] negated. *)
Definition flipped (g : list (list Z)) (x y : Z) : list (list Z) :=
  alter (alter (fun v => v * -1) (Z.to_nat x)) (Z.to_nat y) g.

(** The state left by the four [set...] calls that end [initializeGrid]. *)
Definition initialized (g : list (list Z)) (s : State) : State :=
  setGridInitialized true
    (setMagnetizationHistory [] (setGrid g (setGridInitialized false s))).

(** ** Initial patterns *)

(** The checkerboard: [(x + y) % 2 === 0 ? 1 : -1]. *)
Definition checker (x y : Z) : Z := if Z.rem (x + y) 2 =? 0 then 1 else -1.

(** The [n] x [n] checkerboard, row [y] after row [y - 1]. *)
Definition checkerboard_grid (n : Z) : list (list Z) :=
  (fun y => (fun x => checker x y) <$> seqZ 0 n) <$> seqZ 0 n.

(** The [n] x [n] lattice whose cells all hold [v]. *)
Definition uniform_grid (n : Z) (v : Z) : list (list Z) :=
  replicate (Z.to_nat n) (replicate (Z.to_nat n) v).

(** ** Candidates *)

(** The acceptance rule in the words of the specification: accept when
    [deltaE <= 0], otherwise when the draw [u] is below
    [exp(-deltaE / max(0.1, T))]. *)
Definition metropolis (exp : Q -> Q) (deltaE T u : Q) : Prop :=
  (deltaE <= 0)%Q \/ (u < exp (- deltaE / Qmax (1 # 10) T))%Q.

(** What one candidate does to the loop state: [newGrid[y][x]] negated and
    the trial recorded as flipped, or [newGrid] untouched and the trial
    recorded as rejected. *)
Definition accepted (w : Work) (x y : Z) (deltaE : Q) : Work :=
  mkWork (flipped (newGrid w) x y) (trials w ++ [mkTrial x y deltaE true])
    (nans w).

Definition rejected (w : Work) (x y : Z) (deltaE : Q) : Work :=
  mkWork (newGrid w) (trials w ++ [mkTrial x y deltaE false]) (nans w).

(** The lattice obtained from [g0] by negating, in order, the site of every
    trial recorded as flipped. *)
Definition replay (g0 : list (list Z)) (log : list Trial) : list (list Z) :=
  foldl (fun g t => if t_flipped t then flipped g (t_x t) (t_y t) else g)
    g0 log.

(** [ks] are indices of draws inside [lo, hi), in increasing order and at
    least two apart: each index and its successor are used by nobody else. *)
Fixpoint fresh_pairs (lo hi : nat) (ks : list nat) : Prop :=
  match ks with
  | [] => (lo <= hi)%nat
  | k :: ks' => (lo <= k)%nat /\ fresh_pairs (S (S k)) hi ks'
  end.

(** The trial [t] took its site from the draws [k] and [k+1]. *)
Definition site_drawn (rand : nat -> Q) (s : State) (k : nat) (t : Trial)
  : Prop :=
  t_x t = Qfloor (rand k * inject_Z (size s))
  /\ t_y t = Qfloor (rand (S k) * inject_Z (size s)).

(** The trial [t] is about a cell of the lattice and carries the
    [deltaE] of that cell in the state [s]. *)
Definition on_snapshot (s : State) (t : Trial) : Prop :=
  (0 <= t_x t < size s /\ 0 <= t_y t < size s)
  /\ t_deltaE t = calculateDeltaE s (t_x t) (t_y t).

(** The invariant of the loop of [evolveSystem] on the state [s]: after [i]
    iterations started with [n0] draws consumed. *)
Definition sweep_inv (rand : nat -> Q) (s : State) (n0 : nat) (i : nat)
    (w : Work) (n : nat) : Prop :=
  (newGrid w = replay (grid s) (trials w) /\ nans w = [])
  /\ length (trials w) = i
  /\ Forall (on_snapshot s) (trials w)
  /\ exists ks, Forall2 (site_drawn rand s) ks (trials w)
                /\ fresh_pairs n0 n ks.

(** ** The cells visited by the paint *)

(** The site of a trial. *)
Definition site (t : Trial) : Z * Z := (t_x t, t_y t).

(** The cells [(x, y)], [x] in [xs], of one row, in loop order. *)
Definition row_cells (xs : list Z) (y : Z) : list (Z * Z) :=
  (fun x => (x, y)) <$> xs.

(** The cells of the rows [ys], row after row. *)
Definition box_cells (xs ys : list Z) : list (Z * Z) :=
  mjoin (row_cells xs <$> ys).

(** The cells of [cs] that pass the shape test, in order. *)
Definition members (mode : DrawMode) (centerX centerY radius : Q)
    (cs : list (Z * Z)) : list (Z * Z) :=
  filter (fun c => inShape mode centerX centerY radius c.1 c.2 = true) cs.

(** The region of the specification: the disc [dx^2 + dy^2 <= r^2] or the
    square [|dx| <= r and |dy| <= r] around the (fractional) center. *)
Definition inRegion (mode : DrawMode) (centerX centerY radius : Q) (x y : Z)
  : Prop :=
  let dx := (inject_Z x - centerX)%Q in
  let dy := (inject_Z y - centerY)%Q in
  match mode with
  | Circle => (dx * dx + dy * dy <= radius * radius)%Q
  | Square => (Qabs dx <= radius)%Q /\ (Qabs dy <= radius)%Q
  end.

(** The columns traversed by [flipSpinsInRadius]: [xStart], ..., [xEnd]. *)
Definition paint_xs (s : State) (centerX radius : Q) : list Z :=
  let xStart := Z.max 0 (Qfloor (centerX - radius)) in
  let xEnd := Z.min (size s - 1) (Qceiling (centerX + radius)) in
  seqZ xStart (xEnd - xStart + 1).

(** The rows traversed by [flipSpinsInRadius]: [yStart], ..., [yEnd]. *)
Definition paint_ys (s : State) (centerY radius : Q) : list Z :=
  let yStart := Z.max 0 (Qfloor (centerY - radius)) in
  let yEnd := Z.min (size s - 1) (Qceiling (centerY + radius)) in
  seqZ yStart (yEnd - yStart + 1).

(** The invariant of the loops of [flipSpinsInRadius] on the state [s]:
    after the cells [cs] of the bounding box have been traversed. *)
Definition paint_inv (s : State) (centerX centerY radius : Q)
    (cs : list (Z * Z)) (w : Work) (n : nat) : Prop :=
  (newGrid w = replay (grid s) (trials w) /\ nans w = [])
  /\ site <$> trials w = members (drawMode s) centerX centerY radius cs
  /\ Forall (on_snapshot s) (trials w).

(** The reading of the paint in which every candidate is evaluated on the
    working copy as the earlier accepted flips of the same call have left
    it: [g] is the working copy before the first trial of [log]. *)
Fixpoint sees_working_copy (s : State) (g : list (list Z)) (log : list Trial)
  : Prop :=
  match log with
  | [] => True
  | t :: log' =>
      (t_deltaE t == calculateDeltaE (setGrid g s) (t_x t) (t_y t))%Q
      /\ sees_working_copy s
           (if t_flipped t then flipped g (t_x t) (t_y t) else g) log'
  end.

(** ** Sums of spins and the magnetization *)

(** The sum of a list of integers. *)
Definition sumZ (l : list Z) : Z := foldr Z.add 0 l.

(** The sum of all spins of a lattice, row by row. *)
Definition sum_spins (g : list (list Z)) : Z := sumZ (sumZ <$> g).

(** [(sum / total) * 100] for a sum of [total] spins *)
Definition percent (sum total : Z) : Q :=
  (inject_Z sum / inject_Z total * 100)%Q.

(** ** Concrete inputs *)

(** A 10 x 10 lattice, all +1 but for the sites (0,0) and (2,0), with the
    default parameters T = 2, J = 1, H = 0 and circle mode. *)
Definition example_grid : list (list Z) :=
  ([-1; 1; -1] ++ replicate 7 1) :: replicate 9 (replicate 10 1).

(** The state holding it, paused, with an empty history. *)
Definition example_state : State :=
  mkState example_grid 10 2 1 0 0 false [] 0 Circle Random true 100.


(** The same lattice after the sites (0,0) and (1,0) have been negated. *)
Definition example_painted : list (list Z) :=
  ([1; -1; -1] ++ replicate 7 1) :: replicate 9 (replicate 10 1).

(** The two candidates of the paint of the example: both flipped, the
    second with [deltaE = 0]. *)
Definition example_log : list Trial :=
  [mkTrial 0 0 (-8) true; mkTrial 1 0 0 true].

(** A running simulation on the all-positive 10 x 10 lattice, the
    all-positive pattern being the selected one. *)
Definition running_state : State :=
  mkState (uniform_grid 10 1) 10 2 1 0 100 true [100%Q] 0 Circle Positive
    true 100.

(** ** Accepted hits of a site *)

(** The number of trials of [log] recorded as flipped at the site [(x, y)]. *)
Definition hits (log : list Trial) (x y : Z) : nat :=
  length (filter (fun t => t_flipped t = true /\ site t = (x, y)) log).

(** A trial with [deltaE <= 0] is recorded as flipped. *)
Definition decided (t : Trial) : Prop :=
  (t_deltaE t <= 0)%Q -> t_flipped t = true.

(** A 1 x 1 lattice holding +1, with J = 1 and H = 0. *)
Definition single_state : State :=
  mkState [[1]] 1 2 1 0 0 false [] 0 Circle Random true 100.

(** ** Ranges *)

(** A percentage between -100 and 100. *)
Definition percentage (m : Q) : Prop := (-100 <= m <= 100)%Q.

(** The ranges of the sliders, but for the temperature, which keeps only
    its lower end: [min] and [max] of the six [Slider] elements. *)
Definition parameters_ok (c : State) : Prop :=
  10 <= size c <= 69
  /\ ((1 # 10) <= temperature c)%Q
  /\ (0 <= coupling c <= 2)%Q
  /\ (-2 <= externalField c <= 2)%Q
  /\ (- (1 # 20) <= annealingRate c <= 1 # 20)%Q
  /\ 10 <= simulationSpeed c <= 500.

Definition statistics_ok (c : State) : Prop :=
  percentage (magnetization c) /\ Forall percentage (magnetizationHistory c).

(** A state in which every guard of the component passes and every value
    is in its range. *)
Definition good (c : State) : Prop :=
  lattice c /\ spins (grid c) /\ parameters_ok c /\ statistics_ok c.

Definition consistent (u : State * Pointer) : Prop :=
  good (fst u) /\ (1 <= radius (snd u) <= 15)%Q.

(** What the markup and the clock allow: a slider delivers a value between
    its [min] and its [max]; [Date.now()] during a gesture is not earlier
    than at its start. *)
Definition valid_event (u : State * Pointer) (ev : Event) : Prop :=
  match ev with
  | GridSizeSlider value => 10 <= value <= 69
  | SpeedSlider value => 10 <= value <= 500
  | TemperatureSlider value => ((1 # 10) <= value <= 5)%Q
  | CouplingSlider value => (0 <= value <= 2)%Q
  | FieldSlider value => (-2 <= value <= 2)%Q
  | AnnealingSlider value => (- (1 # 20) <= value <= 1 # 20)%Q
  | MouseMove e => (default 0 (startTime (snd u)) <= now e)%Q
  | _ => True
  end.

(** The states of the component between two actions: the one the first
    renders leave, and those reached from it by valid actions.  The number
    is the count of values of [Math.random()] consumed so far. *)
Inductive reachable (exp : Q -> Q) (rand : nat -> Q)
  : State * Pointer -> nat -> Prop :=
| reachable_mount (c : State) (n : nat) :
    mount rand 0%nat = Some (c, n) -> reachable exp rand (c, initialPointer) n
| reachable_step (u u' : State * Pointer) (n n' : nat) (ev : Event) :
    reachable exp rand u n -> valid_event u ev ->
    dispatch exp rand ev u n = Some (u', n') ->
    reachable exp rand u' n'.

(** The pointer is over the rectangle of the canvas. *)
Definition over_canvas (e : PointerEvent) : Prop :=
  ((rect_left e <= clientX e)%Q /\ (clientX e < rect_left e + rect_width e)%Q)
  /\ ((rect_top e <= clientY e)%Q /\ (clientY e < rect_top e + rect_height e)%Q).

(** What a handler may leave behind before the effects run: a square
    lattice of spins that need not have the side [size] yet, marked
    initialized, every value in its range. *)
Definition pending_ok (c : State) : Prop :=
  (exists n : Z, square n (grid c))
  /\ spins (grid c) /\ parameters_ok c /\ statistics_ok c
  /\ gridInitialized c = true.

(** The state with one more magnetization sample recorded. *)
Definition recorded (m : Q) (s : State) : State :=
  setMagnetizationHistory (magnetizationHistory s ++ [m])
    (setMagnetization m s).

(** What is needed of a handler: it runs to its end and leaves a state
    that the renders can settle. *)
Definition settles (c : State) (m : M State) (n : nat) : Prop :=
  exists (c' : State) (n' : nat),
    m n = Some (c', n')
    /\ pending_ok c'
    /\ (size c = size c' -> initialPattern c = initialPattern c' ->
        js_length (grid c') = size c').

(** The spin that [initializeGrid] makes of one value of [Math.random()]:
    [Math.random() < 0.5 ? 1 : -1]. *)
Definition random_spin (u : Q) : Z := if Qlt_bool u (1 # 2) then 1 else -1.

(** ** Further concrete inputs *)

(** A running simulation on the 10 x 10 checkerboard. *)
Definition checker_state : State :=
  mkState (checkerboard_grid 10) 10 2 1 0 0 true [0%Q] 0 Circle Checkerboard
    true 100.

(** A running simulation on the all-negative 10 x 10 lattice, which shows
    the night backdrop. *)
Definition night_state : State :=
  mkState (uniform_grid 10 (-1)) 10 2 1 0 (-100) true [(-100)%Q] 0 Circle
    Negative true 100.

(** The running simulation of [running_state], cooling by 0.01 a second. *)
Definition cooling_state : State := setAnnealingRate (1 # 100) running_state.

(** What the first renders leave when every value of [Math.random()] is
    0.25: the all-positive 30 x 30 lattice and one sample. *)
Definition mounted_state : State :=
  mkState (uniform_grid 30 1) 30 2 1 0 (percent 900 900) false
    [percent 900 900] 0 Circle Random true 100.

(** A pointer at (150, 50) over a canvas of 200 x 200 pixels whose corner
    is at (100, 0), and the same pointer over a canvas of width 0. *)
Definition example_event : PointerEvent := mkPointerEvent 150 50 100 0 200 200 0.
Definition collapsed_event : PointerEvent := mkPointerEvent 150 50 100 0 0 200 0.

(** ** The statistics and the lattice *)

(** The magnetization shown is that of the lattice shown, and it is the
    last sample of the history. *)
Definition in_sync (c : State) : Prop :=
  (magnetization c == percent (sum_spins (grid c)) (size c * size c))%Q
  /\ last (magnetizationHistory c) = Some (magnetization c).

(** The actions that set a parameter of the simulation other than the
    size and the pattern, and the annealing tick. *)
Definition sets_parameter (ev : Event) : bool :=
  match ev with
  | SpeedSlider _ | TemperatureSlider _ | CouplingSlider _ | FieldSlider _
  | AnnealingSlider _ | DrawModeButton _ | PlayButton | AnnealingInterval =>
      true
  | _ => false
  end.

(** [s] differs from [c] at most in the parameters that [sets_parameter]
    names. *)
Definition same_lattice (c s : State) : Prop :=
  grid s = grid c /\ size s = size c /\ initialPattern s = initialPattern c
  /\ gridInitialized s = gridInitialized c
  /\ magnetization s = magnetization c
  /\ magnetizationHistory s = magnetizationHistory c.

(** ** The canvas *)

(** The point [pt] is inside the closed disc or the closed rectangle that
    the path bounds. *)
Definition inside (path : Path) (pt : Q * Q) : Prop :=
  match path with
  | Arc cx cy r =>
      ((fst pt - cx) * (fst pt - cx) + (snd pt - cy) * (snd pt - cy)
       <= r * r)%Q
  | Box x y w h =>
      ((x <= fst pt)%Q /\ (fst pt <= x + w)%Q)
      /\ ((y <= snd pt)%Q /\ (snd pt <= y + h)%Q)
  end.

(** The corner of the cell [(x, y)] nearest to the origin of the canvas,
    and its center. *)
Definition cell_corner (cellSize : Q) (x y : Z) : Q * Q :=
  (inject_Z x * cellSize, inject_Z y * cellSize)%Q.

Definition cell_center (cellSize : Q) (x y : Z) : Q * Q :=
  (inject_Z x * cellSize + cellSize / 2,
   inject_Z y * cellSize + cellSize / 2)%Q.

(** The two fills of a cell holding [v]. *)
Definition shadow_fill (cellSize : Q) (x y v : Z) : Fill :=
  mkFill (if v =? 1 then CyanShadow else PinkShadow)
    (inject_Z x * cellSize + 1) (inject_Z y * cellSize + 1)
    (cellSize - 2) (cellSize - 2).

Definition main_fill (cellSize : Q) (x y v : Z) : Fill :=
  mkFill (if v =? 1 then Cyan else Pink)
    (inject_Z x * cellSize + 2) (inject_Z y * cellSize + 2)
    (cellSize - 4) (cellSize - 4).

(** The pointer of a gesture at the lattice position (23/10, 5) with
    radius 1. *)
Definition example_pointer : Pointer :=
  mkPointer true 1 (Some 0%Q) (Some (23 # 10, 5, 1)%Q).

(** While no gesture is in progress the brush has radius 1 and no outline
    is shown. *)
Definition idle (p : Pointer) : Prop :=
  isDrawing p = false -> radius p = 1%Q /\ circle p = None.

(** The number of values of [Math.random()] that one call of
    [initializeGrid] consumes for the pattern [p] on a lattice of side [n]. *)
Definition pattern_draws (p : Pattern) (n : Z) : nat :=
  match p with
  | Random => (Z.to_nat n * Z.to_nat n)%nat
  | _ => O
  end.

(** The number of values of [Math.random()] that a render consumes when
    the magnetization it shows is [m]: 200, for the 100 stars of the night
    backdrop, when [m < -50]. *)
Definition star_draws (m : Q) : nat :=
  if Qlt_bool m (-50) then 200%nat else O.

(** Closed instances of the decidable predicates, by evaluation. *)
Ltac by_computation :=
  unfold lattice, square, spins;
  apply (bool_decide_unpack _); vm_compute; exact I.

(** * Properties *)

(** ** Well-formed lattices *)

Lemma js_index_Some {A : Type} (a : list A) (i : Z) :
  0 <= i < js_length a -> exists v, js_index a i = Some v.
Proof.
  intros [H0 H1]. unfold js_index, js_length in *.
  destruct (decide (0 <= i)) as [_|]; [|lia].
  apply lookup_lt_is_Some_2. lia.
Qed.

Lemma js_index_Some_range {A : Type} (a : list A) (i : Z) (v : A) :
  js_index a i = Some v -> 0 <= i < js_length a.
Proof.
  unfold js_index, js_length. destruct (decide (0 <= i)); [|done].
  intros H%lookup_lt_Some. lia.
Qed.

Lemma square_cell (n : Z) (g : list (list Z)) (x y : Z) :
  square n g -> 0 <= x < n -> 0 <= y < n -> exists v, cell g x y = Some v.
Proof.
  intros [Hl Hr] Hx Hy. unfold cell.
  destruct (js_index_Some g y) as [row Hrow]; [lia|]. rewrite Hrow.
  apply js_index_Some.
  unfold js_index in Hrow. destruct (decide (0 <= y)); [|done].
  rewrite Forall_lookup in Hr. rewrite (Hr _ _ Hrow). lia.
Qed.

Lemma lattice_square (s : State) : lattice s -> square (size s) (grid s).
Proof. intros (_ & _ & Hl & Hr). by split. Qed.

Lemma lattice_ready (s : State) : lattice s -> notReady s = false.
Proof.
  intros (Hi & Hn & Hl & Hr). unfold notReady. rewrite Hi, Hl. simpl.
  destruct (js_index_Some (grid s) 0) as [row0 H0]; [lia|]. rewrite H0.
  unfold js_index in H0. simpl in H0.
  rewrite Forall_lookup in Hr. rewrite (Hr _ _ H0).
  rewrite Z.eqb_refl. simpl.
  destruct (Z.eqb_spec (size s) 0); [lia|]. reflexivity.
Qed.

(** JavaScript's [%] on the operands that occur in [calculateDeltaE]. *)
Lemma rem_wrap (a n : Z) : 0 <= a -> 0 < n -> Z.rem a n = a mod n.
Proof. intros. apply Z.rem_mod_nonneg; lia. Qed.

Lemma cell_spin (n : Z) (g : list (list Z)) (x y : Z) :
  square n g -> 0 <= x < n -> 0 <= y < n -> cell g x y = Some (spin g x y).
Proof.
  intros Hsq Hx Hy. destruct (square_cell n g x y Hsq Hx Hy) as [v Hv].
  unfold spin. by rewrite Hv.
Qed.

(** C5.  On an initialized N x N lattice and a site inside it,
    [calculateDeltaE] is [2*J*s*nsum + 2*H*s], with [s] the spin of the site
    and [nsum] the sum of the spins stored at rows [(y-1+N) mod N] and
    [(y+1) mod N] of column [x] and at columns [(x-1+N) mod N] and
    [(x+1) mod N] of row [y]; the four wrapped positions are cells of the
    lattice. *)
Theorem calculateDeltaE_formula (s : State) (x y : Z) :
  lattice s -> 0 <= x < size s -> 0 <= y < size s ->
  let n := size s in
  let up := ((y - 1 + n) mod n) in
  let down := ((y + 1) mod n) in
  let left := ((x - 1 + n) mod n) in
  let right := ((x + 1) mod n) in
  let sp := spin (grid s) x y in
  let nsum := spin (grid s) x up + spin (grid s) x down
              + spin (grid s) left y + spin (grid s) right y in
  (0 <= up < n /\ 0 <= down < n /\ 0 <= left < n /\ 0 <= right < n)
  /\ cell (grid s) x y = Some sp
  /\ cell (grid s) x up = Some (spin (grid s) x up)
  /\ cell (grid s) x down = Some (spin (grid s) x down)
  /\ cell (grid s) left y = Some (spin (grid s) left y)
  /\ cell (grid s) right y = Some (spin (grid s) right y)
  /\ calculateDeltaE s x y
     = (2 * coupling s * inject_Z sp * inject_Z nsum
        + 2 * externalField s * inject_Z sp)%Q.
Proof.
  intros Hl Hx Hy n up down left right sp nsum.
  pose proof (lattice_square s Hl) as Hsq.
  assert (Hn : 0 < n) by apply Hl.
  assert (Hup : 0 <= up < n) by (apply Z.mod_pos_bound; lia).
  assert (Hdown : 0 <= down < n) by (apply Z.mod_pos_bound; lia).
  assert (Hleft : 0 <= left < n) by (apply Z.mod_pos_bound; lia).
  assert (Hright : 0 <= right < n) by (apply Z.mod_pos_bound; lia).
  pose proof (cell_spin n _ x y Hsq Hx Hy) as Hc.
  pose proof (cell_spin n _ x up Hsq Hx Hup) as Hcu.
  pose proof (cell_spin n _ x down Hsq Hx Hdown) as Hcd.
  pose proof (cell_spin n _ left y Hsq Hleft Hy) as Hcl.
  pose proof (cell_spin n _ right y Hsq Hright Hy) as Hcr.
  split; [tauto|]. do 5 (split; [assumption|]).
  unfold calculateDeltaE. rewrite (lattice_ready s Hl).
  fold sp in Hc. unfold cell in Hc.
  destruct (js_index (grid s) y) as [row|]; [|done]. rewrite Hc.
  fold n. rewrite !rem_wrap by lia.
  fold up down left right. simpl.
  rewrite Hcu, Hcd, Hcl, Hcr.
  replace (0 + spin (grid s) x up + spin (grid s) x down
           + spin (grid s) left y + spin (grid s) right y) with nsum
    by (unfold nsum; lia).
  reflexivity.
Qed.

(** ** Loops *)

(** A loop whose body extends an invariant on the part of the list already
    traversed establishes it for the whole list. *)
Lemma foldM_prefix {A B : Type} (I : list A -> B -> nat -> Prop)
    (P : A -> Prop) (f : B -> A -> M B) :
  (forall pre a b n, I pre b n -> P a ->
     exists b' n', f b a n = Some (b', n') /\ I (pre ++ [a]) b' n') ->
  forall l pre b n, I pre b n -> Forall P l ->
    exists b' n', foldM f l b n = Some (b', n') /\ I (pre ++ l) b' n'.
Proof.
  intros Hstep l. induction l as [|a l IH]; intros pre b n Hi Hl.
  - exists b, n. simpl. rewrite app_nil_r. by split.
  - inversion Hl as [|? ? Ha Hl']; subst.
    destruct (Hstep pre a b n Hi Ha) as (b1 & n1 & Hf & Hi1).
    destruct (IH (pre ++ [a]) b1 n1 Hi1 Hl') as (b2 & n2 & Hf2 & Hi2).
    exists b2, n2. simpl. unfold bind. rewrite Hf.
    split; [done|]. by rewrite <- app_assoc in Hi2.
Qed.

(** The same with an invariant indexed by the number of iterations done. *)
Lemma foldM_steps {A B : Type} (I : nat -> B -> nat -> Prop) (P : A -> Prop)
    (f : B -> A -> M B) :
  (forall i b a n, I i b n -> P a ->
     exists b' n', f b a n = Some (b', n') /\ I (S i) b' n') ->
  forall l i b n, I i b n -> Forall P l ->
    exists b' n', foldM f l b n = Some (b', n')
                  /\ I (i + length l)%nat b' n'.
Proof.
  intros Hstep l i b n Hi Hl.
  destruct (foldM_prefix (fun pre => I (i + length pre)%nat) P f)
    with (l := l) (pre := @nil A) (b := b) (n := n) as (b' & n' & Hrun & Hi');
    [|by rewrite Nat.add_0_r|done|by eauto].
  intros pre a b0 n0 Hb Ha.
  destruct (Hstep _ b0 a n0 Hb Ha) as (b1 & n1 & Hf & Hi1).
  exists b1, n1. split; [done|].
  rewrite length_app. simpl.
  by replace (i + (length pre + 1))%nat with (S (i + length pre)) by lia.
Qed.

(** ** Flipping a cell of a square lattice *)

Lemma flipAt_Some (g : list (list Z)) (x y v : Z) :
  cell g x y = Some v -> flipAt g x y = Some (flipped g x y).
Proof. intros H. unfold flipAt. by rewrite H. Qed.

Lemma js_length_alter {A : Type} (f : A -> A) (i : nat) (a : list A) :
  js_length (alter f i a) = js_length a.
Proof. unfold js_length. by rewrite length_alter. Qed.

Lemma flipped_square (n : Z) (g : list (list Z)) (x y : Z) :
  square n g -> square n (flipped g x y).
Proof.
  intros [Hl Hr]. unfold flipped. split; [by rewrite js_length_alter|].
  apply Forall_alter; [done|]. intros row _ Hrow. by rewrite js_length_alter.
Qed.

Lemma flipped_spins (g : list (list Z)) (x y : Z) :
  spins g -> spins (flipped g x y).
Proof.
  intros Hs. unfold flipped, spins. apply Forall_alter; [done|].
  intros row _ Hrow. apply Forall_alter; [done|]. intros v _ Hv. lia.
Qed.

Lemma js_index_alter_eq {A : Type} (f : A -> A) (a : list A) (i : Z) :
  0 <= i -> js_index (alter f (Z.to_nat i) a) i = f <$> js_index a i.
Proof.
  intros Hi. unfold js_index. destruct (decide (0 <= i)); [|lia].
  apply list_lookup_alter_eq.
Qed.

Lemma js_index_alter_ne {A : Type} (f : A -> A) (a : list A) (i j : Z) :
  0 <= i -> i <> j -> js_index (alter f (Z.to_nat i) a) j = js_index a j.
Proof.
  intros Hi Hij. unfold js_index. destruct (decide (0 <= j)); [|done].
  apply list_lookup_alter_ne. lia.
Qed.

(** Reading the flipped lattice: the flipped site is negated, every other
    site reads as before. *)
Lemma cell_flipped_eq (g : list (list Z)) (x y : Z) :
  0 <= x -> 0 <= y ->
  cell (flipped g x y) x y = (fun v => v * -1) <$> cell g x y.
Proof.
  intros Hx Hy. unfold cell, flipped. rewrite js_index_alter_eq by done.
  destruct (js_index g y) as [row|]; simpl; [|done].
  by rewrite js_index_alter_eq.
Qed.

Lemma cell_flipped_ne (g : list (list Z)) (x y x' y' : Z) :
  0 <= x -> 0 <= y -> (x', y') <> (x, y) ->
  cell (flipped g x y) x' y' = cell g x' y'.
Proof.
  intros Hx Hy Hne. unfold cell, flipped.
  destruct (decide (y = y')) as [<-|Hy'].
  - rewrite js_index_alter_eq by done.
    destruct (js_index g y) as [row|]; simpl; [|done].
    apply js_index_alter_ne; [done|]. congruence.
  - by rewrite js_index_alter_ne.
Qed.

Lemma copyGrid_id (g : list (list Z)) : copyGrid g = g.
Proof. unfold copyGrid. apply list_fmap_id. Qed.

(** ** Sites drawn by the sweep *)

Lemma floor_scaled_range (u : Q) (n : Z) :
  (0 <= u)%Q -> (u < 1)%Q -> 0 < n -> 0 <= Qfloor (u * inject_Z n) < n.
Proof.
  intros H0 H1 Hn.
  assert (Hq : (0 < inject_Z n)%Q)
    by (change 0%Q with (inject_Z 0); by rewrite <- Zlt_Qlt).
  split.
  - change 0 with (Qfloor 0). apply Qfloor_resp_le. nra.
  - rewrite Zlt_Qlt. eapply Qle_lt_trans; [apply Qfloor_le|]. nra.
Qed.

Lemma Qlt_bool_iff (x y : Q) : Qlt_bool x y = true <-> (x < y)%Q.
Proof.
  unfold Qlt_bool. rewrite negb_true_iff, <- not_true_iff_false, Qle_bool_iff.
  split; [apply Qnot_le_lt|apply Qlt_not_le].
Qed.

Lemma Qle_bool_false (x y : Q) : Qle_bool x y = false <-> (y < x)%Q.
Proof.
  rewrite <- not_true_iff_false, Qle_bool_iff.
  split; [apply Qnot_le_lt|apply Qlt_not_le].
Qed.

Section Steps.

Variable exp : Q -> Q.
Variable rand : nat -> Q.

Lemma sweepTrial_step (s : State) (w : Work) (n : nat) :
  lattice s -> square (size s) (newGrid w) ->
  (0 <= rand n < 1)%Q -> (0 <= rand (S n) < 1)%Q ->
  let x := Qfloor (rand n * inject_Z (size s)) in
  let y := Qfloor (rand (S n) * inject_Z (size s)) in
  let deltaE := calculateDeltaE s x y in
  let u := rand (S (S n)) in
  (0 <= x < size s /\ 0 <= y < size s)
  /\ ((deltaE <= 0)%Q ->
      sweepTrial exp rand s w n = Some (accepted w x y deltaE, S (S n)))
  /\ ((0 < deltaE)%Q ->
      sweepTrial exp rand s w n
      = Some (if Qlt_bool u (exp (- deltaE / Qmax (1 # 10) (temperature s)))
              then accepted w x y deltaE else rejected w x y deltaE,
              S (S (S n)))).
Proof.
  intros Hl Hw [Ha0 Ha1] [Hb0 Hb1] x y deltaE u.
  assert (Hn : 0 < size s) by apply Hl.
  assert (Hx : 0 <= x < size s) by by apply floor_scaled_range.
  assert (Hy : 0 <= y < size s) by by apply floor_scaled_range.
  destruct (square_cell _ _ x y (lattice_square s Hl) Hx Hy) as [v Hv].
  destruct (square_cell _ _ x y Hw Hx Hy) as [v' Hv'].
  split; [done|].
  unfold sweepTrial, bind, Math_random, negate. fold x y. rewrite Hv.
  fold deltaE. rewrite (flipAt_Some _ _ _ _ Hv'). simpl. split.
  - intros Hd. apply Qle_bool_iff in Hd. by rewrite Hd.
  - intros Hd. apply Qle_bool_false in Hd. rewrite Hd. fold u.
    by destruct (Qlt_bool u _).
Qed.

Lemma paintCell_step (s : State) (centerX centerY radius : Q) (x y : Z)
    (w : Work) (n : nat) :
  square (size s) (newGrid w) ->
  0 <= x < size s -> 0 <= y < size s ->
  let deltaE := calculateDeltaE s x y in
  let u := rand n in
  (inShape (drawMode s) centerX centerY radius x y = false ->
   paintCell exp rand s centerX centerY radius y w x n = Some (w, n))
  /\ (inShape (drawMode s) centerX centerY radius x y = true ->
      ((deltaE <= 0)%Q ->
       paintCell exp rand s centerX centerY radius y w x n
       = Some (accepted w x y deltaE, n))
      /\ ((0 < deltaE)%Q ->
          paintCell exp rand s centerX centerY radius y w x n
          = Some (if Qlt_bool u (exp (- deltaE / Qmax (1 # 10) (temperature s)))
                  then accepted w x y deltaE else rejected w x y deltaE,
                  S n))).
Proof.
  intros Hw Hx Hy deltaE u.
  destruct (square_cell _ _ x y Hw Hx Hy) as [v' Hv'].
  unfold paintCell, bind, Math_random, negate. fold deltaE.
  rewrite (flipAt_Some _ _ _ _ Hv'). simpl.
  split; [by intros ->|]. intros ->. split.
  - intros Hd. apply Qle_bool_iff in Hd. by rewrite Hd.
  - intros Hd. apply Qle_bool_false in Hd. rewrite Hd. fold u.
    by destruct (Qlt_bool u _).
Qed.

End Steps.

(** C4.  The sweep and the paint decide a candidate in the same way.  With
    [deltaE] the value of [calculateDeltaE] at the candidate and [u] the
    first value of [Math.random()] not yet consumed when the test is reached,
    the spin is flipped exactly when [deltaE <= 0] or
    [u < exp(-deltaE / max(0.1, T))]; [u] is drawn only when [deltaE > 0]
    (the count of consumed values grows by one then, and not at all when
    [deltaE <= 0]); the floor [max(0.1, T)] is applied whatever [T] is. *)
Theorem acceptance_rule (exp : Q -> Q) (rand : nat -> Q) (s : State)
    (w : Work) (n : nat) :
  lattice s -> square (size s) (newGrid w) ->
  (* the sweep: the site takes the draws [n] and [n+1] *)
  ((0 <= rand n < 1)%Q -> (0 <= rand (S n) < 1)%Q ->
   let x := Qfloor (rand n * inject_Z (size s)) in
   let y := Qfloor (rand (S n) * inject_Z (size s)) in
   let deltaE := calculateDeltaE s x y in
   let u := rand (S (S n)) in
   exists (flip : bool) (n' : nat),
     sweepTrial exp rand s w n
     = Some (if flip then accepted w x y deltaE else rejected w x y deltaE, n')
     /\ (flip = true <-> metropolis exp deltaE (temperature s) u)
     /\ ((deltaE <= 0)%Q -> n' = S (S n))
     /\ ((0 < deltaE)%Q -> n' = S (S (S n))))
  (* the paint: a cell of the lattice inside the shape *)
  /\ (forall (centerX centerY radius : Q) (x y : Z),
      0 <= x < size s -> 0 <= y < size s ->
      inShape (drawMode s) centerX centerY radius x y = true ->
      let deltaE := calculateDeltaE s x y in
      let u := rand n in
      exists (flip : bool) (n' : nat),
        paintCell exp rand s centerX centerY radius y w x n
        = Some (if flip then accepted w x y deltaE
                else rejected w x y deltaE, n')
        /\ (flip = true <-> metropolis exp deltaE (temperature s) u)
        /\ ((deltaE <= 0)%Q -> n' = n)
        /\ ((0 < deltaE)%Q -> n' = S n)).
Proof.
  intros Hl Hw. split.
  - intros Ha Hb x y deltaE u.
    destruct (sweepTrial_step exp rand s w n Hl Hw Ha Hb) as (_ & Hle & Hgt).
    fold x y deltaE u in Hle, Hgt.
    destruct (Qlt_le_dec 0 deltaE) as [Hd|Hd].
    + eexists _, _. split; [apply (Hgt Hd)|]. split; [|split; [|done]].
      * rewrite Qlt_bool_iff. unfold metropolis. split; [tauto|].
        intros [H|H]; [|done]. exfalso. by apply (Qlt_not_le _ _ Hd).
      * intros H. exfalso. by apply (Qlt_not_le _ _ Hd).
    + exists true. eexists. split; [apply (Hle Hd)|]. split; [|split; [done|]].
      * unfold metropolis. tauto.
      * intros H. exfalso. by apply (Qlt_not_le _ _ H).
  - intros centerX centerY radius x y Hx Hy Hin deltaE u.
    destruct (paintCell_step exp rand s centerX centerY radius x y w n Hw Hx Hy)
      as (_ & Hp).
    destruct (Hp Hin) as [Hle Hgt]. fold deltaE u in Hle, Hgt.
    destruct (Qlt_le_dec 0 deltaE) as [Hd|Hd].
    + eexists _, _. split; [apply (Hgt Hd)|]. split; [|split; [|done]].
      * rewrite Qlt_bool_iff. unfold metropolis. split; [tauto|].
        intros [H|H]; [|done]. exfalso. by apply (Qlt_not_le _ _ Hd).
      * intros H. exfalso. by apply (Qlt_not_le _ _ Hd).
    + exists true. eexists. split; [apply (Hle Hd)|]. split; [|split; [done|]].
      * unfold metropolis. tauto.
      * intros H. exfalso. by apply (Qlt_not_le _ _ H).
Qed.

(** ** Replaying a list of trials *)

Lemma replay_snoc (g0 : list (list Z)) (log : list Trial) (t : Trial) :
  replay g0 (log ++ [t])
  = if t_flipped t then flipped (replay g0 log) (t_x t) (t_y t)
    else replay g0 log.
Proof. unfold replay. by rewrite foldl_snoc. Qed.

Lemma fresh_pairs_snoc (lo hi hi' k : nat) (ks : list nat) :
  fresh_pairs lo hi ks -> (hi <= k)%nat -> (S (S k) <= hi')%nat ->
  fresh_pairs lo hi' (ks ++ [k]).
Proof.
  revert lo. induction ks as [|k0 ks IH]; intros lo; simpl.
  - lia.
  - intros [H0 H1] Hk Hhi. split; [done|]. by apply IH.
Qed.

Lemma replay_square (n : Z) (g0 : list (list Z)) (log : list Trial) :
  square n g0 -> square n (replay g0 log).
Proof.
  induction log as [|t log IH] using rev_ind; intros Hsq; [done|].
  rewrite replay_snoc. destruct (t_flipped t); [|by apply IH].
  by apply flipped_square, IH.
Qed.

Lemma replay_spins (g0 : list (list Z)) (log : list Trial) :
  spins g0 -> spins (replay g0 log).
Proof.
  induction log as [|t log IH] using rev_ind; intros Hs; [done|].
  rewrite replay_snoc. destruct (t_flipped t); [|by apply IH].
  by apply flipped_spins, IH.
Qed.

Section Sweep.

Variable exp : Q -> Q.
Variable rand : nat -> Q.
Hypothesis rand_unit : forall k, (0 <= rand k < 1)%Q.

Variable s : State.
Hypothesis s_lattice : lattice s.

Lemma sweepTrial_outcome (w : Work) (n : nat) :
  square (size s) (newGrid w) ->
  exists (t : Trial) (n' : nat),
    sweepTrial exp rand s w n
    = Some (mkWork (if t_flipped t then flipped (newGrid w) (t_x t) (t_y t)
                    else newGrid w)
              (trials w ++ [t]) (nans w), n')
    /\ site_drawn rand s n t /\ on_snapshot s t /\ (S (S n) <= n')%nat.
Proof.
  intros Hw.
  destruct (sweepTrial_step exp rand s w n s_lattice Hw
              (rand_unit n) (rand_unit (S n))) as (Hr & Hle & Hgt).
  set (x := Qfloor (rand n * inject_Z (size s))) in *.
  set (y := Qfloor (rand (S n) * inject_Z (size s))) in *.
  set (deltaE := calculateDeltaE s x y) in *.
  destruct (Qlt_le_dec 0 deltaE) as [Hd|Hd].
  - rewrite (Hgt Hd).
    destruct (Qlt_bool _ _).
    + exists (mkTrial x y deltaE true). eexists. split; [reflexivity|].
      repeat split; try done; try apply Hr. lia.
    + exists (mkTrial x y deltaE false). eexists. split; [reflexivity|].
      repeat split; try done; try apply Hr. lia.
  - rewrite (Hle Hd).
    exists (mkTrial x y deltaE true). eexists. split; [reflexivity|].
    repeat split; try done; apply Hr.
Qed.

Lemma sweep_inv_step (n0 i : nat) (w : Work) (n : nat) :
  sweep_inv rand s n0 i w n ->
  exists w' n', sweepTrial exp rand s w n = Some (w', n')
                /\ sweep_inv rand s n0 (S i) w' n'.
Proof.
  intros ([Hg Hnan] & Hlen & Hsnap & ks & Hks & Hfresh).
  assert (Hw : square (size s) (newGrid w)).
  { rewrite Hg. apply replay_square, lattice_square, s_lattice. }
  destruct (sweepTrial_outcome w n Hw) as (t & n' & Hrun & Hsite & Hon & Hn').
  eexists _, _. split; [exact Hrun|]. unfold sweep_inv. simpl.
  split; [by rewrite replay_snoc, Hg|].
  split; [rewrite length_app; simpl; lia|].
  split; [apply Forall_app; by split; [|constructor]|].
  exists (ks ++ [n]). split.
  - apply Forall2_app; [done|]. by constructor.
  - eapply fresh_pairs_snoc; [done|lia|done].
Qed.

End Sweep.

(** What a call of [evolveSystem] on an initialized lattice does, the draws
    being in [0,1): see the statement of the sweep below. *)
Lemma evolveSystem_run (exp : Q -> Q) (rand : nat -> Q) (s : State)
    (n : nat) :
  lattice s -> (forall k, (0 <= rand k < 1)%Q) ->
  exists (log : list Trial) (ks : list nat) (n' : nat),
    evolveSystem exp rand s n
    = Some ((setGrid (replay (grid s) log) s, log), n')
    /\ js_length log = size s * size s
    /\ Forall2 (site_drawn rand s) ks log
    /\ fresh_pairs n n' ks
    /\ Forall (on_snapshot s) log.
Proof.
  intros Hl Hr.
  destruct (foldM_steps (sweep_inv rand s n) (fun _ : Z => True)
              (fun w (_ : Z) => sweepTrial exp rand s w))
    with (l := seqZ 0 (size s * size s)) (i := O)
         (b := mkWork (copyGrid (grid s)) [] []) (n := n)
    as (w & n' & Hrun & [Hg Hnan] & Hlen & Hsnap & ks & Hks & Hfresh).
  - intros i b a m Hi _. by apply sweep_inv_step.
  - unfold sweep_inv. simpl. rewrite copyGrid_id.
    repeat split; try done. exists []. by split; [constructor|simpl].
  - by apply Forall_true.
  - exists (trials w), ks, n'.
    unfold evolveSystem. rewrite (lattice_ready s Hl).
    unfold bind at 1. rewrite Hrun. unfold publish, ret. rewrite Hnan, Hg.
    split; [done|]. split; [|done].
    unfold js_length. rewrite Hlen, length_seqZ. simpl.
    assert (0 < size s) by apply Hl. nia.
Qed.

(** C3.  On an initialized N x N lattice, with every value of
    [Math.random()] in [0,1), one call of [evolveSystem] runs to its end and
    evaluates exactly N*N candidates.  Each candidate takes its site
    [(floor(u*N), floor(u'*N))] from two consecutive draws that no other
    candidate uses, and the site lies in [0,N) x [0,N).  The [deltaE] of every
    candidate is that of its site in the pre-sweep state [s].  The lattice
    of the new state is the pre-sweep lattice with the accepted flips applied
    in order, installed by the single [setGrid] that ends the sweep; no other
    field of the state changes. *)
Theorem evolveSystem_sweep (exp : Q -> Q) (rand : nat -> Q) (s : State)
    (n : nat) :
  lattice s -> (forall k, (0 <= rand k < 1)%Q) ->
  exists (log : list Trial) (ks : list nat) (n' : nat),
    evolveSystem exp rand s n
    = Some ((setGrid (replay (grid s) log) s, log), n')
    /\ js_length log = size s * size s
    /\ Forall2 (site_drawn rand s) ks log
    /\ fresh_pairs n n' ks
    /\ Forall (on_snapshot s) log.
Proof. apply evolveSystem_run. Qed.

(** ** The cells visited by the paint *)

Lemma inShape_inRegion (mode : DrawMode) (centerX centerY radius : Q)
    (x y : Z) :
  inShape mode centerX centerY radius x y = true
  <-> inRegion mode centerX centerY radius x y.
Proof.
  unfold inShape, inRegion. destruct mode.
  - apply Qle_bool_iff.
  - rewrite andb_true_iff, !Qle_bool_iff. tauto.
Qed.

Lemma box_cells_snoc (xs ys : list Z) (y : Z) :
  box_cells xs (ys ++ [y]) = box_cells xs ys ++ row_cells xs y.
Proof.
  unfold box_cells. rewrite fmap_app, join_app. simpl. by rewrite app_nil_r.
Qed.

Lemma row_cells_snoc (xs : list Z) (x y : Z) :
  row_cells (xs ++ [x]) y = row_cells xs y ++ [(x, y)].
Proof. unfold row_cells. by rewrite fmap_app. Qed.

Lemma elem_of_box_cells (xs ys : list Z) (x y : Z) :
  (x, y) ∈ box_cells xs ys <-> x ∈ xs /\ y ∈ ys.
Proof.
  unfold box_cells, row_cells. rewrite list_elem_of_join. split.
  - intros (l & Hxy & Hl). apply list_elem_of_fmap in Hl as (y' & -> & Hy').
    apply list_elem_of_fmap in Hxy as (x' & Heq & Hx'). by simplify_eq.
  - intros [Hx Hy]. exists ((fun x => (x, y)) <$> xs).
    split; apply list_elem_of_fmap; eauto.
Qed.

Section Paint.

Variable exp : Q -> Q.
Variable rand : nat -> Q.
Variable s : State.
Hypothesis s_lattice : lattice s.
Variables centerX centerY radius : Q.

Lemma paint_inv_cell (cs : list (Z * Z)) (x y : Z) (w : Work) (n : nat) :
  paint_inv s centerX centerY radius cs w n ->
  0 <= x < size s -> 0 <= y < size s ->
  exists w' n',
    paintCell exp rand s centerX centerY radius y w x n = Some (w', n')
    /\ paint_inv s centerX centerY radius (cs ++ [(x, y)]) w' n'.
Proof.
  intros ([Hg Hnan] & Hsites & Hsnap) Hx Hy.
  assert (Hw : square (size s) (newGrid w)).
  { rewrite Hg. apply replay_square, lattice_square, s_lattice. }
  destruct (paintCell_step exp rand s centerX centerY radius x y w n Hw Hx Hy)
    as (Hout & Hin).
  unfold paint_inv, members. rewrite filter_app, filter_cons, filter_nil.
  simpl.
  destruct (inShape (drawMode s) centerX centerY radius x y) eqn:Hs.
  - destruct (Hin eq_refl) as [Hle Hgt].
    assert (exists (b : bool) (n' : nat),
      paintCell exp rand s centerX centerY radius y w x n
      = Some (mkWork (if b then flipped (newGrid w) x y else newGrid w)
                (trials w ++ [mkTrial x y (calculateDeltaE s x y) b])
                (nans w), n'))
      as (b & n' & Hrun).
    { destruct (Qlt_le_dec 0 (calculateDeltaE s x y)) as [Hd|Hd].
      - rewrite (Hgt Hd). destruct (Qlt_bool _ _).
        + by exists true; eexists.
        + by exists false; eexists.
      - rewrite (Hle Hd). by exists true; eexists. }
    eexists _, _. split; [exact Hrun|]. simpl.
    split; [by rewrite replay_snoc, Hg|].
    split; [by rewrite fmap_app, Hsites|].
    apply Forall_app. split; [done|]. by constructor.
  - rewrite (Hout eq_refl). eexists _, _. split; [done|].
    by rewrite app_nil_r.
Qed.

Lemma paint_inv_row (xs : list Z) (cs : list (Z * Z)) (y : Z) (w : Work)
    (n : nat) :
  paint_inv s centerX centerY radius cs w n ->
  Forall (fun x => 0 <= x < size s) xs ->
  0 <= y < size s ->
  exists w' n',
    foldM (paintCell exp rand s centerX centerY radius y) xs w n
    = Some (w', n')
    /\ paint_inv s centerX centerY radius (cs ++ row_cells xs y) w' n'.
Proof.
  intros Hi Hxs Hy.
  destruct (foldM_prefix
              (fun pre =>
                 paint_inv s centerX centerY radius (cs ++ row_cells pre y))
              (fun x => 0 <= x < size s)
              (paintCell exp rand s centerX centerY radius y))
    with (l := xs) (pre := @nil Z) (b := w) (n := n) as (w' & n' & Hrun & Hi');
    [| |done|by eauto].
  - intros pre x b m Hb Hx. rewrite row_cells_snoc, app_assoc.
    by apply paint_inv_cell.
  - simpl. by rewrite app_nil_r.
Qed.

Lemma paint_inv_box (xs ys : list Z) (w : Work) (n : nat) :
  paint_inv s centerX centerY radius [] w n ->
  Forall (fun x => 0 <= x < size s) xs ->
  Forall (fun y => 0 <= y < size s) ys ->
  exists w' n',
    foldM (fun w y =>
             foldM (paintCell exp rand s centerX centerY radius y) xs w)
      ys w n = Some (w', n')
    /\ paint_inv s centerX centerY radius (box_cells xs ys) w' n'.
Proof.
  intros Hi Hxs Hys.
  destruct (foldM_prefix
              (fun pre => paint_inv s centerX centerY radius (box_cells xs pre))
              (fun y => 0 <= y < size s)
              (fun w y =>
                 foldM (paintCell exp rand s centerX centerY radius y) xs w))
    with (l := ys) (pre := @nil Z) (b := w) (n := n) as (w' & n' & Hrun & Hi');
    [|done|done|by eauto].
  intros pre y b m Hb Hy. rewrite box_cells_snoc. by apply paint_inv_row.
Qed.

End Paint.

Lemma elem_of_paint_xs (s : State) (centerX radius : Q) (x : Z) :
  x ∈ paint_xs s centerX radius
  <-> Z.max 0 (Qfloor (centerX - radius)) <= x
      /\ x <= Z.min (size s - 1) (Qceiling (centerX + radius)).
Proof. unfold paint_xs. rewrite elem_of_seqZ. lia. Qed.

Lemma elem_of_paint_ys (s : State) (centerY radius : Q) (y : Z) :
  y ∈ paint_ys s centerY radius
  <-> Z.max 0 (Qfloor (centerY - radius)) <= y
      /\ y <= Z.min (size s - 1) (Qceiling (centerY + radius)).
Proof. unfold paint_ys. rewrite elem_of_seqZ. lia. Qed.

(** What a call of [flipSpinsInRadius] on an initialized lattice does: it
    runs to its end; the candidates are the cells of the clamped bounding
    box that pass the shape test, each once, row after row; each carries
    the [deltaE] of its cell in the pre-paint state; the new lattice is the
    old one with the accepted flips applied. *)
Lemma flipSpinsInRadius_run (exp : Q -> Q) (rand : nat -> Q) (s : State)
    (centerX centerY radius : Q) (n : nat) :
  lattice s ->
  exists (log : list Trial) (n' : nat),
    flipSpinsInRadius exp rand s centerX centerY radius n
    = Some ((setGrid (replay (grid s) log) s, log), n')
    /\ site <$> log
       = members (drawMode s) centerX centerY radius
           (box_cells (paint_xs s centerX radius) (paint_ys s centerY radius))
    /\ Forall (on_snapshot s) log.
Proof.
  intros Hl.
  destruct (paint_inv_box exp rand s Hl centerX centerY radius
              (paint_xs s centerX radius) (paint_ys s centerY radius)
              (mkWork (copyGrid (grid s)) [] []) n)
    as (w & n' & Hrun & [Hg Hnan] & Hsites & Hsnap).
  - unfold paint_inv. simpl. by rewrite copyGrid_id.
  - apply Forall_forall. intros x Hx%elem_of_paint_xs. lia.
  - apply Forall_forall. intros y Hy%elem_of_paint_ys. lia.
  - exists (trials w), n'. unfold flipSpinsInRadius.
    rewrite (lattice_ready s Hl). unfold bind at 1.
    unfold paint_xs, paint_ys in Hrun. rewrite Hrun. unfold publish, ret.
    by rewrite Hnan, Hg.
Qed.

(** Replaying trials that stay away from a site leaves the site as it
    was. *)
Lemma replay_frame (g0 : list (list Z)) (log : list Trial) (x y : Z) :
  Forall (fun t => 0 <= t_x t /\ 0 <= t_y t /\ site t <> (x, y)) log ->
  cell (replay g0 log) x y = cell g0 x y.
Proof.
  induction log as [|t log IH] using rev_ind; intros Hlog; [done|].
  apply Forall_app in Hlog as [Hlog Ht].
  inversion Ht as [|? ? (Hx & Hy & Hne) _]; subst.
  rewrite replay_snoc. destruct (t_flipped t); [|by apply IH].
  rewrite cell_flipped_ne; [by apply IH|done|done|].
  intros Heq. apply Hne. unfold site. by inversion Heq.
Qed.

(** C6.  A paint on an initialized lattice evaluates a candidate only at
    cells inside the region (the disc [dx^2+dy^2 <= r^2] in circle mode, the
    square [|dx| <= r], [|dy| <= r] in square mode, [dx], [dy] measured from
    the fractional center); every candidate lies in the bounding box
    [floor(c - r) .. ceil(c + r)] clamped to [0, N-1] in both directions,
    whatever the center and the radius are; and every site outside the
    region reads in the new lattice as in the pre-paint lattice. *)
Theorem flipSpinsInRadius_region (exp : Q -> Q) (rand : nat -> Q) (s : State)
    (centerX centerY radius : Q) (n : nat) :
  lattice s ->
  exists (log : list Trial) (n' : nat),
    flipSpinsInRadius exp rand s centerX centerY radius n
    = Some ((setGrid (replay (grid s) log) s, log), n')
    /\ Forall (fun t =>
         inRegion (drawMode s) centerX centerY radius (t_x t) (t_y t)
         /\ (Z.max 0 (Qfloor (centerX - radius)) <= t_x t
             /\ t_x t <= Z.min (size s - 1) (Qceiling (centerX + radius)))
         /\ (Z.max 0 (Qfloor (centerY - radius)) <= t_y t
             /\ t_y t <= Z.min (size s - 1) (Qceiling (centerY + radius)))
         /\ (0 <= t_x t <= size s - 1 /\ 0 <= t_y t <= size s - 1)) log
    /\ (forall x y : Z,
          ~ inRegion (drawMode s) centerX centerY radius x y ->
          cell (replay (grid s) log) x y = cell (grid s) x y).
Proof.
  intros Hl.
  destruct (flipSpinsInRadius_run exp rand s centerX centerY radius n Hl)
    as (log & n' & Hrun & Hsites & Hsnap).
  exists log, n'. split; [done|].
  assert (Hall : Forall (fun t =>
         inRegion (drawMode s) centerX centerY radius (t_x t) (t_y t)
         /\ (Z.max 0 (Qfloor (centerX - radius)) <= t_x t
             /\ t_x t <= Z.min (size s - 1) (Qceiling (centerX + radius)))
         /\ (Z.max 0 (Qfloor (centerY - radius)) <= t_y t
             /\ t_y t <= Z.min (size s - 1) (Qceiling (centerY + radius)))
         /\ (0 <= t_x t <= size s - 1 /\ 0 <= t_y t <= size s - 1)) log).
  { apply Forall_forall. intros t Ht.
    assert (Hin : site t ∈ site <$> log) by by apply list_elem_of_fmap_2.
    rewrite Hsites in Hin. unfold members in Hin.
    apply list_elem_of_filter in Hin as [Hshape Hbox]. simpl in Hshape.
    apply inShape_inRegion in Hshape.
    apply elem_of_box_cells in Hbox as [Hx Hy].
    apply elem_of_paint_xs in Hx. apply elem_of_paint_ys in Hy.
    split; [done|]. split; [done|]. split; [done|]. lia. }
  split; [done|].
  intros x y Hout. apply replay_frame.
  eapply Forall_impl; [exact Hall|]. simpl.
  intros t (Hreg & _ & _ & Hrange). split; [lia|]. split; [lia|].
  unfold site. intros Heq. apply Hout. by inversion Heq; subst.
Qed.

(** ** Which lattice the paint reads *)

(** C1, counterexample.  Painting the example lattice in circle mode with
    center (0.5, 0) and radius 1 evaluates the sites (0,0) and (1,0), in this
    order.  Site (0,0) has [deltaE = -8] and is flipped.  Site (1,0) is then
    evaluated with [deltaE = 0], the value on the pre-paint lattice (its left
    neighbor still read as -1), and is flipped without a draw; on the working
    copy, where the left neighbor has just become +1, its [deltaE] is 4. *)
Lemma paint_reads_pre_paint_grid :
  flipSpinsInRadius (fun _ => 0%Q) (fun _ => 0%Q) example_state (1 # 2) 0 1
    0%nat
  = Some ((setGrid example_painted example_state, example_log), 0%nat)
  /\ (calculateDeltaE example_state 1 0 == 0)%Q
  /\ (calculateDeltaE (setGrid (flipped example_grid 0 0) example_state) 1 0
      == 4)%Q
  /\ ~ sees_working_copy example_state (grid example_state) example_log.
Proof.
  split; [by vm_compute|]. split; [by vm_compute|]. split; [by vm_compute|].
  simpl. intros (_ & H & _). vm_compute in H. discriminate H.
Qed.

(** C1, as amended.  A paint on an initialized lattice evaluates, once each
    and row after row, the cells of the clamped bounding box that pass the
    shape test; the [deltaE] of every one of them is computed by
    [calculateDeltaE] on the pre-paint state [s], so a flip accepted earlier
    in the same call is not seen by a later cell (the policy of the sweep);
    the accepted flips are applied to a copy of the pre-paint lattice, which
    becomes the lattice when the call ends. *)
Theorem flipSpinsInRadius_snapshot (exp : Q -> Q) (rand : nat -> Q)
    (s : State) (centerX centerY radius : Q) (n : nat) :
  lattice s ->
  exists (log : list Trial) (n' : nat),
    flipSpinsInRadius exp rand s centerX centerY radius n
    = Some ((setGrid (replay (grid s) log) s, log), n')
    /\ site <$> log
       = members (drawMode s) centerX centerY radius
           (box_cells (paint_xs s centerX radius) (paint_ys s centerY radius))
    /\ Forall (on_snapshot s) log.
Proof. apply flipSpinsInRadius_run. Qed.

(** ** Initial lattices *)

Lemma replicateM_run {A : Type} (P : A -> Prop) (m : M A) (k : nat) :
  (forall n, exists a n', m n = Some (a, n') /\ P a) ->
  forall n, exists l n', replicateM k m n = Some (l, n')
                         /\ length l = k /\ Forall P l.
Proof.
  intros Hm. induction k as [|k IH]; intros n; simpl.
  - exists [], n. by repeat split.
  - destruct (Hm n) as (a & n1 & Ha & HP).
    destruct (IH n1) as (l & n2 & Hl & Hlen & Hall).
    exists (a :: l), n2. unfold bind. rewrite Ha, Hl. unfold ret.
    split; [done|]. split; [simpl; lia|by constructor].
Qed.

Lemma uniform_grid_square (n v : Z) : 0 <= n -> square n (uniform_grid n v).
Proof.
  intros Hn. unfold uniform_grid, square, js_length.
  rewrite length_replicate. split; [lia|].
  apply Forall_replicate. rewrite length_replicate. lia.
Qed.

Lemma uniform_grid_spins (n v : Z) :
  v = 1 \/ v = -1 -> spins (uniform_grid n v).
Proof.
  intros Hv. unfold uniform_grid, spins. by do 2 apply Forall_replicate.
Qed.

Lemma checkerboard_grid_square (n : Z) :
  0 <= n -> square n (checkerboard_grid n).
Proof.
  intros Hn. unfold checkerboard_grid, square, js_length.
  rewrite length_fmap, length_seqZ. split; [lia|].
  apply Forall_fmap, Forall_forall. intros y _. simpl.
  rewrite length_fmap, length_seqZ. lia.
Qed.

Lemma checkerboard_grid_spins (n : Z) : spins (checkerboard_grid n).
Proof.
  unfold checkerboard_grid, spins.
  apply Forall_fmap, Forall_forall. intros y _. simpl.
  apply Forall_fmap, Forall_forall. intros x _. simpl.
  unfold checker. destruct (_ =? _); lia.
Qed.

Section Initialize.

Variable rand : nat -> Q.

Lemma random_spin_run (n : nat) :
  exists a n',
    (let! u := Math_random rand in
     ret (if Qlt_bool u (1 # 2) then 1 else -1)) n = Some (a, n')
    /\ (a = 1 \/ a = -1).
Proof.
  eexists _, _. unfold bind, Math_random, ret. split; [done|].
  destruct (Qlt_bool _ _); lia.
Qed.

(** [initializeGrid] runs to its end and installs a [size c] x [size c]
    lattice of spins: for the three fixed patterns, the lattice shown. *)
Lemma initializeGrid_run (c : State) (pattern : PatternOrDefault) (s : State)
    (n : nat) :
  0 <= size c ->
  let p := match pattern with Given p => p | Default => initialPattern c end in
  exists (g : list (list Z)) (n' : nat),
    initializeGrid rand c pattern s n = Some (initialized g s, n')
    /\ square (size c) g /\ spins g
    /\ match p with
       | Positive => g = uniform_grid (size c) 1
       | Negative => g = uniform_grid (size c) (-1)
       | Checkerboard => g = checkerboard_grid (size c)
       | Random => True
       end.
Proof.
  intros Hn p. unfold initializeGrid. fold p. destruct p.
  - exists (uniform_grid (size c) 1), n. unfold bind, ret.
    split; [done|]. split; [by apply uniform_grid_square|].
    split; [apply uniform_grid_spins; lia|done].
  - exists (uniform_grid (size c) (-1)), n. unfold bind, ret.
    split; [done|]. split; [by apply uniform_grid_square|].
    split; [apply uniform_grid_spins; lia|done].
  - exists (checkerboard_grid (size c)), n. unfold bind, ret.
    split; [done|]. split; [by apply checkerboard_grid_square|].
    split; [apply checkerboard_grid_spins|done].
  - destruct (replicateM_run
                (fun row : list Z => length row = Z.to_nat (size c)
                                     /\ Forall (fun v => v = 1 \/ v = -1) row)
                (replicateM (Z.to_nat (size c))
                   (let! u := Math_random rand in
                    ret (if Qlt_bool u (1 # 2) then 1 else -1)))
                (Z.to_nat (size c))) with (n := n)
      as (g & n' & Hg & Hlen & Hall).
    { intros m.
      destruct (replicateM_run (fun v => v = 1 \/ v = -1)
                  (let! u := Math_random rand in
                   ret (if Qlt_bool u (1 # 2) then 1 else -1))
                  (Z.to_nat (size c)) random_spin_run m)
        as (row & m' & Hrow & Hl & Hs).
      by exists row, m'. }
    exists g, n'. unfold bind at 1. rewrite Hg. unfold ret.
    split; [done|]. split; [|split; [|done]].
    + unfold square, js_length. split; [lia|].
      eapply Forall_impl; [exact Hall|]. simpl. intros row [Hr _]. lia.
    + eapply Forall_impl; [exact Hall|]. simpl. by intros row [_ Hr].
Qed.

End Initialize.

Lemma lattice_setGrid (s : State) (g : list (list Z)) :
  lattice s -> square (size s) g -> lattice (setGrid g s).
Proof. intros (Hi & Hn & _ & _) [Hl Hr]. by repeat split. Qed.

Lemma lattice_initialized (s : State) (g : list (list Z)) :
  0 < size s -> square (size s) g -> lattice (initialized g s).
Proof. intros Hn [Hl Hr]. by repeat split. Qed.

(** C7.  Well-formedness is established and kept.  For every size N in
    [10, 69] and every pattern, [initializeGrid] builds a lattice of exactly
    N rows of N cells, every cell +1 or -1, and marks it initialized.  A
    sweep and a paint of an initialized N x N lattice of spins leave an
    initialized N x N lattice of spins, with [size] unchanged. *)
Theorem lattice_established_and_kept (exp : Q -> Q) (rand : nat -> Q) :
  (forall (c : State) (pattern : PatternOrDefault) (s : State) (n : nat),
     10 <= size c <= 69 ->
     exists (s' : State) (n' : nat),
       initializeGrid rand c pattern s n = Some (s', n')
       /\ square (size c) (grid s') /\ spins (grid s')
       /\ gridInitialized s' = true)
  /\ (forall (s : State) (n : nat),
        lattice s -> spins (grid s) -> (forall k, (0 <= rand k < 1)%Q) ->
        exists (s' : State) (log : list Trial) (n' : nat),
          evolveSystem exp rand s n = Some ((s', log), n')
          /\ lattice s' /\ size s' = size s /\ spins (grid s'))
  /\ (forall (s : State) (centerX centerY radius : Q) (n : nat),
        lattice s -> spins (grid s) ->
        exists (s' : State) (log : list Trial) (n' : nat),
          flipSpinsInRadius exp rand s centerX centerY radius n
          = Some ((s', log), n')
          /\ lattice s' /\ size s' = size s /\ spins (grid s')).
Proof.
  split; [|split].
  - intros c pattern s n Hn.
    destruct (initializeGrid_run rand c pattern s n)
      as (g & n' & Hrun & Hsq & Hsp & _); [lia|].
    by exists (initialized g s), n'.
  - intros s n Hl Hs Hr.
    destruct (evolveSystem_run exp rand s n Hl Hr)
      as (log & ks & n' & Hrun & _).
    exists (setGrid (replay (grid s) log) s), log, n'.
    split; [done|]. split; [|split; [done|]].
    + by apply lattice_setGrid, replay_square, lattice_square.
    + by apply replay_spins.
  - intros s centerX centerY radius n Hl Hs.
    destruct (flipSpinsInRadius_run exp rand s centerX centerY radius n Hl)
      as (log & n' & Hrun & _).
    exists (setGrid (replay (grid s) log) s), log, n'.
    split; [done|]. split; [|split; [done|]].
    + by apply lattice_setGrid, replay_square, lattice_square.
    + by apply replay_spins.
Qed.

(** ** Sums of spins *)

Lemma sumZ_app (l1 l2 : list Z) : sumZ (l1 ++ l2) = sumZ l1 + sumZ l2.
Proof. unfold sumZ. induction l1 as [|a l1 IH]; simpl; lia. Qed.

Lemma reduce_sum (l : list Z) (a : Z) :
  foldl (fun sum spin => sum + spin) a l = a + sumZ l.
Proof.
  revert a. induction l as [|v l IH]; intros a; simpl; [lia|].
  rewrite IH. unfold sumZ. simpl. lia.
Qed.

(** [grid.flat().reduce((sum, spin) => sum + spin, 0)] is the sum of the
    spins. *)
Lemma flat_reduce_sum (g : list (list Z)) :
  foldl (fun sum spin => sum + spin) 0 (concat g) = sum_spins g.
Proof.
  rewrite reduce_sum, Z.add_0_l. unfold sum_spins.
  induction g as [|row g IH]; [done|].
  change (concat (row :: g)) with (row ++ concat g).
  change (sumZ <$> row :: g) with (sumZ row :: (sumZ <$> g)).
  rewrite sumZ_app, IH. reflexivity.
Qed.

Lemma sumZ_cons (a : Z) (l : list Z) : sumZ (a :: l) = a + sumZ l.
Proof. reflexivity. Qed.

Lemma js_length_cons {A : Type} (a : A) (l : list A) :
  js_length (a :: l) = 1 + js_length l.
Proof. unfold js_length. rewrite length_cons. lia. Qed.

Lemma sumZ_bound (l : list Z) :
  Forall (fun v => v = 1 \/ v = -1) l -> - js_length l <= sumZ l <= js_length l.
Proof.
  induction 1 as [|v l Hv _ IH]; [done|].
  rewrite sumZ_cons, js_length_cons. lia.
Qed.

Lemma sum_spins_bound (n : Z) (g : list (list Z)) :
  square n g -> spins g -> - (n * n) <= sum_spins g <= n * n.
Proof.
  intros [Hl Hr] Hs. unfold sum_spins.
  assert (H : - (js_length g * n) <= sumZ (sumZ <$> g) <= js_length g * n).
  { clear Hl. induction g as [|row g IH]; [done|].
    apply Forall_cons in Hr as [Hrow Hr'].
    apply Forall_cons in Hs as [Hsrow Hs'].
    pose proof (sumZ_bound row Hsrow) as Hb. rewrite Hrow in Hb.
    specialize (IH Hr' Hs').
    rewrite fmap_cons, sumZ_cons, js_length_cons. lia. }
  by rewrite Hl in H.
Qed.

Lemma sumZ_replicate (k : nat) (v : Z) : sumZ (replicate k v) = Z.of_nat k * v.
Proof. unfold sumZ. induction k as [|k IH]; simpl; lia. Qed.

Lemma sum_spins_uniform (n v : Z) :
  0 <= n -> sum_spins (uniform_grid n v) = n * n * v.
Proof.
  intros Hn. unfold sum_spins, uniform_grid.
  rewrite fmap_replicate, !sumZ_replicate, !Z2Nat.id by done. ring.
Qed.

Lemma checker_even (x y : Z) :
  0 <= x -> 0 <= y -> checker x y = if Z.even (x + y) then 1 else -1.
Proof.
  intros Hx Hy. unfold checker.
  rewrite Z.rem_mod_nonneg by lia. rewrite Zmod_even.
  by destruct (Z.even (x + y)).
Qed.

Lemma sumZ_fmap_snoc (f : Z -> Z) (l : list Z) (a : Z) :
  sumZ (f <$> l ++ [a]) = sumZ (f <$> l) + f a.
Proof. rewrite fmap_app, sumZ_app. unfold sumZ. simpl. lia. Qed.

(** An alternating row of [k] cells sums to 0 or to its first cell. *)
Lemma sumZ_checker_row (y : Z) (k : nat) :
  0 <= y ->
  sumZ ((fun x => checker x y) <$> seqZ 0 (Z.of_nat k))
  = if Z.even (Z.of_nat k) then 0 else if Z.even y then 1 else -1.
Proof.
  intros Hy. induction k as [|k IH]; [done|].
  rewrite seqZ_S, sumZ_fmap_snoc, IH.
  rewrite checker_even by lia.
  rewrite Nat2Z.inj_succ, Z.even_succ, <- Z.negb_even.
  rewrite Z.add_0_l, Z.even_add.
  destruct (Z.even (Z.of_nat k)), (Z.even y); done.
Qed.

Lemma sumZ_checker_column (k : nat) :
  sumZ ((fun y => checker y 0) <$> seqZ 0 (Z.of_nat k))
  = if Z.even (Z.of_nat k) then 0 else 1.
Proof.
  induction k as [|k IH]; [done|].
  rewrite seqZ_S, sumZ_fmap_snoc, IH.
  rewrite checker_even by lia.
  rewrite Nat2Z.inj_succ, Z.even_succ, <- Z.negb_even.
  rewrite Z.add_0_l, Z.add_0_r.
  destruct (Z.even (Z.of_nat k)); done.
Qed.

Lemma sum_spins_checkerboard (n : Z) :
  0 <= n ->
  sum_spins (checkerboard_grid n) = if Z.even n then 0 else 1.
Proof.
  intros Hn. unfold sum_spins, checkerboard_grid.
  rewrite <- list_fmap_compose.
  destruct (Z.even n) eqn:He.
  - assert (Hrows : (sumZ ∘ (fun y => (fun x => checker x y) <$> seqZ 0 n))
                      <$> seqZ 0 n
                    = (fun _ => 0) <$> seqZ 0 n).
    { apply Forall_fmap_ext, Forall_seqZ. intros y Hy. simpl.
      rewrite <- (Z2Nat.id n) by done. rewrite sumZ_checker_row by lia.
      rewrite Z2Nat.id by done. by rewrite He. }
    rewrite Hrows. clear.
    induction (seqZ 0 n) as [|a l IH]; [done|].
    by rewrite fmap_cons, sumZ_cons, IH.
  - assert (Hrows : (sumZ ∘ (fun y => (fun x => checker x y) <$> seqZ 0 n))
                      <$> seqZ 0 n
                    = (fun y => checker y 0) <$> seqZ 0 n).
    { apply Forall_fmap_ext, Forall_seqZ. intros y Hy. simpl.
      rewrite <- (Z2Nat.id n) at 1 by done. rewrite sumZ_checker_row by lia.
      rewrite Z2Nat.id by done. rewrite He.
      rewrite checker_even by lia. by rewrite Z.add_0_r. }
    rewrite Hrows. rewrite <- (Z2Nat.id n) at 1 by done.
    rewrite sumZ_checker_column, Z2Nat.id by done. by rewrite He.
Qed.

(** ** The magnetization *)

Lemma percent_bound (a d : Z) :
  0 < d -> - d <= a <= d -> (-100 <= percent a d <= 100)%Q.
Proof.
  intros Hd [Hlo Hhi]. unfold percent.
  assert (Hq : (0 < inject_Z d)%Q)
    by (change 0%Q with (inject_Z 0); by rewrite <- Zlt_Qlt).
  assert (H1 : (inject_Z a / inject_Z d <= 1)%Q).
  { apply Qle_shift_div_r; [done|]. rewrite Qmult_1_l. by rewrite <- Zle_Qle. }
  assert (H2 : (-1 <= inject_Z a / inject_Z d)%Q).
  { apply Qle_shift_div_l; [done|].
    assert (Heq : (-1 * inject_Z d == inject_Z (- d))%Q)
      by (rewrite inject_Z_opp; ring).
    rewrite Heq. by rewrite <- Zle_Qle. }
  split; lra.
Qed.

Lemma percent_all (d v : Z) :
  0 < d -> (percent (d * v) d == inject_Z v * 100)%Q.
Proof.
  intros Hd. unfold percent. rewrite inject_Z_mult.
  assert (Hq : ~ (inject_Z d == 0)%Q).
  { change 0%Q with (inject_Z 0). rewrite inject_Z_injective. lia. }
  by field.
Qed.

Lemma percent_none (d : Z) : (percent 0 d == 0)%Q.
Proof. unfold percent. change (inject_Z 0) with 0%Q. unfold Qdiv. ring. Qed.

Lemma percent_one (d : Z) :
  0 < d -> (percent 1 d == 100 / inject_Z d)%Q
           /\ (100 <= d -> (0 < percent 1 d <= 1)%Q).
Proof.
  intros Hd. unfold percent.
  assert (Hq : (0 < inject_Z d)%Q)
    by (change 0%Q with (inject_Z 0); by rewrite <- Zlt_Qlt).
  assert (Hne : ~ (inject_Z d == 0)%Q) by lra.
  assert (Heq : (inject_Z 1 / inject_Z d * 100 == 100 / inject_Z d)%Q).
  { change (inject_Z 1) with 1%Q. by field. }
  split; [done|]. intros Hbig. rewrite Heq. split.
  - apply Qlt_shift_div_l; [done|]. lra.
  - apply Qle_shift_div_r; [done|]. rewrite Qmult_1_l.
    change 100%Q with (inject_Z 100). by rewrite <- Zle_Qle.
Qed.

Lemma magnetizationEffect_lattice (s : State) :
  lattice s ->
  let m := percent (sum_spins (grid s)) (size s * size s) in
  magnetizationEffect s
  = setMagnetizationHistory (magnetizationHistory s ++ [m])
      (setMagnetization m s).
Proof.
  intros Hl m. unfold magnetizationEffect.
  rewrite (lattice_ready s Hl), flat_reduce_sum. reflexivity.
Qed.

(** C8.  On an initialized lattice the magnetization effect stores and
    appends to the history [(sum of all spins / N^2) * 100], which lies in
    [-100, 100] when every cell is +1 or -1.  Right after an initialization
    the value is 100 for the all-positive pattern, -100 for the all-negative
    one, and for the checkerboard 0 when N is even and [100 / N^2] (one
    spin in excess, at most 1 percent for N >= 10) when N is odd. *)
Theorem magnetization_statistic (rand : nat -> Q) :
  (forall s : State,
     lattice s ->
     let m := (inject_Z (sum_spins (grid s)) / inject_Z (size s * size s)
               * 100)%Q in
     magnetizationEffect s
     = setMagnetizationHistory (magnetizationHistory s ++ [m])
         (setMagnetization m s)
     /\ (spins (grid s) -> (-100 <= m <= 100)%Q))
  /\ (forall (c s : State) (n : nat),
        0 < size c -> size s = size c ->
        (exists (s' : State) (n' : nat),
           initializeGrid rand c (Given Positive) s n = Some (s', n')
           /\ (magnetization (magnetizationEffect s') == 100)%Q)
        /\ (exists (s' : State) (n' : nat),
              initializeGrid rand c (Given Negative) s n = Some (s', n')
              /\ (magnetization (magnetizationEffect s') == -100)%Q)
        /\ (exists (s' : State) (n' : nat),
              initializeGrid rand c (Given Checkerboard) s n = Some (s', n')
              /\ (Z.even (size c) = true ->
                  (magnetization (magnetizationEffect s') == 0)%Q)
              /\ (Z.even (size c) = false ->
                  (magnetization (magnetizationEffect s')
                   == 100 / inject_Z (size c * size c))%Q
                  /\ (10 <= size c ->
                      (0 < magnetization (magnetizationEffect s') <= 1)%Q)))).
Proof.
  split.
  - intros s Hl m. split; [by apply magnetizationEffect_lattice|].
    intros Hs. apply percent_bound.
    + assert (0 < size s) by apply Hl. nia.
    + by apply sum_spins_bound; [apply lattice_square|].
  - intros c s n Hn Hsize.
    assert (Hd : 0 < size c * size c) by nia.
    assert (Hinit : forall p,
      exists g n',
        initializeGrid rand c (Given p) s n = Some (initialized g s, n')
        /\ lattice (initialized g s)
        /\ magnetization (magnetizationEffect (initialized g s))
           = percent (sum_spins g) (size c * size c)
        /\ match p with
           | Positive => g = uniform_grid (size c) 1
           | Negative => g = uniform_grid (size c) (-1)
           | Checkerboard => g = checkerboard_grid (size c)
           | Random => True
           end).
    { intros p.
      destruct (initializeGrid_run rand c (Given p) s n)
        as (g & n' & Hrun & Hsq & Hsp & Hg); [lia|].
      exists g, n'. split; [done|].
      assert (Hl : lattice (initialized g s)).
      { apply lattice_initialized; by rewrite Hsize. }
      split; [done|]. split; [|done].
      rewrite (magnetizationEffect_lattice _ Hl). simpl. by rewrite Hsize. }
    split; [|split].
    + destruct (Hinit Positive) as (g & n' & Hrun & _ & Hm & ->).
      eexists _, _. split; [exact Hrun|]. rewrite Hm.
      rewrite sum_spins_uniform by lia. by rewrite percent_all.
    + destruct (Hinit Negative) as (g & n' & Hrun & _ & Hm & ->).
      eexists _, _. split; [exact Hrun|]. rewrite Hm.
      rewrite sum_spins_uniform by lia. by rewrite percent_all.
    + destruct (Hinit Checkerboard) as (g & n' & Hrun & _ & Hm & ->).
      eexists _, _. split; [exact Hrun|]. rewrite Hm.
      rewrite sum_spins_checkerboard by lia. split.
      * intros ->. apply percent_none.
      * intros ->. destruct (percent_one (size c * size c) Hd) as [Heq Hsmall].
        split; [done|]. intros Hbig. apply Hsmall. nia.
Qed.

(** ** The guard of calculateDeltaE *)

Lemma notReady_cases (s : State) :
  gridInitialized s = false
  \/ js_length (grid s) = 0
  \/ js_length (grid s) <> size s
  \/ (exists row0,
        js_index (grid s) 0 = Some row0 /\ js_length row0 <> size s) ->
  notReady s = true.
Proof.
  unfold notReady. intros [H|[H|[H|(row0 & H0 & H)]]].
  - by rewrite H.
  - rewrite H. simpl. by rewrite orb_true_r.
  - apply Z.eqb_neq in H. rewrite H. simpl. by rewrite !orb_true_r.
  - rewrite H0. apply Z.eqb_neq in H. rewrite H. simpl. by rewrite !orb_true_r.
Qed.






(** ** The controller *)

Lemma Pattern_eqb_eq (p q : Pattern) : Pattern_eqb p q = true <-> p = q.
Proof. destruct p, q; simpl; split; congruence. Qed.

Lemma Pattern_eqb_neq (p q : Pattern) : Pattern_eqb p q = false <-> p <> q.
Proof. destruct p, q; simpl; split; congruence. Qed.

(** [initializeGrid] runs to its end whatever the size is. *)
Lemma initializeGrid_total (rand : nat -> Q) (c : State)
    (pattern : PatternOrDefault) (s : State) (n : nat) :
  exists (g : list (list Z)) (n' : nat),
    initializeGrid rand c pattern s n = Some (initialized g s, n')
    /\ (0 <= size c -> square (size c) g /\ spins g).
Proof.
  destruct (Z_le_gt_dec 0 (size c)) as [Hn|Hn].
  - destruct (initializeGrid_run rand c pattern s n Hn)
      as (g & n' & Hrun & Hsq & Hsp & _).
    by exists g, n'.
  - unfold initializeGrid.
    replace (Z.to_nat (size c)) with O by lia. simpl.
    destruct (match pattern with
              | Given p => p
              | Default => initialPattern c
              end);
      eexists _, _; (split; [reflexivity|lia]).
Qed.

(** What the effects that depend on [initializeGrid] do after a render. *)
Lemma initEffects_unchanged (rand : nat -> Q) (prev c : State) (n : nat) :
  size prev = size c -> initialPattern prev = initialPattern c ->
  initEffects rand prev c n = Some (c, n).
Proof.
  intros Hs Hp. unfold initEffects, initializeGrid_changed.
  rewrite Hs, Hp, Z.eqb_refl. rewrite (proj2 (Pattern_eqb_eq _ _) eq_refl).
  reflexivity.
Qed.

Lemma initEffects_changed (rand : nat -> Q) (prev c : State) (n : nat) :
  size prev <> size c \/ initialPattern prev <> initialPattern c ->
  exists (g : list (list Z)) (n' : nat),
    initEffects rand prev c n
    = Some (initialized g (setIsPlaying false c), n')
    /\ (0 <= size c -> square (size c) g /\ spins g).
Proof.
  intros Hch. unfold initEffects.
  assert (Hc : initializeGrid_changed prev c = true).
  { unfold initializeGrid_changed. destruct Hch as [H|H].
    - apply Z.eqb_neq in H. by rewrite H.
    - apply Pattern_eqb_neq in H. rewrite H. by rewrite orb_true_r. }
  rewrite Hc, orb_true_r.
  destruct (initializeGrid_total rand c Default c n) as (g1 & n1 & Hrun1 & _).
  unfold bind. rewrite Hrun1.
  destruct (initializeGrid_total rand c Default
              (setIsPlaying false (initialized g1 c)) n1)
    as (g2 & n2 & Hrun2 & Hg2).
  exists g2, n2. by rewrite Hrun2.
Qed.

(** C9.  [handleReset] runs to its end and leaves N = 30, T = 2, J = 1,
    H = 0, annealing rate 0, pattern random, sweep interval 100 (and draw
    mode circle), the simulation paused and the magnetization history
    empty.  After the effects of the render it causes, these values still
    hold and the lattice is an initialized 30 x 30 lattice of spins. *)
Theorem handleReset_defaults (rand : nat -> Q) (c : State) (n : nat) :
  (exists (s' : State) (n' : nat),
     handleReset rand c n = Some (s', n')
     /\ size s' = 30 /\ temperature s' = 2%Q /\ coupling s' = 1%Q
     /\ externalField s' = 0%Q /\ annealingRate s' = 0%Q
     /\ initialPattern s' = Random /\ simulationSpeed s' = 100
     /\ drawMode s' = Circle
     /\ isPlaying s' = false /\ magnetizationHistory s' = [])
  /\ (exists (s' : State) (n' : nat),
        reset rand c n = Some (s', n')
        /\ size s' = 30 /\ temperature s' = 2%Q /\ coupling s' = 1%Q
        /\ externalField s' = 0%Q /\ annealingRate s' = 0%Q
        /\ initialPattern s' = Random /\ simulationSpeed s' = 100
        /\ drawMode s' = Circle
        /\ isPlaying s' = false /\ magnetizationHistory s' = []
        /\ lattice s' /\ spins (grid s')).
Proof.
  unfold reset, handleReset.
  match goal with
  | |- context [initializeGrid rand c (Given Random) ?p] => set (pending := p)
  end.
  destruct (initializeGrid_total rand c (Given Random) pending n)
    as (g & n1 & Hrun & Hg).
  split.
  - exists (initialized g pending), n1. split; [done|]. by repeat split.
  - unfold bind. rewrite Hrun.
    destruct (decide (size c = 30 /\ initialPattern c = Random))
      as [[Hs Hp]|Hch].
    + rewrite initEffects_unchanged by done.
      exists (initialized g pending), n1. split; [reflexivity|].
      do 10 (split; [reflexivity|]).
      destruct Hg as [Hsq Hsp]; [lia|]. rewrite Hs in Hsq.
      split; [|exact Hsp].
      apply lattice_initialized; [change (0 < 30); lia|exact Hsq].
    + destruct (initEffects_changed rand c (initialized g pending) n1)
        as (g2 & n2 & Hrun2 & Hg2).
      { simpl. destruct (decide (size c = 30)); [|by left].
        right. intros Hp. apply Hch. by split. }
      rewrite Hrun2. eexists _, _. split; [reflexivity|].
      do 10 (split; [reflexivity|]).
      change (size (initialized g pending)) with 30 in Hg2.
      destruct Hg2 as [Hsq Hsp]; [lia|].
      split; [|exact Hsp].
      apply lattice_initialized; [change (0 < 30); lia|exact Hsq].
Qed.

(** * The statements at concrete inputs *)

Lemma calculateDeltaE_formula_witness :
  lattice example_state
  /\ calculateDeltaE example_state 0 0
     = (2 * coupling example_state * inject_Z (spin example_grid 0 0)
          * inject_Z (spin example_grid 0 9 + spin example_grid 0 1
                      + spin example_grid 9 0 + spin example_grid 1 0)
        + 2 * externalField example_state * inject_Z (spin example_grid 0 0))%Q.
Proof.
  assert (Hl : lattice example_state) by by_computation.
  split; [exact Hl|].
  apply (calculateDeltaE_formula example_state 0 0 Hl); simpl; lia.
Defined.

Lemma acceptance_rule_witness :
  lattice example_state
  /\ (exists (flip : bool) (n' : nat),
        sweepTrial (fun _ => 1 # 2) (fun _ => 1 # 4) example_state
          (mkWork example_grid [] []) 0%nat
        = Some (if flip
                then accepted (mkWork example_grid [] []) 2 2
                       (calculateDeltaE example_state 2 2)
                else rejected (mkWork example_grid [] []) 2 2
                       (calculateDeltaE example_state 2 2), n')
        /\ (flip = true
            <-> metropolis (fun _ => 1 # 2) (calculateDeltaE example_state 2 2)
                  (temperature example_state) (1 # 4))
        /\ ((calculateDeltaE example_state 2 2 <= 0)%Q -> n' = 2%nat)
        /\ ((0 < calculateDeltaE example_state 2 2)%Q -> n' = 3%nat)).
Proof.
  assert (Hl : lattice example_state) by by_computation.
  assert (Hw : square (size example_state)
                 (newGrid (mkWork example_grid [] [])))
    by by_computation.
  split; [exact Hl|].
  apply (proj1 (acceptance_rule (fun _ => 1 # 2) (fun _ => 1 # 4) example_state
                  (mkWork example_grid [] []) 0%nat Hl Hw)); by vm_compute.
Defined.

Lemma evolveSystem_sweep_witness :
  lattice example_state
  /\ exists (log : list Trial) (ks : list nat) (n' : nat),
       evolveSystem (fun _ => 1 # 2) (fun _ => 1 # 4) example_state 0%nat
       = Some ((setGrid (replay (grid example_state) log) example_state, log),
               n')
       /\ js_length log = size example_state * size example_state
       /\ Forall2 (site_drawn (fun _ => 1 # 4) example_state) ks log
       /\ fresh_pairs 0 n' ks
       /\ Forall (on_snapshot example_state) log.
Proof.
  assert (Hl : lattice example_state) by by_computation.
  split; [exact Hl|].
  apply (evolveSystem_sweep (fun _ => 1 # 2) (fun _ => 1 # 4) example_state
           0%nat Hl).
  intros k. by vm_compute.
Defined.

Lemma flipSpinsInRadius_region_witness :
  lattice example_state
  /\ exists (log : list Trial) (n' : nat),
       flipSpinsInRadius (fun _ => 1 # 2) (fun _ => 1 # 4) example_state
         (1 # 2) 0 1 0%nat
       = Some ((setGrid (replay (grid example_state) log) example_state, log),
               n')
       /\ Forall (fun t =>
            inRegion (drawMode example_state) (1 # 2) 0 1 (t_x t) (t_y t)
            /\ (Z.max 0 (Qfloor ((1 # 2) - 1)) <= t_x t
                /\ t_x t <= Z.min (size example_state - 1)
                                  (Qceiling ((1 # 2) + 1)))
            /\ (Z.max 0 (Qfloor (0 - 1)) <= t_y t
                /\ t_y t <= Z.min (size example_state - 1) (Qceiling (0 + 1)))
            /\ (0 <= t_x t <= size example_state - 1
                /\ 0 <= t_y t <= size example_state - 1)) log
       /\ (forall x y : Z,
             ~ inRegion (drawMode example_state) (1 # 2) 0 1 x y ->
             cell (replay (grid example_state) log) x y
             = cell (grid example_state) x y).
Proof.
  assert (Hl : lattice example_state) by by_computation.
  split; [exact Hl|].
  apply (flipSpinsInRadius_region (fun _ => 1 # 2) (fun _ => 1 # 4)
           example_state (1 # 2) 0 1 0%nat Hl).
Defined.

Lemma flipSpinsInRadius_snapshot_witness :
  lattice example_state
  /\ exists (log : list Trial) (n' : nat),
       flipSpinsInRadius (fun _ => 1 # 2) (fun _ => 1 # 4) example_state
         (1 # 2) 0 1 0%nat
       = Some ((setGrid (replay (grid example_state) log) example_state, log),
               n')
       /\ site <$> log
          = members (drawMode example_state) (1 # 2) 0 1
              (box_cells (paint_xs example_state (1 # 2) 1)
                 (paint_ys example_state 0 1))
       /\ Forall (on_snapshot example_state) log.
Proof.
  assert (Hl : lattice example_state) by by_computation.
  split; [exact Hl|].
  apply (flipSpinsInRadius_snapshot (fun _ => 1 # 2) (fun _ => 1 # 4)
           example_state (1 # 2) 0 1 0%nat Hl).
Defined.

Lemma lattice_established_and_kept_witness :
  (10 <= size example_state <= 69
   /\ exists (s' : State) (n' : nat),
        initializeGrid (fun _ => 1 # 4) example_state (Given Checkerboard)
          example_state 0%nat = Some (s', n')
        /\ square (size example_state) (grid s') /\ spins (grid s')
        /\ gridInitialized s' = true)
  /\ (lattice example_state /\ spins (grid example_state)
      /\ exists (s' : State) (log : list Trial) (n' : nat),
           evolveSystem (fun _ => 1 # 2) (fun _ => 1 # 4) example_state 0%nat
           = Some ((s', log), n')
           /\ lattice s' /\ size s' = size example_state /\ spins (grid s'))
  /\ (exists (s' : State) (log : list Trial) (n' : nat),
        flipSpinsInRadius (fun _ => 1 # 2) (fun _ => 1 # 4) example_state
          (1 # 2) 0 1 0%nat = Some ((s', log), n')
        /\ lattice s' /\ size s' = size example_state /\ spins (grid s')).
Proof.
  assert (Hl : lattice example_state) by by_computation.
  assert (Hs : spins (grid example_state)) by by_computation.
  assert (Hn : 10 <= size example_state <= 69) by (simpl; lia).
  destruct (lattice_established_and_kept (fun _ => 1 # 2) (fun _ => 1 # 4))
    as (Hinit & Hsweep & Hpaint).
  split; [split; [exact Hn|]|split; [split; [exact Hl|split; [exact Hs|]]|]].
  - apply Hinit. exact Hn.
  - apply Hsweep; [exact Hl|exact Hs|]. intros k. by vm_compute.
  - apply Hpaint; [exact Hl|exact Hs].
Defined.

Lemma magnetization_statistic_witness :
  (lattice example_state /\ spins (grid example_state)
   /\ (-100 <= inject_Z (sum_spins (grid example_state))
               / inject_Z (size example_state * size example_state) * 100
       <= 100)%Q)
  /\ (0 < size example_state
      /\ exists (s' : State) (n' : nat),
           initializeGrid (fun _ => 1 # 4) example_state (Given Positive)
             example_state 0%nat = Some (s', n')
           /\ (magnetization (magnetizationEffect s') == 100)%Q)
  /\ (Z.even (size (setSize 11 example_state)) = false
      /\ 10 <= size (setSize 11 example_state)
      /\ exists (s' : State) (n' : nat),
           initializeGrid (fun _ => 1 # 4) (setSize 11 example_state)
             (Given Checkerboard) (setSize 11 example_state) 0%nat
           = Some (s', n')
           /\ (0 < magnetization (magnetizationEffect s') <= 1)%Q).
Proof.
  assert (Hl : lattice example_state) by by_computation.
  assert (Hs : spins (grid example_state)) by by_computation.
  assert (Hn : 0 < size example_state) by (simpl; lia).
  assert (Hodd : Z.even (size (setSize 11 example_state)) = false)
    by reflexivity.
  assert (Hbig : 10 <= size (setSize 11 example_state)) by (simpl; lia).
  destruct (magnetization_statistic (fun _ => 1 # 4)) as [Hstat Hinit].
  split; [|split].
  - split; [exact Hl|]. split; [exact Hs|].
    exact (proj2 (Hstat example_state Hl) Hs).
  - split; [exact Hn|].
    exact (proj1 (Hinit example_state example_state 0%nat Hn eq_refl)).
  - split; [exact Hodd|]. split; [exact Hbig|].
    destruct (Hinit (setSize 11 example_state) (setSize 11 example_state)
                0%nat) as (_ & _ & s' & n' & Hrun & _ & Hsmall);
      [simpl; lia|reflexivity|].
    exists s', n'. split; [exact Hrun|].
    exact (proj2 (Hsmall Hodd) Hbig).
Defined.


(** * Further properties of the engine *)

(** ** Flipping twice *)

Lemma flipped_flipped (g : list (list Z)) (x y : Z) :
  flipped (flipped g x y) x y = g.
Proof.
  unfold flipped. rewrite list_alter_alter_eq. apply list_alter_id.
  intros row. simpl. rewrite list_alter_alter_eq. apply list_alter_id.
  intros v. simpl. lia.
Qed.

Lemma cell_Some_nonneg (g : list (list Z)) (x y v : Z) :
  cell g x y = Some v -> 0 <= x /\ 0 <= y.
Proof.
  unfold cell. destruct (js_index g y) as [row|] eqn:Hrow; [|done].
  intros Hx. apply js_index_Some_range in Hx, Hrow. lia.
Qed.

(** X1.  [newGrid[y][x] *= -1] done twice on a stored cell gives the lattice
    back: two accepted candidates at one site cancel. *)
Theorem flipAt_involutive (g g' : list (list Z)) (x y : Z) :
  flipAt g x y = Some g' -> flipAt g' x y = Some g.
Proof.
  unfold flipAt. destruct (cell g x y) as [v|] eqn:Hv; [|done].
  intros [= <-]. fold (flipped g x y).
  destruct (cell_Some_nonneg _ _ _ _ Hv) as [Hx Hy].
  rewrite cell_flipped_eq, Hv by done. simpl.
  fold (flipped (flipped g x y) x y). by rewrite flipped_flipped.
Qed.

(** ** The lattice after a list of trials, site by site *)

Lemma hits_snoc (log : list Trial) (t : Trial) (x y : Z) :
  hits (log ++ [t]) x y
  = (hits log x y
     + if decide (t_flipped t = true /\ site t = (x, y)) then 1 else 0)%nat.
Proof.
  unfold hits. rewrite filter_app, length_app, filter_cons, filter_nil.
  by destruct (decide _).
Qed.

Lemma replay_parity (g : list (list Z)) (log : list Trial) (x y : Z) :
  Forall (fun t => 0 <= t_x t /\ 0 <= t_y t) log ->
  cell (replay g log) x y
  = (fun v => if Nat.even (hits log x y) then v else - v) <$> cell g x y.
Proof.
  induction log as [|t log IH] using rev_ind; intros Hlog.
  - simpl. by destruct (cell g x y).
  - apply Forall_app in Hlog as [Hlog Ht].
    apply Forall_singleton in Ht as [Hx Hy].
    rewrite replay_snoc, hits_snoc.
    destruct (t_flipped t) eqn:Hf.
    + destruct (decide (site t = (x, y))) as [Hs|Hs].
      * rewrite decide_True by done.
        unfold site in Hs. injection Hs as <- <-.
        rewrite cell_flipped_eq, IH by done.
        rewrite Nat.add_1_r, Nat.even_succ, <- Nat.negb_even.
        destruct (cell g (t_x t) (t_y t)) as [v|]; [|done]. simpl. f_equal.
        destruct (Nat.even _); simpl; lia.
      * rewrite decide_False by tauto. rewrite Nat.add_0_r.
        rewrite cell_flipped_ne; [by apply IH|done|done|].
        intros Heq. apply Hs. unfold site. by injection Heq as -> ->.
    + rewrite decide_False by (intros [? _]; done). rewrite Nat.add_0_r.
      by apply IH.
Qed.

(** A property of the loop state that every successful iteration keeps
    holds when the loop ends. *)
Lemma foldM_preserves {A B : Type} (P : B -> Prop) (f : B -> A -> M B) :
  (forall b a n b' n', P b -> f b a n = Some (b', n') -> P b') ->
  forall l b n b' n', P b -> foldM f l b n = Some (b', n') -> P b'.
Proof.
  intros Hstep l. induction l as [|a l IH]; intros b n b' n' Hb; simpl.
  - by intros [= <- <-].
  - unfold bind. destruct (f b a n) as [[b1 n1]|] eqn:Hf; [|done].
    apply IH. by eapply Hstep.
Qed.

Lemma decided_snoc (log : list Trial) (x y : Z) (deltaE : Q) (b : bool) :
  Forall decided log -> ((deltaE <= 0)%Q -> b = true) ->
  Forall decided (log ++ [mkTrial x y deltaE b]).
Proof.
  intros Hlog Hb. apply Forall_app. split; [done|]. by constructor.
Qed.

Section Decided.

Variable exp : Q -> Q.
Variable rand : nat -> Q.

Lemma negate_decided (w w' : Work) (x y : Z) (deltaE : Q) (n n' : nat) :
  Forall decided (trials w) ->
  negate w x y deltaE n = Some (w', n') ->
  Forall decided (trials w').
Proof.
  intros Hw. unfold negate, ret.
  destruct (flipAt _ _ _).
  - intros [= <- <-]. simpl. by apply decided_snoc.
  - destruct (js_index _ _); [|done]. intros [= <- <-]. simpl.
    by apply decided_snoc.
Qed.

Lemma sweepTrial_decided (s : State) (w w' : Work) (n n' : nat) :
  Forall decided (trials w) ->
  sweepTrial exp rand s w n = Some (w', n') ->
  Forall decided (trials w').
Proof.
  intros Hw. unfold sweepTrial, bind, Math_random.
  destruct (cell (grid s) _ _); [|by intros [= <- <-]].
  destruct (Qle_bool _ 0) eqn:Hle.
  - by apply negate_decided.
  - apply Qle_bool_false in Hle.
    destruct (Qlt_bool _ _).
    + by apply negate_decided.
    + unfold ret. intros [= <- <-]. simpl. apply decided_snoc; [done|].
      intros H. exfalso. by apply (Qlt_not_le _ _ Hle).
Qed.

Lemma paintCell_decided (s : State) (centerX centerY radius : Q) (x y : Z)
    (w w' : Work) (n n' : nat) :
  Forall decided (trials w) ->
  paintCell exp rand s centerX centerY radius y w x n = Some (w', n') ->
  Forall decided (trials w').
Proof.
  intros Hw. unfold paintCell, bind, Math_random.
  destruct (inShape _ _ _ _ _ _); [|by intros [= <- <-]].
  destruct (Qle_bool _ 0) eqn:Hle.
  - by apply negate_decided.
  - apply Qle_bool_false in Hle.
    destruct (Qlt_bool _ _).
    + by apply negate_decided.
    + unfold ret. intros [= <- <-]. simpl. apply decided_snoc; [done|].
      intros H. exfalso. by apply (Qlt_not_le _ _ Hle).
Qed.

Lemma evolveSystem_decided (s s' : State) (log : list Trial) (n n' : nat) :
  evolveSystem exp rand s n = Some ((s', log), n') -> Forall decided log.
Proof.
  unfold evolveSystem. destruct (notReady s); [by intros [= <- <- <-]|].
  unfold bind at 1.
  destruct (foldM _ _ _ n) as [[w m]|] eqn:Hrun; [|done].
  unfold publish, ret. destruct (nans w); [|done]. intros [= <- <- <-].
  refine (foldM_preserves (fun w => Forall decided (trials w)) _ _
            _ _ _ _ _ _ Hrun); [|by constructor].
  intros b a k b' k' Hb Hstep. by eapply sweepTrial_decided.
Qed.

Lemma flipSpinsInRadius_decided (s s' : State) (centerX centerY radius : Q)
    (log : list Trial) (n n' : nat) :
  flipSpinsInRadius exp rand s centerX centerY radius n
  = Some ((s', log), n') ->
  Forall decided log.
Proof.
  unfold flipSpinsInRadius. destruct (notReady s); [by intros [= <- <- <-]|].
  unfold bind at 1.
  destruct (foldM _ _ _ n) as [[w m]|] eqn:Hrun; [|done].
  unfold publish, ret. destruct (nans w); [|done]. intros [= <- <- <-].
  refine (foldM_preserves (fun w => Forall decided (trials w)) _ _
            _ _ _ _ _ _ Hrun); [|by constructor].
  intros b y k b' k' Hb Hrow.
  refine (foldM_preserves (fun w => Forall decided (trials w)) _ _
            _ _ _ _ _ Hb Hrow).
  intros b0 x k0 b0' k0' Hb0 Hstep. by eapply paintCell_decided.
Qed.

End Decided.

(** X2.  Where a sweep leaves each site.  On an initialized lattice, the
    draws being in [0,1), a site holds after the sweep its pre-sweep spin,
    negated when the number of accepted candidates that hit it is odd and
    unchanged when it is even; every candidate with [deltaE <= 0] is among
    the accepted ones. *)
Theorem evolveSystem_parity (exp : Q -> Q) (rand : nat -> Q) (s : State)
    (n : nat) :
  lattice s -> (forall k, (0 <= rand k < 1)%Q) ->
  exists (s' : State) (log : list Trial) (n' : nat),
    evolveSystem exp rand s n = Some ((s', log), n')
    /\ Forall decided log
    /\ forall x y : Z,
         cell (grid s') x y
         = (fun v => if Nat.even (hits log x y) then v else - v)
             <$> cell (grid s) x y.
Proof.
  intros Hl Hr.
  destruct (evolveSystem_run exp rand s n Hl Hr)
    as (log & ks & n' & Hrun & _ & _ & _ & Hsnap).
  eexists _, log, n'. split; [exact Hrun|].
  split; [by eapply evolveSystem_decided|].
  intros x y. simpl. apply replay_parity.
  eapply Forall_impl; [exact Hsnap|]. intros t [[Hx Hy] _]. lia.
Qed.

(** ** The paint covers the region *)

Lemma NoDup_row_cells (xs : list Z) (y : Z) : NoDup xs -> NoDup (row_cells xs y).
Proof.
  intros Hxs. unfold row_cells.
  assert (Hinj : Inj (=) (=) (fun x : Z => (x, y))) by by intros x1 x2 [= ->].
  by apply (NoDup_fmap_2 _).
Qed.

Lemma NoDup_box_cells (xs ys : list Z) :
  NoDup xs -> NoDup ys -> NoDup (box_cells xs ys).
Proof.
  intros Hxs Hys. induction Hys as [|y ys Hy Hys IH]; [constructor|].
  change (box_cells xs (y :: ys)) with (row_cells xs y ++ box_cells xs ys).
  apply NoDup_app. split; [by apply NoDup_row_cells|]. split; [|done].
  intros [x' y'] Hrow Hbox.
  apply elem_of_box_cells in Hbox as [_ Hy'].
  unfold row_cells in Hrow. apply list_elem_of_fmap in Hrow as (x & [= -> ->] & _).
  done.
Qed.

Lemma hits_absent (log : list Trial) (x y : Z) :
  (x, y) ∉ site <$> log -> hits log x y = O.
Proof.
  unfold hits. induction log as [|t log IH]; intros Hout; [done|].
  rewrite fmap_cons in Hout. apply not_elem_of_cons in Hout as [Hne Hout].
  rewrite filter_cons_False; [by apply IH|]. intros [_ Hs]. by apply Hne.
Qed.

Lemma hits_once (log : list Trial) (t : Trial) :
  NoDup (site <$> log) -> t ∈ log ->
  hits log (t_x t) (t_y t) = if t_flipped t then 1%nat else O.
Proof.
  induction log as [|t0 log IH]; intros Hnd Ht; [by apply elem_of_nil in Ht|].
  rewrite fmap_cons in Hnd. apply NoDup_cons in Hnd as [Hout Hnd].
  change (t0 :: log) with ([t0] ++ log).
  unfold hits. rewrite filter_app, length_app.
  fold (hits log (t_x t) (t_y t)).
  apply elem_of_cons in Ht as [->|Ht].
  - rewrite hits_absent by done. rewrite Nat.add_0_r.
    rewrite filter_cons, filter_nil.
    destruct (t_flipped t0) eqn:Hf.
    + by rewrite decide_True.
    + by rewrite decide_False by (intros [? _]; done).
  - rewrite IH by done. rewrite filter_cons, filter_nil.
    rewrite decide_False; [done|].
    intros [_ Hs]. apply Hout. rewrite Hs.
    by apply (list_elem_of_fmap_2 site).
Qed.

Lemma Qsq_bound (a b r : Q) :
  (0 <= r)%Q -> (a * a + b * b <= r * r)%Q -> (- r <= a <= r)%Q.
Proof.
  intros Hr H.
  assert (Hb : (0 <= b * b)%Q) by nra.
  split; apply Qnot_lt_le; intros Hlt.
  - assert ((r * r < a * a)%Q) by nra. lra.
  - assert ((r * r < a * a)%Q) by nra. lra.
Qed.

(** A cell within distance [radius >= 0] of the center, in the sense of
    the shape test, lies between [floor(c - radius)] and
    [ceil(c + radius)]. *)
Lemma inRegion_box (mode : DrawMode) (centerX centerY radius : Q) (x y : Z) :
  (0 <= radius)%Q -> inRegion mode centerX centerY radius x y ->
  (Qfloor (centerX - radius) <= x <= Qceiling (centerX + radius))
  /\ (Qfloor (centerY - radius) <= y <= Qceiling (centerY + radius)).
Proof.
  intros Hr Hreg.
  assert (Hd : (- radius <= inject_Z x - centerX <= radius)%Q
               /\ (- radius <= inject_Z y - centerY <= radius)%Q).
  { unfold inRegion in Hreg. destruct mode.
    - simpl in Hreg. split.
      + by apply (Qsq_bound _ (inject_Z y - centerY)).
      + apply (Qsq_bound _ (inject_Z x - centerX)); [done|lra].
    - destruct Hreg as [Hx Hy]. by rewrite <- !Qabs_Qle_condition. }
  destruct Hd as [[Hx1 Hx2] [Hy1 Hy2]].
  repeat split.
  - rewrite <- (Qfloor_Z x). apply Qfloor_resp_le. lra.
  - rewrite <- (Qceiling_Z x). apply Qceiling_resp_le. lra.
  - rewrite <- (Qfloor_Z y). apply Qfloor_resp_le. lra.
  - rewrite <- (Qceiling_Z y). apply Qceiling_resp_le. lra.
Qed.

(** X3.  A paint with a radius that is not negative, on an initialized
    lattice, evaluates every cell of the lattice that lies in the region,
    each exactly once, and no other cell.  After the paint an evaluated cell
    holds its pre-paint spin negated if its candidate was accepted and
    unchanged if not; in particular every cell of the region whose pre-paint
    [deltaE] is at most 0 ends negated. *)
Theorem flipSpinsInRadius_covers (exp : Q -> Q) (rand : nat -> Q) (s : State)
    (centerX centerY radius : Q) (n : nat) :
  lattice s -> (0 <= radius)%Q ->
  exists (s' : State) (log : list Trial) (n' : nat),
    flipSpinsInRadius exp rand s centerX centerY radius n
    = Some ((s', log), n')
    /\ NoDup (site <$> log)
    /\ (forall x y : Z,
          (x, y) ∈ site <$> log
          <-> (0 <= x < size s /\ 0 <= y < size s)
              /\ inRegion (drawMode s) centerX centerY radius x y)
    /\ (forall t : Trial,
          t ∈ log ->
          cell (grid s') (t_x t) (t_y t)
          = Some (if t_flipped t then - spin (grid s) (t_x t) (t_y t)
                  else spin (grid s) (t_x t) (t_y t)))
    /\ (forall x y : Z,
          0 <= x < size s -> 0 <= y < size s ->
          inRegion (drawMode s) centerX centerY radius x y ->
          (calculateDeltaE s x y <= 0)%Q ->
          cell (grid s') x y = Some (- spin (grid s) x y)).
Proof.
  intros Hl Hr.
  destruct (flipSpinsInRadius_run exp rand s centerX centerY radius n Hl)
    as (log & n' & Hrun & Hsites & Hsnap).
  pose proof (flipSpinsInRadius_decided _ _ _ _ _ _ _ _ _ _ Hrun) as Hdec.
  assert (Hnd : NoDup (site <$> log)).
  { rewrite Hsites. unfold members. apply NoDup_filter.
    apply NoDup_box_cells; apply NoDup_seqZ. }
  assert (Hmem : forall x y : Z,
            (x, y) ∈ site <$> log
            <-> (0 <= x < size s /\ 0 <= y < size s)
                /\ inRegion (drawMode s) centerX centerY radius x y).
  { intros x y. rewrite Hsites. unfold members.
    rewrite list_elem_of_filter, elem_of_box_cells. simpl.
    rewrite inShape_inRegion, elem_of_paint_xs, elem_of_paint_ys.
    split.
    - intros (Hreg & Hx & Hy). split; [lia|done].
    - intros (Hrange & Hreg). split; [done|].
      destruct (inRegion_box _ _ _ _ _ _ Hr Hreg) as [Hx Hy]. lia. }
  set (s' := setGrid (replay (grid s) log) s) in *.
  assert (Hcell : forall t : Trial,
            t ∈ log ->
            cell (grid s') (t_x t) (t_y t)
            = Some (if t_flipped t then - spin (grid s) (t_x t) (t_y t)
                    else spin (grid s) (t_x t) (t_y t))).
  { intros t Ht. simpl.
    rewrite replay_parity.
    - rewrite (hits_once log t Hnd Ht).
      rewrite Forall_forall in Hsnap. destruct (Hsnap t Ht) as [[Hx Hy] _].
      rewrite (cell_spin _ _ _ _ (lattice_square s Hl) Hx Hy). simpl.
      by destruct (t_flipped t).
    - eapply Forall_impl; [exact Hsnap|]. intros t' [[Hx Hy] _]. lia. }
  exists s', log, n'. split; [exact Hrun|]. split; [done|].
  split; [done|]. split; [done|].
  intros x y Hx Hy Hreg Hle.
  assert (Hin : (x, y) ∈ site <$> log) by by apply Hmem.
  apply list_elem_of_fmap in Hin as (t & Hs & Ht).
  unfold site in Hs. injection Hs as -> ->.
  rewrite (Hcell t Ht).
  rewrite Forall_forall in Hdec, Hsnap.
  destruct (Hsnap t Ht) as [_ HdE].
  rewrite (Hdec t Ht); [done|]. by rewrite HdE.
Qed.

(** ** One flip and the sum of spins *)

Lemma sumZ_alter (f : Z -> Z) (l : list Z) (i : nat) (v : Z) :
  l !! i = Some v -> sumZ (alter f i l) = sumZ l - v + f v.
Proof.
  revert i. induction l as [|a l IH]; intros [|i] Hi; try done.
  - injection Hi as ->. change (alter f 0%nat (v :: l)) with (f v :: l).
    rewrite !sumZ_cons. lia.
  - change (alter f (S i) (a :: l)) with (a :: alter f i l).
    rewrite !sumZ_cons, (IH i Hi). lia.
Qed.

Lemma sum_spins_alter (f : list Z -> list Z) (g : list (list Z)) (i : nat)
    (row : list Z) :
  g !! i = Some row ->
  sum_spins (alter f i g) = sum_spins g - sumZ row + sumZ (f row).
Proof.
  unfold sum_spins. revert i.
  induction g as [|a g IH]; intros [|i] Hi; try done.
  - injection Hi as ->. change (alter f 0%nat (row :: g)) with (f row :: g).
    rewrite !fmap_cons, !sumZ_cons. lia.
  - change (alter f (S i) (a :: g)) with (a :: alter f i g).
    rewrite !fmap_cons, !sumZ_cons, (IH i Hi). lia.
Qed.

(** X4.  [newGrid[y][x] *= -1] on a stored cell lowers the sum of all spins
    by twice the spin it negates; the magnetization computed over [total]
    spins therefore moves by [200 * spin / total]: 200 / N^2 percent points
    down or up for one spin of an N x N lattice. *)
Theorem flipAt_sum (g g' : list (list Z)) (x y : Z) :
  flipAt g x y = Some g' ->
  sum_spins g' = sum_spins g - 2 * spin g x y
  /\ forall total : Z,
       0 < total ->
       (percent (sum_spins g') total
        == percent (sum_spins g) total
           - 200 * inject_Z (spin g x y) / inject_Z total)%Q.
Proof.
  unfold flipAt. destruct (cell g x y) as [v|] eqn:Hv; [|done].
  intros [= <-].
  assert (Hsum : sum_spins (alter (alter (fun v => v * -1) (Z.to_nat x))
                              (Z.to_nat y) g)
                 = sum_spins g - 2 * spin g x y).
  { unfold spin. rewrite Hv. simpl. unfold cell, js_index in Hv.
    destruct (decide (0 <= y)); [|done].
    destruct (g !! Z.to_nat y) as [row|] eqn:Hrow; [|done].
    destruct (decide (0 <= x)); [|done].
    rewrite (sum_spins_alter _ _ _ _ Hrow), (sumZ_alter _ _ _ _ Hv). lia. }
  split; [done|]. intros total Ht. rewrite Hsum. unfold percent.
  assert (Hne : ~ (inject_Z total == 0)%Q).
  { change 0%Q with (inject_Z 0). rewrite inject_Z_injective. lia. }
  rewrite <- Z.add_opp_r, inject_Z_plus, inject_Z_opp, inject_Z_mult.
  change (inject_Z 2) with 2%Q. by field.
Qed.

(** ** The energy delta on a lattice of spins *)

Lemma calculateDeltaE_value (s : State) (x y : Z) :
  lattice s -> 0 <= x < size s -> 0 <= y < size s ->
  calculateDeltaE s x y
  = (2 * coupling s * inject_Z (spin (grid s) x y)
       * inject_Z (spin (grid s) x ((y - 1 + size s) mod size s)
                   + spin (grid s) x ((y + 1) mod size s)
                   + spin (grid s) ((x - 1 + size s) mod size s) y
                   + spin (grid s) ((x + 1) mod size s) y)
     + 2 * externalField s * inject_Z (spin (grid s) x y))%Q.
Proof.
  intros Hl Hx Hy.
  pose proof (lattice_square s Hl) as Hsq.
  assert (Hn : 0 < size s) by apply Hl.
  pose proof (Z.mod_pos_bound (y - 1 + size s) (size s) Hn) as Hup.
  pose proof (Z.mod_pos_bound (y + 1) (size s) Hn) as Hdown.
  pose proof (Z.mod_pos_bound (x - 1 + size s) (size s) Hn) as Hleft.
  pose proof (Z.mod_pos_bound (x + 1) (size s) Hn) as Hright.
  pose proof (cell_spin _ _ x y Hsq Hx Hy) as Hc.
  unfold calculateDeltaE. rewrite (lattice_ready s Hl).
  unfold cell in Hc.
  destruct (js_index (grid s) y) as [row|]; [|done]. rewrite Hc.
  rewrite !rem_wrap by lia. simpl.
  rewrite (cell_spin _ _ _ _ Hsq Hx Hup), (cell_spin _ _ _ _ Hsq Hx Hdown),
    (cell_spin _ _ _ _ Hsq Hleft Hy), (cell_spin _ _ _ _ Hsq Hright Hy).
  by rewrite Z.add_0_l.
Qed.

Lemma spins_spin (n : Z) (g : list (list Z)) (x y : Z) :
  square n g -> spins g -> 0 <= x < n -> 0 <= y < n ->
  spin g x y = 1 \/ spin g x y = -1.
Proof.
  intros Hsq Hs Hx Hy. pose proof (cell_spin n g x y Hsq Hx Hy) as Hc.
  unfold cell, js_index in Hc.
  destruct (decide (0 <= y)); [|lia].
  destruct (g !! Z.to_nat y) as [row|] eqn:Hrow; [|done].
  destruct (decide (0 <= x)); [|lia].
  unfold spins in Hs. rewrite Forall_lookup in Hs.
  pose proof (Hs _ _ Hrow) as Hr. rewrite Forall_lookup in Hr.
  exact (Hr _ _ Hc).
Qed.

(** X5.  On an initialized lattice of spins with [J >= 0], the energy
    delta of every site lies between [-(8 J + 2 |H|)] and [8 J + 2 |H|]. *)
Theorem calculateDeltaE_bound (s : State) (x y : Z) :
  lattice s -> spins (grid s) -> (0 <= coupling s)%Q ->
  0 <= x < size s -> 0 <= y < size s ->
  (- (8 * coupling s + 2 * Qabs (externalField s))
   <= calculateDeltaE s x y
   <= 8 * coupling s + 2 * Qabs (externalField s))%Q.
Proof.
  intros Hl Hs HJ Hx Hy.
  pose proof (lattice_square s Hl) as Hsq.
  assert (Hn : 0 < size s) by apply Hl.
  rewrite (calculateDeltaE_value s x y Hl Hx Hy).
  pose proof (Z.mod_pos_bound (y - 1 + size s) (size s) Hn) as Hup.
  pose proof (Z.mod_pos_bound (y + 1) (size s) Hn) as Hdown.
  pose proof (Z.mod_pos_bound (x - 1 + size s) (size s) Hn) as Hleft.
  pose proof (Z.mod_pos_bound (x + 1) (size s) Hn) as Hright.
  pose proof (spins_spin _ _ _ _ Hsq Hs Hx Hup) as H1.
  pose proof (spins_spin _ _ _ _ Hsq Hs Hx Hdown) as H2.
  pose proof (spins_spin _ _ _ _ Hsq Hs Hleft Hy) as H3.
  pose proof (spins_spin _ _ _ _ Hsq Hs Hright Hy) as H4.
  set (nsum := spin (grid s) x ((y - 1 + size s) mod size s)
               + spin (grid s) x ((y + 1) mod size s)
               + spin (grid s) ((x - 1 + size s) mod size s) y
               + spin (grid s) ((x + 1) mod size s) y).
  assert (Hk : -4 <= nsum <= 4) by (unfold nsum; lia).
  assert (Hkq : (-4 <= inject_Z nsum <= 4)%Q).
  { change (-4)%Q with (inject_Z (-4)). change 4%Q with (inject_Z 4).
    rewrite <- !Zle_Qle. done. }
  pose proof (Qle_Qabs (externalField s)) as Ha1.
  pose proof (Qle_Qabs (- externalField s)) as Ha2.
  rewrite Qabs_opp in Ha2.
  destruct (spins_spin _ _ _ _ Hsq Hs Hx Hy) as [->| ->].
  - change (inject_Z 1) with 1%Q. split; nra.
  - change (inject_Z (-1)) with (-1)%Q. split; nra.
Qed.

Lemma wrap_ne (n y : Z) :
  2 <= n -> 0 <= y < n -> (y - 1 + n) mod n <> y /\ (y + 1) mod n <> y.
Proof.
  intros Hn Hy. split.
  - destruct (decide (y = 0)) as [->|Hy0].
    + replace (0 - 1 + n) with (n - 1) by lia. rewrite Z.mod_small; lia.
    + replace (y - 1 + n) with (y - 1 + 1 * n) by lia.
      rewrite Z_mod_plus_full, Z.mod_small; lia.
  - destruct (decide (y + 1 = n)) as [Heq|Hne].
    + rewrite Heq, Z_mod_same_full. lia.
    + rewrite Z.mod_small; lia.
Qed.

Lemma spin_flipped_eq (n : Z) (g : list (list Z)) (x y : Z) :
  square n g -> 0 <= x < n -> 0 <= y < n ->
  spin (flipped g x y) x y = - spin g x y.
Proof.
  intros Hsq Hx Hy. unfold spin at 1.
  rewrite cell_flipped_eq, (cell_spin n g x y Hsq Hx Hy) by lia. simpl. lia.
Qed.

Lemma spin_flipped_ne (g : list (list Z)) (x y x' y' : Z) :
  0 <= x -> 0 <= y -> (x', y') <> (x, y) ->
  spin (flipped g x y) x' y' = spin g x' y'.
Proof. intros Hx Hy Hne. unfold spin. by rewrite cell_flipped_ne. Qed.

(** X6.  On an initialized lattice of side at least 2, negating the spin of
    a site negates the energy delta of that site: the delta of undoing a
    flip is the opposite of the delta of doing it.  (On a lattice of side 1 the
    site is its own neighbor and this fails.) *)
Theorem calculateDeltaE_antisymmetric (s : State) (x y : Z) :
  lattice s -> 2 <= size s -> 0 <= x < size s -> 0 <= y < size s ->
  (calculateDeltaE (setGrid (flipped (grid s) x y) s) x y
   == - calculateDeltaE s x y)%Q.
Proof.
  intros Hl Hn Hx Hy.
  pose proof (lattice_square s Hl) as Hsq.
  assert (Hl' : lattice (setGrid (flipped (grid s) x y) s))
    by by apply lattice_setGrid, flipped_square.
  rewrite (calculateDeltaE_value _ x y Hl' Hx Hy).
  rewrite (calculateDeltaE_value s x y Hl Hx Hy).
  change (grid (setGrid (flipped (grid s) x y) s)) with (flipped (grid s) x y).
  change (size (setGrid (flipped (grid s) x y) s)) with (size s).
  change (coupling (setGrid (flipped (grid s) x y) s)) with (coupling s).
  change (externalField (setGrid (flipped (grid s) x y) s))
    with (externalField s).
  destruct (wrap_ne (size s) y Hn Hy) as [Hup Hdown].
  destruct (wrap_ne (size s) x Hn Hx) as [Hleft Hright].
  rewrite (spin_flipped_eq _ _ _ _ Hsq Hx Hy).
  rewrite !spin_flipped_ne by (try lia; congruence).
  rewrite inject_Z_opp. ring.
Qed.

(** The side of the lattice matters: on the 1 x 1 lattice the site is its
    own four neighbors and negating it leaves the delta as it was. *)
Lemma antisymmetry_needs_side_2 :
  lattice single_state
  /\ (calculateDeltaE single_state 0 0 == 8)%Q
  /\ (calculateDeltaE (setGrid (flipped (grid single_state) 0 0) single_state)
        0 0 == 8)%Q.
Proof. split; [by_computation|]. split; by vm_compute. Qed.

(** ** Sweeps that accept everything or nothing *)

Section Extremes.

Variable exp : Q -> Q.
Variable rand : nat -> Q.
Hypothesis rand_unit : forall k, (0 <= rand k < 1)%Q.
Variable s : State.
Hypothesis s_lattice : lattice s.

Lemma evolveSystem_all (b : bool) :
  (forall (x y : Z) (k : nat),
     0 <= x < size s -> 0 <= y < size s ->
     if b then (calculateDeltaE s x y <= 0)%Q
     else (0 < calculateDeltaE s x y)%Q
          /\ ~ (rand k < exp (- calculateDeltaE s x y
                               / Qmax (1 # 10) (temperature s)))%Q) ->
  forall n : nat,
  exists (log : list Trial) (n' : nat),
    evolveSystem exp rand s n
    = Some ((setGrid (replay (grid s) log) s, log), n')
    /\ js_length log = size s * size s
    /\ Forall (fun t => t_flipped t = b) log.
Proof.
  intros Hall n.
  destruct (foldM_steps
              (fun i w m => sweep_inv rand s n i w m
                            /\ Forall (fun t => t_flipped t = b) (trials w))
              (fun _ : Z => True)
              (fun w (_ : Z) => sweepTrial exp rand s w))
    with (l := seqZ 0 (size s * size s)) (i := O)
         (b := mkWork (copyGrid (grid s)) [] []) (n := n)
    as (w & n' & Hrun & ([Hg Hnan] & Hlen & _) & Hflags).
  - intros i w a m [Hinv Hflags] _.
    destruct (sweep_inv_step exp rand rand_unit s s_lattice n i w m Hinv)
      as (w' & m' & Hstep & Hinv').
    exists w', m'. split; [done|]. split; [done|].
    assert (Hw : square (size s) (newGrid w)).
    { destruct Hinv as [[-> _] _].
      apply replay_square, lattice_square, s_lattice. }
    destruct (sweepTrial_step exp rand s w m s_lattice Hw
                (rand_unit m) (rand_unit (S m))) as ((Hx & Hy) & Hle & Hgt).
    specialize (Hall _ _ (S (S m)) Hx Hy). destruct b.
    + rewrite (Hle Hall) in Hstep. injection Hstep as <- <-. simpl.
      apply Forall_app. split; [done|]. by constructor.
    + destruct Hall as [Hpos Hrej].
      rewrite (Hgt Hpos) in Hstep.
      apply (not_iff_compat (Qlt_bool_iff _ _)) in Hrej.
      apply not_true_is_false in Hrej. rewrite Hrej in Hstep.
      injection Hstep as <- <-. simpl.
      apply Forall_app. split; [done|]. by constructor.
  - split; [|by constructor]. unfold sweep_inv. simpl. rewrite copyGrid_id.
    repeat split; try done. exists []. by split; [constructor|simpl].
  - by apply Forall_true.
  - exists (trials w), n'.
    unfold evolveSystem. rewrite (lattice_ready s s_lattice).
    unfold bind at 1. rewrite Hrun. unfold publish, ret. rewrite Hnan, Hg.
    split; [done|]. split; [|done].
    unfold js_length. rewrite Hlen, length_seqZ. simpl.
    assert (0 < size s) by apply s_lattice. nia.
Qed.

End Extremes.

Lemma replay_rejected (g : list (list Z)) (log : list Trial) :
  Forall (fun t => t_flipped t = false) log -> replay g log = g.
Proof.
  induction log as [|t log IH] using rev_ind; intros Hlog; [done|].
  apply Forall_app in Hlog as [Hlog Ht].
  inversion Ht as [|? ? Hf _]; subst.
  rewrite replay_snoc, Hf. by apply IH.
Qed.

(** X7.  A sweep that can accept nothing leaves the state as it was.  On an
    initialized lattice, the draws being in [0,1): if every site has
    [deltaE > 0] and no draw is below [exp(-deltaE / max(0.1, T))] for any
    site, the sweep evaluates its N*N candidates, rejects them all and
    installs a lattice equal to the old one.  If instead every site has
    [deltaE <= 0], all N*N candidates are accepted. *)
Theorem evolveSystem_extremes (exp : Q -> Q) (rand : nat -> Q) (s : State)
    (n : nat) :
  lattice s -> (forall k, (0 <= rand k < 1)%Q) ->
  ((forall (x y : Z) (k : nat),
      0 <= x < size s -> 0 <= y < size s ->
      (0 < calculateDeltaE s x y)%Q
      /\ ~ (rand k < exp (- calculateDeltaE s x y
                           / Qmax (1 # 10) (temperature s)))%Q) ->
   exists (s' : State) (log : list Trial) (n' : nat),
     evolveSystem exp rand s n = Some ((s', log), n')
     /\ grid s' = grid s
     /\ js_length log = size s * size s
     /\ Forall (fun t => t_flipped t = false) log)
  /\ ((forall x y : Z,
         0 <= x < size s -> 0 <= y < size s ->
         (calculateDeltaE s x y <= 0)%Q) ->
      exists (s' : State) (log : list Trial) (n' : nat),
        evolveSystem exp rand s n = Some ((s', log), n')
        /\ js_length log = size s * size s
        /\ Forall (fun t => t_flipped t = true) log).
Proof.
  intros Hl Hr. split.
  - intros Hall.
    destruct (evolveSystem_all exp rand Hr s Hl false) with (n := n)
      as (log & n' & Hrun & Hlen & Hflags); [by intros; apply Hall|].
    eexists _, log, n'. split; [exact Hrun|]. simpl.
    split; [by apply replay_rejected|done].
  - intros Hall.
    destruct (evolveSystem_all exp rand Hr s Hl true) with (n := n)
      as (log & n' & Hrun & Hlen & Hflags); [by intros; apply Hall|].
    by eexists _, log, n'.
Qed.

(** ** The energy delta on the initial patterns *)

Lemma spin_uniform (n v x y : Z) :
  0 <= x < n -> 0 <= y < n -> spin (uniform_grid n v) x y = v.
Proof.
  intros Hx Hy. unfold spin, cell, js_index, uniform_grid.
  rewrite decide_True by lia.
  rewrite (lookup_replicate_2 _ _ (Z.to_nat y)) by lia.
  rewrite decide_True by lia.
  by rewrite (lookup_replicate_2 _ _ (Z.to_nat x)) by lia.
Qed.

Lemma spin_checkerboard (n x y : Z) :
  0 <= x < n -> 0 <= y < n -> spin (checkerboard_grid n) x y = checker x y.
Proof.
  intros Hx Hy. unfold spin, cell, js_index, checkerboard_grid.
  rewrite decide_True by lia.
  rewrite list_lookup_fmap, lookup_seqZ_lt by lia. simpl.
  rewrite decide_True by lia.
  rewrite list_lookup_fmap, lookup_seqZ_lt by lia. simpl.
  by rewrite !Z.add_0_l, !Z2Nat.id by lia.
Qed.

Lemma wrap_parity (n y : Z) :
  0 < n -> Z.even n = true -> 0 <= y < n ->
  Z.even ((y - 1 + n) mod n) = negb (Z.even y)
  /\ Z.even ((y + 1) mod n) = negb (Z.even y).
Proof.
  intros Hn He Hy. split.
  - destruct (decide (y = 0)) as [->|Hy0].
    + replace (0 - 1 + n) with (n - 1) by lia. rewrite Z.mod_small by lia.
      by rewrite Z.even_sub, He.
    + replace (y - 1 + n) with (y - 1 + 1 * n) by lia.
      rewrite Z_mod_plus_full, Z.mod_small by lia.
      rewrite Z.even_sub. simpl. by destruct (Z.even y).
  - destruct (decide (y + 1 = n)) as [Heq|Hne].
    + rewrite Heq, Z_mod_same_full. simpl.
      assert (Hy' : y = n - 1) by lia. rewrite Hy', Z.even_sub, He. done.
    + rewrite Z.mod_small by lia. rewrite Z.even_add. simpl.
      by destruct (Z.even y).
Qed.

Lemma checker_neighbor (x y x' y' : Z) :
  0 <= x -> 0 <= y -> 0 <= x' -> 0 <= y' ->
  Z.even (x' + y') = negb (Z.even (x + y)) -> checker x' y' = - checker x y.
Proof.
  intros Hx Hy Hx' Hy' He. rewrite !checker_even by lia. rewrite He.
  by destruct (Z.even (x + y)).
Qed.

Lemma calculateDeltaE_on_patterns (s : State) (x y : Z) :
  lattice s -> 0 <= x < size s -> 0 <= y < size s ->
  (forall v : Z,
     v = 1 \/ v = -1 -> grid s = uniform_grid (size s) v ->
     (calculateDeltaE s x y
      == 8 * coupling s + 2 * externalField s * inject_Z v)%Q)
  /\ (Z.even (size s) = true -> grid s = checkerboard_grid (size s) ->
      (calculateDeltaE s x y
       == - (8 * coupling s) + 2 * externalField s * inject_Z (checker x y))%Q).
Proof.
  intros Hl Hx Hy.
  assert (Hn : 0 < size s) by apply Hl.
  pose proof (Z.mod_pos_bound (y - 1 + size s) (size s) Hn) as Hup.
  pose proof (Z.mod_pos_bound (y + 1) (size s) Hn) as Hdown.
  pose proof (Z.mod_pos_bound (x - 1 + size s) (size s) Hn) as Hleft.
  pose proof (Z.mod_pos_bound (x + 1) (size s) Hn) as Hright.
  rewrite (calculateDeltaE_value s x y Hl Hx Hy). split.
  - intros v Hv ->. rewrite !spin_uniform by lia.
    replace (v + v + v + v) with (4 * v) by lia. rewrite inject_Z_mult.
    change (inject_Z 4) with 4%Q.
    destruct Hv as [-> | ->].
    + change (inject_Z 1) with 1%Q. ring.
    + change (inject_Z (-1)) with (-1)%Q. ring.
  - intros He ->. rewrite !spin_checkerboard by lia.
    destruct (wrap_parity (size s) y Hn He Hy) as [Hpu Hpd].
    destruct (wrap_parity (size s) x Hn He Hx) as [Hpl Hpr].
    rewrite (checker_neighbor x y x ((y - 1 + size s) mod size s))
      by (try lia; rewrite !Z.even_add, Hpu; by destruct (Z.even x), (Z.even y)).
    rewrite (checker_neighbor x y x ((y + 1) mod size s))
      by (try lia; rewrite !Z.even_add, Hpd; by destruct (Z.even x), (Z.even y)).
    rewrite (checker_neighbor x y ((x - 1 + size s) mod size s) y)
      by (try lia; rewrite !Z.even_add, Hpl; by destruct (Z.even x), (Z.even y)).
    rewrite (checker_neighbor x y ((x + 1) mod size s) y)
      by (try lia; rewrite !Z.even_add, Hpr; by destruct (Z.even x), (Z.even y)).
    replace (- checker x y + - checker x y + - checker x y + - checker x y)
      with (-4 * checker x y) by lia.
    rewrite inject_Z_mult. change (inject_Z (-4)) with (-4)%Q.
    unfold checker. destruct (_ =? 0).
    + change (inject_Z 1) with 1%Q. ring.
    + change (inject_Z (-1)) with (-1)%Q. ring.
Qed.

(** X8.  The energy delta on the patterns built by [initializeGrid].  On an
    initialized lattice whose cells all hold the same spin [v] (+1 or -1),
    every site has [deltaE = 8 J + 2 H v].  On the checkerboard of even
    side, every site has [deltaE = -8 J + 2 H s], [s] being its own spin. *)
Theorem calculateDeltaE_patterns (s : State) (x y : Z) :
  lattice s -> 0 <= x < size s -> 0 <= y < size s ->
  (forall v : Z,
     v = 1 \/ v = -1 -> grid s = uniform_grid (size s) v ->
     (calculateDeltaE s x y
      == 8 * coupling s + 2 * externalField s * inject_Z v)%Q)
  /\ (Z.even (size s) = true -> grid s = checkerboard_grid (size s) ->
      (calculateDeltaE s x y
       == - (8 * coupling s) + 2 * externalField s * inject_Z (checker x y))%Q).
Proof. apply calculateDeltaE_on_patterns. Qed.

(** * Properties of the rest of the component *)

(** ** Annealing *)

Lemma Qmax_case (x y : Q) :
  ((x <= y)%Q /\ (Qmax x y == y)%Q) \/ ((y <= x)%Q /\ (Qmax x y == x)%Q).
Proof.
  destruct (Q.max_spec x y) as [[H ->]|[H ->]].
  - left. split; [by apply Qlt_le_weak|reflexivity].
  - right. split; [done|reflexivity].
Qed.

Lemma annealingTick_running (c : State) :
  isPlaying c = true -> ~ (annealingRate c == 0)%Q ->
  annealingTick c
  = setTemperature (Qmax (1 # 10) (temperature c + annealingRate c)) c.
Proof.
  intros Hp Hr. unfold annealingTick. rewrite Hp.
  destruct (Qeq_bool (annealingRate c) 0) eqn:He; [|done].
  by apply Qeq_bool_iff in He.
Qed.

Lemma annealing_iter_frame (c : State) (k : nat) :
  isPlaying (Nat.iter k annealingTick c) = isPlaying c
  /\ annealingRate (Nat.iter k annealingTick c) = annealingRate c
  /\ grid (Nat.iter k annealingTick c) = grid c
  /\ size (Nat.iter k annealingTick c) = size c.
Proof.
  induction k as [|k IH]; [done|]. simpl.
  destruct IH as (IH1 & IH2 & IH3 & IH4).
  unfold annealingTick at 1 3 5 7.
  by destruct (negb _ && _).
Qed.

(** X9.  The annealing interval.  While the simulation plays with a rate
    other than 0, [k] ticks take a temperature [T >= 0.1] to
    [max(0.1, T + k * rate)]: the temperature moves by [rate] a second, stops
    at the floor 0.1 and has no ceiling.  Whatever the temperature was, it
    is at least 0.1 after one tick.  While the simulation is paused or the
    rate is 0, ticks change nothing. *)
Theorem annealing_ticks (c : State) (k : nat) :
  (isPlaying c = true -> ~ (annealingRate c == 0)%Q ->
   (((1 # 10) <= temperature c)%Q ->
    (temperature (Nat.iter k annealingTick c)
     == Qmax (1 # 10)
          (temperature c + inject_Z (Z.of_nat k) * annealingRate c))%Q)
   /\ ((1 # 10) <= temperature (Nat.iter (S k) annealingTick c))%Q)
  /\ (isPlaying c = false \/ (annealingRate c == 0)%Q ->
      Nat.iter k annealingTick c = c).
Proof.
  split.
  - intros Hp Hr. split.
    + intros HT. induction k as [|k IH].
      * simpl. destruct (Qmax_case (1 # 10) (temperature c + 0 * annealingRate c))
          as [[H1 H2]|[H1 H2]]; rewrite H2; lra.
      * destruct (annealing_iter_frame c k) as (Hp' & Hr' & _).
        change (Nat.iter (S k) annealingTick c)
          with (annealingTick (Nat.iter k annealingTick c)).
        rewrite annealingTick_running by (rewrite ?Hp', ?Hr'; done).
        change (temperature (setTemperature ?v _)) with v.
        rewrite Hr', Nat2Z.inj_succ. unfold Z.succ. rewrite inject_Z_plus.
        change (inject_Z 1) with 1%Q.
        set (t := temperature (Nat.iter k annealingTick c)) in *.
        set (q := inject_Z (Z.of_nat k)) in *.
        assert (Hq : (0 <= q)%Q).
        { unfold q. change 0%Q with (inject_Z 0). rewrite <- Zle_Qle. lia. }
        set (r := annealingRate c) in *. set (T := temperature c) in *.
        destruct (Qmax_case (1 # 10) (T + q * r)) as [[A1 A2]|[A1 A2]];
        destruct (Qmax_case (1 # 10) (t + r)) as [[B1 B2]|[B1 B2]];
        destruct (Qmax_case (1 # 10) (T + (q + 1) * r)) as [[C1 C2]|[C1 C2]];
        rewrite B2, C2; rewrite A2 in IH;
        destruct (Qlt_le_dec r 0); nra.
    + destruct (annealing_iter_frame c k) as (Hp' & Hr' & _).
      change (Nat.iter (S k) annealingTick c)
        with (annealingTick (Nat.iter k annealingTick c)).
      rewrite annealingTick_running by (rewrite ?Hp', ?Hr'; done).
      change (temperature (setTemperature ?v _)) with v.
      apply Q.le_max_l.
  - intros Hoff. induction k as [|k IH]; [done|]. simpl. rewrite IH.
    unfold annealingTick. destruct Hoff as [->|He].
    + by rewrite andb_false_r.
    + apply Qeq_bool_iff in He. by rewrite He.
Qed.

(** ** The backdrop *)

Lemma Qlt_bool_false (x y : Q) : Qlt_bool x y = false <-> (y <= x)%Q.
Proof.
  unfold Qlt_bool. rewrite negb_false_iff. apply Qle_bool_iff.
Qed.

Ltac Qbool_to_Prop :=
  repeat match goal with
  | H : Qlt_bool _ _ = true |- _ => apply Qlt_bool_iff in H
  | H : Qlt_bool _ _ = false |- _ => apply Qlt_bool_false in H
  | H : Qle_bool _ _ = true |- _ => apply Qle_bool_iff in H
  | H : Qle_bool _ _ = false |- _ => apply Qle_bool_false in H
  end.

(** X10.  For every magnetization exactly one of the three backdrop blocks
    of the markup is rendered, and it is the one [getBackgroundStyle]
    names; the sunrise comes with the sun icon and the night with the
    moon. *)
Theorem backdrop_partition (c : State) :
  (sunriseShown c = true <-> getBackgroundStyle c = Sunrise)
  /\ (nightShown c = true <-> getBackgroundStyle c = Night)
  /\ (defaultShown c = true <-> getBackgroundStyle c = DefaultBackground)
  /\ (getBackgroundStyle c = Sunrise -> sunIcon c = true)
  /\ (getBackgroundStyle c = Night -> sunIcon c = false).
Proof.
  unfold sunriseShown, nightShown, defaultShown, getBackgroundStyle, sunIcon.
  set (m := magnetization c).
  destruct (Qlt_bool 50 m) eqn:H1; destruct (Qlt_bool m (-50)) eqn:H2;
    destruct (Qle_bool (-50) m) eqn:H3; destruct (Qle_bool m 50) eqn:H4;
    destruct (Qle_bool 0 m) eqn:H5;
    Qbool_to_Prop; try (exfalso; lra);
    repeat split; intros; done.
Qed.

(** ** The pointer *)

Lemma scaled_range (a s w : Q) :
  (0 < w)%Q -> (0 < s)%Q ->
  ((0 <= a * s / w)%Q /\ (a * s / w < s)%Q) <-> ((0 <= a)%Q /\ (a < w)%Q).
Proof.
  intros Hw Hs.
  assert (Hx : (a * s / w * w == a * s)%Q) by (field; lra).
  set (x := (a * s / w)%Q) in *.
  split; intros [H1 H2].
  - split.
    + apply Qnot_lt_le. intros Hlt. nra.
    + apply Qnot_le_lt. intros Hle. nra.
  - split.
    + apply Qnot_lt_le. intros Hlt. nra.
    + apply Qnot_le_lt. intros Hle. nra.
Qed.

Lemma js_div_positive (a b : Q) : (0 < b)%Q -> js_div a b = Some (a / b)%Q.
Proof.
  intros Hb. unfold js_div. destruct (Qeq_bool b 0) eqn:He; [|done].
  apply Qeq_bool_iff in He. lra.
Qed.

Lemma js_div_zero (a b : Q) : (b == 0)%Q -> js_div a b = None.
Proof. intros Hb. unfold js_div. apply Qeq_bool_iff in Hb. by rewrite Hb. Qed.

Lemma onLattice_Some (size : Z) (x y : Q) :
  onLattice size (Some x, Some y) = Some (x, y)
  <-> ((0 <= x)%Q /\ (x < inject_Z size)%Q)
      /\ ((0 <= y)%Q /\ (y < inject_Z size)%Q).
Proof.
  unfold onLattice.
  destruct (Qle_bool 0 x) eqn:H1; destruct (Qlt_bool x (inject_Z size)) eqn:H2;
    destruct (Qle_bool 0 y) eqn:H3; destruct (Qlt_bool y (inject_Z size)) eqn:H4;
    simpl; Qbool_to_Prop; split; try done; intros [[? ?] [? ?]]; lra.
Qed.

(** X11.  Where a press or a move of the pointer paints.  With a lattice of
    positive size and a canvas rectangle of positive width and height, the
    lattice coordinates computed by [getMousePos] pass the test of the
    handlers exactly when the pointer is over the rectangle, and then the
    cell under the pointer, [(floor x, floor y)], is a cell of the lattice.
    With a rectangle of width or height 0 the test fails.  When the test
    fails, [handleMouseDown] leaves the component state as it was and
    consumes no random value. *)
Theorem pointer_paints_over_canvas (exp : Q -> Q) (rand : nat -> Q)
    (c : State) (p : Pointer) (e : PointerEvent) (n : nat) :
  0 < size c ->
  ((0 < rect_width e)%Q -> (0 < rect_height e)%Q ->
   let x := ((clientX e - rect_left e) * inject_Z (size c) / rect_width e)%Q in
   let y := ((clientY e - rect_top e) * inject_Z (size c) / rect_height e)%Q in
   (over_canvas e ->
    onLattice (size c) (getMousePos (size c) e) = Some (x, y)
    /\ 0 <= Qfloor x < size c /\ 0 <= Qfloor y < size c)
   /\ (~ over_canvas e ->
       onLattice (size c) (getMousePos (size c) e) = None))
  /\ ((rect_width e == 0)%Q \/ (rect_height e == 0)%Q ->
      onLattice (size c) (getMousePos (size c) e) = None)
  /\ (onLattice (size c) (getMousePos (size c) e) = None ->
      exists p' : Pointer,
        handleMouseDown exp rand c p e n = Some ((c, p'), n)
        /\ isDrawing p' = true /\ (radius p' == 1)%Q).
Proof.
  intros Hn.
  assert (Hs : (0 < inject_Z (size c))%Q)
    by (change 0%Q with (inject_Z 0); by rewrite <- Zlt_Qlt).
  split; [|split].
  - intros Hw Hh x y. unfold getMousePos.
    rewrite !js_div_positive by done. fold x y.
    pose proof (scaled_range (clientX e - rect_left e) _ _ Hw Hs) as Hx.
    pose proof (scaled_range (clientY e - rect_top e) _ _ Hh Hs) as Hy.
    fold x in Hx. fold y in Hy. split.
    + intros [[Hx1 Hx2] [Hy1 Hy2]].
      assert (Hxr : (0 <= x)%Q /\ (x < inject_Z (size c))%Q)
        by (apply Hx; split; lra).
      assert (Hyr : (0 <= y)%Q /\ (y < inject_Z (size c))%Q)
        by (apply Hy; split; lra).
      split; [by apply onLattice_Some|].
      destruct Hxr as [Hx0 Hx3]. destruct Hyr as [Hy0 Hy3].
      split.
      * split; [change 0 with (Qfloor 0); by apply Qfloor_resp_le|].
        rewrite Zlt_Qlt. eapply Qle_lt_trans; [apply Qfloor_le|done].
      * split; [change 0 with (Qfloor 0); by apply Qfloor_resp_le|].
        rewrite Zlt_Qlt. eapply Qle_lt_trans; [apply Qfloor_le|done].
    + intros Hout.
      destruct (onLattice (size c) (Some x, Some y)) as [[x' y']|] eqn:Hon;
        [|done].
      exfalso. apply Hout.
      assert (Hon' : onLattice (size c) (Some x, Some y) = Some (x, y)).
      { unfold onLattice in *. by destruct (_ && _). }
      apply onLattice_Some in Hon' as [Hxr Hyr].
      apply Hx in Hxr. apply Hy in Hyr. unfold over_canvas.
      split; split; lra.
  - intros [Hz|Hz]; unfold getMousePos; rewrite (js_div_zero _ _ Hz); [done|].
    simpl. by destruct (js_div _ _).
  - intros Hnone. unfold handleMouseDown. rewrite Hnone.
    eexists. split; [reflexivity|]. by split.
Qed.

(** ** Renders keep the state good *)

Lemma good_pending (c : State) : good c -> pending_ok c.
Proof.
  intros (Hl & Hs & Hp & Hst).
  split; [exists (size c); by apply lattice_square|].
  split; [done|]. split; [done|]. split; [done|]. apply Hl.
Qed.

Lemma pending_good (c : State) :
  pending_ok c -> js_length (grid c) = size c -> good c.
Proof.
  intros ((n & Hlen & Hrows) & Hs & Hp & Hst & Hi) Hsize.
  split; [|done]. rewrite Hsize in Hlen. subst n.
  split; [done|]. split; [|done]. destruct Hp as [Hn _]. lia.
Qed.

Lemma good_recorded (m : Q) (s : State) :
  good s -> percentage m -> good (recorded m s).
Proof.
  intros (Hl & Hs & Hp & Hm & Hh) Hm'. split; [done|]. split; [done|].
  split; [done|]. split; [done|]. simpl.
  apply Forall_app. split; [done|]. by constructor.
Qed.

Lemma magnetizationEffectIn_cases (c s : State) :
  (exists n : Z, square n (grid c)) -> spins (grid c) ->
  magnetizationEffectIn c s = s
  \/ exists m : Q, percentage m /\ magnetizationEffectIn c s = recorded m s.
Proof.
  intros (n & Hlen & Hrows) Hs. unfold magnetizationEffectIn.
  destruct (notReady c) eqn:Hr; [by left|]. right.
  unfold notReady in Hr.
  apply orb_false_elim in Hr as [Hr H4]. apply orb_false_elim in Hr as [Hr H3].
  apply orb_false_elim in Hr as [H1 H2].
  apply negb_false_iff in H1, H3. apply Z.eqb_eq in H3. apply Z.eqb_neq in H2.
  assert (Hn : n = size c) by congruence. subst n.
  assert (Hpos : 0 < size c).
  { unfold js_length in *. lia. }
  eexists. split; [|reflexivity].
  rewrite flat_reduce_sum. apply percent_bound; [nia|].
  rewrite H3 in Hrows.
  apply (sum_spins_bound (size c)); [by split|done].
Qed.

Lemma good_magnetizationEffectIn (c s : State) :
  pending_ok c -> good s -> good (magnetizationEffectIn c s).
Proof.
  intros (Hsq & Hs & _) Hg.
  destruct (magnetizationEffectIn_cases c s Hsq Hs) as [->|(m & Hm & ->)];
    [done|by apply good_recorded].
Qed.

Lemma replicateM_tabulate {A : Type} (m : M A) (f : nat -> A) (d k : nat) :
  (forall n, m n = Some (f n, (n + d)%nat)) ->
  forall n,
    replicateM k m n
    = Some ((fun i => f (n + i * d)%nat) <$> seq 0 k, (n + k * d)%nat).
Proof.
  intros Hm. induction k as [|k IH]; intros n.
  - unfold replicateM, ret. do 2 f_equal. lia.
  - change (replicateM (S k) m)
      with (let! a := m in let! l := replicateM k m in ret (a :: l)).
    unfold bind. rewrite Hm, IH. unfold ret.
    rewrite <- cons_seq, fmap_cons, <- fmap_S_seq, <- list_fmap_compose.
    f_equal. f_equal; [|lia]. f_equal; [f_equal; lia|].
    apply list_fmap_ext. intros i j _. simpl. f_equal. lia.
Qed.

Lemma magnetizationEffectIn_lattice (c s : State) :
  lattice c -> spins (grid c) ->
  exists m : Q,
    percentage m
    /\ (m == percent (sum_spins (grid c)) (size c * size c))%Q
    /\ magnetizationEffectIn c s = recorded m s.
Proof.
  intros Hl Hs. unfold magnetizationEffectIn. rewrite (lattice_ready c Hl).
  pose proof Hl as (_ & Hn & Hlen & Hrows).
  eexists. split; [|split; [|reflexivity]].
  - rewrite flat_reduce_sum. apply percent_bound; [nia|].
    apply (sum_spins_bound (size c)); [by split|done].
  - by rewrite flat_reduce_sum.
Qed.



Section Renders.

Variable rand : nat -> Q.

Lemma stars_run (n : nat) :
  exists l : list (Q * Q), stars rand n = Some (l, (n + 200)%nat).
Proof.
  eexists. unfold stars.
  rewrite (replicateM_tabulate _
             (fun k => (rand k * 100, rand (S k) * 100)%Q) 2%nat 100%nat).
  - reflexivity.
  - intros k. unfold bind, Math_random, ret. do 2 f_equal. lia.
Qed.

Lemma render_run (c : State) (n : nat) :
  render rand c n = Some (tt, (n + star_draws (magnetization c))%nat).
Proof.
  unfold render, nightShown, star_draws.
  destruct (Qlt_bool (magnetization c) (-50)).
  - destruct (stars_run n) as [l Hl]. unfold bind. by rewrite Hl.
  - unfold ret. by rewrite Nat.add_0_r.
Qed.

Lemma commit_unchanged (prev c : State) (b : bool) (n : nat) :
  size prev = size c -> initialPattern prev = initialPattern c ->
  commit rand prev c b n
  = Some ((if b || negb (Bool.eqb (gridInitialized prev) (gridInitialized c))
           then magnetizationEffectIn c c else c, false),
          (n + star_draws (magnetization c))%nat).
Proof.
  intros Hs Hp. unfold commit. unfold bind at 1. rewrite render_run.
  unfold bind.
  rewrite (initEffects_unchanged rand prev c _ Hs Hp).
  unfold ret, initializeGrid_changed.
  rewrite Hs, Hp, Z.eqb_refl, (proj2 (Pattern_eqb_eq _ _) eq_refl). simpl.
  by rewrite orb_false_r.
Qed.

Lemma changed_flag (prev c : State) :
  size prev <> size c \/ initialPattern prev <> initialPattern c ->
  negb (size prev =? size c) || initializeGrid_changed prev c = true.
Proof.
  unfold initializeGrid_changed. intros [H|H].
  - apply Z.eqb_neq in H. by rewrite H.
  - apply Pattern_eqb_neq in H. rewrite H. by rewrite !orb_true_r.
Qed.

Lemma commit_changed (prev c : State) (b : bool) (n : nat) :
  size prev <> size c \/ initialPattern prev <> initialPattern c ->
  exists (g : list (list Z)) (n' : nat),
    (0 <= size c -> square (size c) g /\ spins g)
    /\ (commit rand prev c b n
        = Some ((magnetizationEffectIn c
                   (initialized g (setIsPlaying false c)), true), n')
        \/ commit rand prev c b n
           = Some ((initialized g (setIsPlaying false c), true), n')).
Proof.
  intros Hch.
  destruct (initEffects_changed rand prev c
              (n + star_draws (magnetization c))%nat Hch)
    as (g & n' & Hrun & Hg).
  exists g, n'. split; [done|].
  assert (Hc : commit rand prev c b n
               = Some ((if b || negb (size prev =? size c)
                           || negb (Bool.eqb (gridInitialized prev)
                                      (gridInitialized c))
                        then magnetizationEffectIn c
                               (initialized g (setIsPlaying false c))
                        else initialized g (setIsPlaying false c), true), n')).
  { unfold commit. unfold bind at 1. rewrite render_run. unfold bind.
    rewrite Hrun. unfold ret. by rewrite (changed_flag prev c Hch). }
  rewrite Hc. destruct (_ || _ || _); [by left|by right].
Qed.

Lemma effectsFire_unchanged (prev c : State) (b : bool) :
  size prev = size c -> initialPattern prev = initialPattern c ->
  effectsFire prev c b
  = (b || negb (Bool.eqb (gridInitialized prev) (gridInitialized c)))
    && negb (notReady c).
Proof.
  intros Hs Hp. unfold effectsFire, initializeGrid_changed.
  rewrite Hs, Hp, Z.eqb_refl, (proj2 (Pattern_eqb_eq _ _) eq_refl). simpl.
  by rewrite orb_false_r.
Qed.

Lemma effectsFire_changed (prev c : State) (b : bool) :
  size prev <> size c \/ initialPattern prev <> initialPattern c ->
  effectsFire prev c b = true.
Proof.
  intros Hch. unfold effectsFire. by rewrite (changed_flag prev c Hch).
Qed.

Lemma good_initialized (g : list (list Z)) (c : State) :
  parameters_ok c -> statistics_ok c -> square (size c) g -> spins g ->
  good (initialized g (setIsPlaying false c)).
Proof.
  intros Hp [Hm Hh] Hsq Hs. split.
  - apply lattice_initialized; [|done]. destruct Hp as [Hn _].
    change (size (setIsPlaying false c)) with (size c). lia.
  - split; [done|]. split; [done|]. split; [done|]. constructor.
Qed.

(** The renders after a batch that changes neither the size nor the
    pattern: the magnetization effect alone, when the lattice was
    replaced, and the render of the sample it records. *)
Lemma settle_unchanged (prev c : State) (b : bool) (n : nat) :
  good c -> size prev = size c -> initialPattern prev = initialPattern c ->
  settle rand prev c b n
  = Some (if b || negb (Bool.eqb (gridInitialized prev) (gridInitialized c))
          then magnetizationEffectIn c c else c,
          (n + star_draws (magnetization c)
           + if b || negb (Bool.eqb (gridInitialized prev) (gridInitialized c))
             then star_draws (magnetization (magnetizationEffectIn c c))
             else O)%nat).
Proof.
  intros Hg Hs Hp. pose proof Hg as (Hl & Hsp & _).
  unfold settle. unfold bind at 1.
  rewrite (commit_unchanged prev c b n Hs Hp).
  rewrite (effectsFire_unchanged prev c b Hs Hp), (lattice_ready c Hl).
  rewrite andb_true_r. cbn [fst snd].
  destruct (b || negb (Bool.eqb (gridInitialized prev) (gridInitialized c))).
  - destruct (magnetizationEffectIn_lattice c c Hl Hsp)
      as (m & _ & _ & Heff).
    rewrite Heff. unfold bind.
    rewrite (commit_unchanged c (recorded m c) false) by reflexivity.
    rewrite (effectsFire_unchanged c (recorded m c) false) by reflexivity.
    change (gridInitialized (recorded m c)) with (gridInitialized c).
    by rewrite eqb_reflx.
  - unfold ret. by rewrite Nat.add_0_r.
Qed.

(** The renders after a batch that changes the size or the pattern: the
    effects build a lattice, and the render that follows records its
    magnetization. *)
Lemma settle_changed (prev c : State) (b : bool) (n : nat) :
  size prev <> size c \/ initialPattern prev <> initialPattern c ->
  pending_ok c ->
  exists (s1 : State) (n' : nat),
    good s1
    /\ size s1 = size c /\ initialPattern s1 = initialPattern c
    /\ isPlaying s1 = false
    /\ settle rand prev c b n = Some (magnetizationEffectIn s1 s1, n').
Proof.
  intros Hch (Hsq & Hs & Hp & Hst & Hi).
  destruct (commit_changed prev c b n Hch) as (g & n1 & Hg & Hrun).
  destruct Hg as [Hgsq Hgs]; [destruct Hp as [? _]; lia|].
  pose proof (good_initialized g c Hp Hst Hgsq Hgs) as Hg0.
  assert (exists s1 : State,
            commit rand prev c b n = Some ((s1, true), n1) /\ good s1
            /\ size s1 = size c /\ initialPattern s1 = initialPattern c
            /\ isPlaying s1 = false)
    as (s1 & Hrun1 & Hg1 & Hs1 & Hp1 & Hplay).
  { destruct Hrun as [Hrun|Hrun]; eexists; (split; [exact Hrun|]).
    - destruct (magnetizationEffectIn_cases c
                  (initialized g (setIsPlaying false c)) Hsq Hs)
        as [->|(m & Hm & ->)]; [done|].
      split; [by apply good_recorded|done].
    - done. }
  exists s1. eexists. split; [exact Hg1|]. split; [exact Hs1|].
  split; [exact Hp1|]. split; [exact Hplay|].
  unfold settle. unfold bind at 1. rewrite Hrun1.
  rewrite (effectsFire_changed prev c b Hch). cbn [fst snd].
  unfold bind at 1.
  rewrite (commit_unchanged c s1 true n1) by done.
  rewrite (effectsFire_unchanged c s1 true) by done.
  rewrite (lattice_ready s1 (proj1 Hg1)). cbn [orb andb negb fst].
  unfold bind. rewrite render_run. reflexivity.
Qed.

(** The renders caused by a batch of updates end in a good state, provided
    the batch leaves a square lattice of spins and values in range, and a
    lattice of side [size] unless it changes the size or the pattern. *)
Lemma settle_good (prev c : State) (b : bool) (n : nat) :
  pending_ok c ->
  (size prev = size c -> initialPattern prev = initialPattern c ->
   js_length (grid c) = size c) ->
  exists (s : State) (n' : nat),
    settle rand prev c b n = Some (s, n') /\ good s.
Proof.
  intros Hpre Hsame.
  destruct (decide (size prev = size c /\ initialPattern prev = initialPattern c))
    as [[Hs Hp]|Hch].
  - assert (Hg : good c) by (apply pending_good; auto).
    rewrite (settle_unchanged prev c b n Hg Hs Hp).
    eexists _, _. split; [reflexivity|].
    destruct (_ || _); [by apply good_magnetizationEffectIn|done].
  - destruct (settle_changed prev c b n) as (s1 & n' & Hg1 & _ & _ & _ & Hrun);
      [|done|].
    { destruct (decide (size prev = size c)); [|by left].
      right. intros Hp. apply Hch. by split. }
    exists (magnetizationEffectIn s1 s1), n'. split; [exact Hrun|].
    apply good_magnetizationEffectIn; [by apply good_pending|done].
Qed.

(** The renders after a handler. *)
Lemma rerender_good (c c1 : State) (touched b : bool) (n : nat) :
  pending_ok c1 ->
  (size c = size c1 -> initialPattern c = initialPattern c1 ->
   js_length (grid c1) = size c1) ->
  (touched = false ->
   size c = size c1 /\ initialPattern c = initialPattern c1) ->
  exists (s : State) (n' : nat),
    rerender rand c c1 touched b n = Some (s, n') /\ good s.
Proof.
  intros Hpre Hsame Hun. unfold rerender. destruct touched.
  - by apply settle_good.
  - exists c1, n. split; [done|].
    destruct (Hun eq_refl) as [Hs Hp]. apply pending_good; auto.
Qed.



End Renders.

(** ** Changing the size or the pattern *)




(** ** Every action keeps the state good *)

Lemma pending_frame (c c' : State) :
  good c -> grid c' = grid c -> gridInitialized c' = gridInitialized c ->
  magnetization c' = magnetization c ->
  magnetizationHistory c' = magnetizationHistory c ->
  parameters_ok c' ->
  pending_ok c'
  /\ (size c = size c' -> js_length (grid c') = size c').
Proof.
  intros (Hl & Hs & Hp & Hm & Hh) Hg Hi Hm' Hh' Hp'. split.
  - split; [exists (size c); rewrite Hg; by apply lattice_square|].
    split; [by rewrite Hg|]. split; [done|].
    split; [by split; rewrite ?Hm', ?Hh'|]. rewrite Hi. apply Hl.
  - intros <-. rewrite Hg. apply Hl.
Qed.

Lemma currentRadius_range (p : Pointer) (e : PointerEvent) :
  (default 0 (startTime p) <= now e)%Q -> (1 <= currentRadius p e <= 15)%Q.
Proof.
  intros Hclock. unfold currentRadius. split.
  - apply Q.min_glb; [lra|].
    assert (0 <= (now e - default 0 (startTime p)) / 100)%Q
      by (apply Qle_shift_div_l; lra).
    lra.
  - apply Q.le_min_l.
Qed.

Lemma good_setGrid (c : State) (g : list (list Z)) :
  good c -> square (size c) g -> spins g -> good (setGrid g c).
Proof.
  intros (Hl & Hs & Hp & Hst) Hsq Hg. split; [by apply lattice_setGrid|].
  by split.
Qed.

Section Actions.

Variable exp : Q -> Q.
Variable rand : nat -> Q.
Hypothesis rand_unit : forall k, (0 <= rand k < 1)%Q.

Lemma settles_frame (c c' : State) (n : nat) :
  good c -> grid c' = grid c -> gridInitialized c' = gridInitialized c ->
  magnetization c' = magnetization c ->
  magnetizationHistory c' = magnetizationHistory c ->
  parameters_ok c' ->
  settles c (ret c') n.
Proof.
  intros Hg H1 H2 H3 H4 H5.
  destruct (pending_frame c c' Hg H1 H2 H3 H4 H5) as [Hpre Hsame].
  exists c', n. split; [done|]. split; [done|]. auto.
Qed.

Lemma settles_paint (c : State) (x y r : Q) (n : nat) :
  good c ->
  settles c (let! res := flipSpinsInRadius exp rand c x y r in ret (fst res)) n.
Proof.
  intros Hg. pose proof Hg as (Hl & Hs & Hp & Hst).
  destruct (flipSpinsInRadius_run exp rand c x y r n Hl)
    as (log & n' & Hrun & _).
  eexists _, n'. unfold bind. rewrite Hrun. split; [reflexivity|]. simpl.
  assert (Hg' : good (setGrid (replay (grid c) log) c)).
  { apply good_setGrid; [done| |by apply replay_spins].
    by apply replay_square, lattice_square. }
  split; [by apply good_pending|]. intros _ _. apply Hg'.
Qed.

Lemma settles_sweep (c : State) (n : nat) :
  good c ->
  settles c (let! res := sweepTick exp rand c in ret (fst res)) n.
Proof.
  intros Hg. pose proof Hg as (Hl & Hs & Hp & Hst). unfold sweepTick.
  destruct (isPlaying c).
  - destruct (evolveSystem_run exp rand c n Hl rand_unit)
      as (log & ks & n' & Hrun & _).
    eexists _, n'. unfold bind. rewrite Hrun. split; [reflexivity|]. simpl.
    assert (Hg' : good (setGrid (replay (grid c) log) c)).
    { apply good_setGrid; [done| |by apply replay_spins].
      by apply replay_square, lattice_square. }
    split; [by apply good_pending|]. intros _ _. apply Hg'.
  - exists c, n. split; [done|]. split; [by apply good_pending|].
    intros _ _. apply Hl.
Qed.

Lemma settles_pattern (c : State) (p : Pattern) (n : nat) :
  good c -> settles c (onClickPattern rand p c) n.
Proof.
  intros (Hl & Hs & Hp & Hm & Hh). unfold onClickPattern.
  destruct (initializeGrid_total rand c (Given p) (setInitialPattern p c) n)
    as (g & n' & Hrun & Hg).
  destruct Hg as [Hsq Hsp]; [destruct Hp; lia|].
  exists (initialized g (setInitialPattern p c)), n'. split; [done|].
  split.
  - split; [by exists (size c)|]. split; [done|]. split; [done|].
    split; [|done]. split; [done|constructor].
  - intros _ _. apply Hsq.
Qed.

Lemma settles_reset (c : State) (n : nat) :
  good c -> settles c (handleReset rand c) n.
Proof.
  intros (Hl & Hs & Hp & Hm & Hh). unfold handleReset.
  match goal with
  | |- context [initializeGrid rand c (Given Random) ?p] => set (pending := p)
  end.
  destruct (initializeGrid_total rand c (Given Random) pending n)
    as (g & n' & Hrun & Hg).
  destruct Hg as [Hsq Hsp]; [destruct Hp; lia|].
  exists (initialized g pending), n'. split; [done|].
  split.
  - split; [by exists (size c)|]. split; [exact Hsp|].
    split; [|split; [|reflexivity]].
    + unfold parameters_ok.
      change (size (initialized g pending)) with 30.
      change (temperature (initialized g pending)) with 2%Q.
      change (coupling (initialized g pending)) with 1%Q.
      change (externalField (initialized g pending)) with 0%Q.
      change (annealingRate (initialized g pending)) with 0%Q.
      change (simulationSpeed (initialized g pending)) with 100.
      repeat split; try lia; by vm_compute.
    + split; [exact Hm|].
      change (magnetizationHistory (initialized g pending)) with (@nil Q).
      constructor.
  - change (size (initialized g pending)) with 30.
    change (grid (initialized g pending)) with g.
    intros <- _. apply Hsq.
Qed.

End Actions.

Section Reachable.

Variable exp : Q -> Q.
Variable rand : nat -> Q.
Hypothesis rand_unit : forall k, (0 <= rand k < 1)%Q.

Lemma dispatch_good (ev : Event) (c : State) (p : Pointer) (n : nat) :
  consistent (c, p) -> valid_event (c, p) ev ->
  exists (u' : State * Pointer) (n' : nat),
    dispatch exp rand ev (c, p) n = Some (u', n') /\ consistent u'.
Proof.
  intros [Hg Hr] Hv. simpl in Hg, Hr.
  pose proof Hg as (Hl & Hs & Hp & Hst).
  pose proof Hp as (Hp1 & Hp2 & Hp3 & Hp4 & Hp5 & Hp6).
  assert (Hre : forall (c1 : State) (touched b : bool) (p' : Pointer)
                  (n0 : nat),
            pending_ok c1 ->
            (size c = size c1 -> initialPattern c = initialPattern c1 ->
             js_length (grid c1) = size c1) ->
            (touched = false ->
             size c = size c1 /\ initialPattern c = initialPattern c1) ->
            (1 <= radius p' <= 15)%Q ->
            exists (u' : State * Pointer) (n' : nat),
              (let! s := rerender rand c c1 touched b in ret (s, p')) n0
              = Some (u', n') /\ consistent u').
  { intros c1 touched b p' n0 Hpre Hsame Hun Hp'.
    destruct (rerender_good rand c c1 touched b n0 Hpre Hsame Hun)
      as (s & n' & Hs' & Hgs).
    exists (s, p'), n'. unfold bind. rewrite Hs'. by split. }
  assert (Hframe : forall (c1 : State) (touched b : bool) (p' : Pointer)
                     (n0 : nat),
            grid c1 = grid c -> gridInitialized c1 = gridInitialized c ->
            magnetization c1 = magnetization c ->
            magnetizationHistory c1 = magnetizationHistory c ->
            initialPattern c1 = initialPattern c ->
            parameters_ok c1 ->
            (touched = false -> size c = size c1) ->
            (1 <= radius p' <= 15)%Q ->
            exists (u' : State * Pointer) (n' : nat),
              (let! s := rerender rand c c1 touched b in ret (s, p')) n0
              = Some (u', n') /\ consistent u').
  { intros c1 touched b p' n0 H1 H2 H3 H4 H5 H6 Hun Hp'.
    destruct (pending_frame c c1 Hg H1 H2 H3 H4 H6) as [Hpre Hsame].
    apply Hre; [done|by intros ? _; apply Hsame| |done].
    intros Ht. split; [by apply Hun|done]. }
  assert (Hsame_c : size c = size c -> initialPattern c = initialPattern c ->
                    js_length (grid c) = size c) by (intros _ _; apply Hl).
  destruct ev; simpl in Hv; unfold dispatch; cbn [fst snd].
  - apply Hframe; try done. unfold handleGridSizeChange.
    intros Ht. apply negb_false_iff, Z.eqb_eq in Ht. by rewrite Ht.
  - by apply Hframe.
  - apply Hframe; try done. split; [done|]. split; [apply Hv|done].
  - by apply Hframe.
  - by apply Hframe.
  - by apply Hframe.
  - by apply Hframe.
  - destruct (settles_pattern rand c p0 n Hg)
      as (c' & n1 & Hrun & Hpre & Hsame).
    unfold bind at 1. rewrite Hrun. by apply Hre.
  - apply Hframe; try done.
  - destruct (settles_reset rand c n Hg) as (c' & n1 & Hrun & Hpre & Hsame).
    unfold bind at 1. rewrite Hrun. by apply Hre.
  - unfold handleMouseDown.
    destruct (onLattice (size c) (getMousePos (size c) e)) as [[x y]|].
    + destruct (settles_paint exp rand c x y (radius p) n Hg)
        as (c' & n1 & Hrun & Hpre & Hsame).
      unfold bind in Hrun. unfold bind at 1. unfold bind at 1.
      destruct (flipSpinsInRadius exp rand c x y (radius p) n)
        as [[res n2]|] eqn:Hpaint; [|done].
      injection Hrun as <- <-. unfold ret at 1. cbn [fst snd orb].
      apply Hre; [done|done|done|]. simpl. lra.
    + unfold bind at 1. unfold ret at 1. cbn [fst snd].
      apply Hre; [by apply good_pending|done|done|]. simpl. lra.
  - unfold handleMouseMove. destruct (isDrawing p) eqn:Hd; cbn [andb negb].
    + pose proof (currentRadius_range p e Hv) as Hcr.
      destruct (onLattice (size c) (getMousePos (size c) e)) as [[x y]|].
      * destruct (settles_paint exp rand c x y (currentRadius p e) n Hg)
          as (c' & n1 & Hrun & Hpre & Hsame).
        unfold bind in Hrun. unfold bind at 1. unfold bind at 1.
        destruct (flipSpinsInRadius exp rand c x y (currentRadius p e) n)
          as [[res n2]|] eqn:Hpaint; [|done].
        injection Hrun as <- <-. unfold ret at 1. cbn [fst snd orb].
        by apply Hre.
      * unfold bind at 1. unfold ret at 1. cbn [fst snd].
        apply Hre; [by apply good_pending|done|done|done].
    + unfold bind at 1. unfold ret at 1. cbn [fst snd].
      apply Hre; [by apply good_pending|done|done|done].
  - apply Hre; [by apply good_pending|done|done|]. simpl. lra.
  - destruct (settles_sweep exp rand rand_unit c n Hg)
      as (c' & n1 & Hrun & Hpre & Hsame).
    unfold bind in Hrun. unfold bind at 1.
    destruct (sweepTick exp rand c n) as [[res n2]|] eqn:Hsweep; [|done].
    injection Hrun as <- <-.
    apply Hre; [done|done| |done].
    rewrite (lattice_ready c Hl), andb_true_r. intros Hplay.
    unfold sweepTick in Hsweep. rewrite Hplay in Hsweep.
    by injection Hsweep as <- <-.
  - unfold annealingTick. destruct (negb _ && _); [|by apply Hframe].
    apply Hframe; try done.
    split; [done|]. split; [apply Q.le_max_l|done].
Qed.

(** X12.  Each action of the user or of a timer that the markup and the
    clock allow, taken in a consistent state with the draws in [0,1), runs
    to its end without a fault, through the renders it causes, and leaves
    a consistent state. *)
Theorem dispatch_consistent (ev : Event) (u : State * Pointer) (n : nat) :
  consistent u -> valid_event u ev ->
  exists (u' : State * Pointer) (n' : nat),
    dispatch exp rand ev u n = Some (u', n') /\ consistent u'.
Proof. destruct u as [c p]. apply dispatch_good. Qed.

End Reachable.

(** ** The random pattern, draw by draw *)

Section RandomPattern.

Variable rand : nat -> Q.

Lemma random_row_run (k n : nat) :
  replicateM k
    (let! u := Math_random rand in
     ret (if Qlt_bool u (1 # 2) then 1 else -1)) n
  = Some ((fun i => random_spin (rand (n + i)%nat)) <$> seq 0 k, (n + k)%nat).
Proof.
  assert (Hcell : forall m : nat,
            (let! u := Math_random rand in
             ret (if Qlt_bool u (1 # 2) then 1 else -1)) m
            = Some (random_spin (rand m), (m + 1)%nat)).
  { intros m. unfold bind, Math_random, ret, random_spin. do 2 f_equal. lia. }
  rewrite (replicateM_tabulate _ (fun n => random_spin (rand n)) 1%nat k
             Hcell n).
  f_equal. f_equal; [|lia].
  apply list_fmap_ext. intros i j _. do 2 f_equal. lia.
Qed.

(** The random lattice: [size c] rows are built one after the other, each
    cell from the next value of [Math.random()]. *)
Lemma initializeGrid_random_run (c : State) (pattern : PatternOrDefault)
    (s : State) (n : nat) :
  0 <= size c ->
  match pattern with Given p => p | Default => initialPattern c end = Random ->
  exists g : list (list Z),
    initializeGrid rand c pattern s n
    = Some (initialized g s,
            (n + Z.to_nat (size c) * Z.to_nat (size c))%nat)
    /\ square (size c) g /\ spins g
    /\ forall x y : Z,
         0 <= x < size c -> 0 <= y < size c ->
         cell g x y
         = Some (random_spin (rand (n + Z.to_nat (y * size c + x))%nat)).
Proof.
  intros Hn Hp. unfold initializeGrid. cbv zeta. rewrite Hp. cbv iota.
  set (N := Z.to_nat (size c)).
  set (row := fun m : nat =>
                (fun i => random_spin (rand (m + i)%nat)) <$> seq 0 N).
  exists ((fun j => row (n + j * N)%nat) <$> seq 0 N).
  unfold bind at 1.
  rewrite (replicateM_tabulate _ row N N (fun m => random_row_run N m) n).
  unfold ret. split; [reflexivity|]. split; [|split].
  - unfold square, js_length. rewrite length_fmap, length_seq.
    split; [lia|]. apply Forall_fmap, Forall_forall. intros j _. simpl.
    unfold row. rewrite length_fmap, length_seq. lia.
  - unfold spins. apply Forall_fmap, Forall_forall. intros j _. simpl.
    unfold row. apply Forall_fmap, Forall_forall. intros i _. simpl.
    unfold random_spin. destruct (Qlt_bool _ _); lia.
  - intros x y Hx Hy. unfold cell, js_index.
    destruct (decide (0 <= y)); [|lia].
    rewrite list_lookup_fmap, lookup_seq_lt by lia. simpl.
    destruct (decide (0 <= x)); [|lia].
    unfold row. rewrite list_lookup_fmap, lookup_seq_lt by lia. simpl.
    do 3 f_equal. unfold N.
    rewrite Z2Nat.inj_add, Z2Nat.inj_mul by lia. lia.
Qed.

(** X13.  How [initializeGrid] uses [Math.random()].  For the patterns
    positive, negative and checkerboard it consumes no value.  For the random
    pattern on a lattice of side N it consumes exactly N*N values, row after
    row: the cell [(x, y)] is +1 when the value number [y*N + x] of the call
    is below 0.5 and -1 otherwise. *)
Theorem initializeGrid_draws (c : State) (pattern : PatternOrDefault)
    (s : State) (n : nat) :
  0 <= size c ->
  let p := match pattern with Given p => p | Default => initialPattern c end in
  exists (g : list (list Z)) (n' : nat),
    initializeGrid rand c pattern s n = Some (initialized g s, n')
    /\ (p <> Random -> n' = n)
    /\ (p = Random ->
        n' = (n + Z.to_nat (size c * size c))%nat
        /\ forall x y : Z,
             0 <= x < size c -> 0 <= y < size c ->
             cell g x y
             = Some (random_spin (rand (n + Z.to_nat (y * size c + x))%nat))).
Proof.
  intros Hn p.
  destruct (decide (p = Random)) as [Hp|Hp].
  - destruct (initializeGrid_random_run c pattern s n Hn Hp)
      as (g & Hrun & _ & _ & Hcells).
    exists g, (n + Z.to_nat (size c) * Z.to_nat (size c))%nat.
    split; [done|]. split; [done|]. intros _. split; [|done].
    rewrite Z2Nat.inj_mul by lia. lia.
  - unfold initializeGrid. fold p. unfold bind, ret.
    destruct p; try done; eexists _, n; (split; [reflexivity|]);
      split; done.
Qed.

(** ** The first renders *)

Lemma good_mounted (g : list (list Z)) (m : Q) :
  square 30 g -> spins g -> percentage m ->
  good (recorded m (initialized g (setIsPlaying false initialState))).
Proof.
  intros Hsq Hsp Hm. apply good_recorded; [|exact Hm].
  refine (good_initialized g initialState _ _ Hsq Hsp).
  - unfold parameters_ok. repeat split; simpl; try lia; by vm_compute.
  - split; [by vm_compute|constructor].
Qed.

Lemma mount_run :
  exists (g : list (list Z)) (m : Q),
    mount rand 0%nat
    = Some (recorded m
              (initialized g (setIsPlaying false initialState)),
            (1800 + star_draws m)%nat)
    /\ square 30 g /\ spins g /\ percentage m
    /\ (m == percent (sum_spins g) 900)%Q
    /\ forall x y : Z,
         0 <= x < 30 -> 0 <= y < 30 ->
         cell g x y = Some (random_spin (rand (900 + Z.to_nat (y * 30 + x))%nat)).
Proof.
  unfold mount. unfold bind at 1. rewrite render_run.
  change (0 + star_draws (magnetization initialState))%nat with O.
  destruct (initializeGrid_random_run initialState Default initialState 0%nat)
    as (g1 & Hrun1 & _); [done..|].
  unfold bind at 1. rewrite Hrun1.
  destruct (initializeGrid_random_run initialState Default
              (setIsPlaying false (initialized g1 initialState))
              (0 + Z.to_nat (size initialState)
                   * Z.to_nat (size initialState))%nat)
    as (g2 & Hrun2 & Hsq & Hsp & Hcells); [done..|].
  unfold bind at 1. rewrite Hrun2.
  set (s2 := initialized g2 (setIsPlaying false (initialized g1 initialState))).
  assert (Hs2 : s2 = initialized g2 (setIsPlaying false initialState))
    by reflexivity.
  assert (Hskip : magnetizationEffectIn initialState s2 = s2) by reflexivity.
  rewrite Hskip. clear Hskip.
  assert (Hg2 : good s2).
  { rewrite Hs2. refine (good_initialized g2 initialState _ _ Hsq Hsp).
    - unfold parameters_ok. repeat split; simpl; try lia; by vm_compute.
    - split; [by vm_compute|constructor]. }
  rewrite (settle_unchanged rand initialState s2 true _ Hg2) by reflexivity.
  destruct (magnetizationEffectIn_lattice s2 s2 (proj1 Hg2) Hsp)
    as (m & Hm & Hval & Heff).
  exists g2, m. cbn [orb]. rewrite Heff, Hs2.
  split; [reflexivity|]. split; [exact Hsq|]. split; [exact Hsp|].
  split; [exact Hm|]. split; [exact Hval|]. exact Hcells.
Qed.

End RandomPattern.

(** X14.  The first renders of the component.  Whatever [Math.random()]
    returns, mounting runs to its end.  Its effects consume exactly 1800
    values: the two effects on [initializeGrid] each build a 30 x 30
    lattice, and the second one is kept, so the cell [(x, y)] shown comes
    from the value number [900 + 30 y + x].  The render of the state they
    leave consumes 200 more, for the stars, when the magnetization of that
    lattice is below -50, and none otherwise.  The state left is good,
    paused, with the defaults of [useState], and its history holds one
    sample, the magnetization of that lattice. *)
Theorem mount_ready (rand : nat -> Q) :
  exists c : State,
    mount rand 0%nat
    = Some (c, (1800 + if nightShown c then 200 else 0)%nat)
    /\ good c
    /\ size c = 30 /\ initialPattern c = Random /\ isPlaying c = false
    /\ (temperature c = 2 /\ coupling c = 1 /\ externalField c = 0)%Q
    /\ magnetizationHistory c = [magnetization c]
    /\ (magnetization c == percent (sum_spins (grid c)) 900)%Q
    /\ forall x y : Z,
         0 <= x < 30 -> 0 <= y < 30 ->
         cell (grid c) x y
         = Some (random_spin (rand (900 + Z.to_nat (y * 30 + x))%nat)).
Proof.
  destruct (mount_run rand) as (g & m & Hrun & Hsq & Hsp & Hm & Hval & Hcells).
  eexists. split; [exact Hrun|]. split.
  - by apply good_mounted.
  - split; [reflexivity|]. split; [reflexivity|]. split; [reflexivity|].
    split; [by repeat split|]. split; [reflexivity|].
    split; [exact Hval|exact Hcells].
Qed.

(** ** Every state the component reaches *)

Section Reached.

Variable exp : Q -> Q.
Variable rand : nat -> Q.
Hypothesis rand_unit : forall k, (0 <= rand k < 1)%Q.

Lemma mount_consistent (c : State) (n : nat) :
  mount rand 0%nat = Some (c, n) -> consistent (c, initialPointer).
Proof.
  intros Hrun.
  destruct (mount_run rand) as (g & m & Hrun' & Hsq & Hsp & Hm & _).
  rewrite Hrun' in Hrun. injection Hrun as <- <-. split.
  - by apply good_mounted.
  - simpl. lra.
Qed.

Lemma reachable_good (u : State * Pointer) (n : nat) :
  reachable exp rand u n -> consistent u.
Proof.
  induction 1 as [c n Hrun|[c p] u' n n' ev _ IH Hv Hrun].
  - by apply (mount_consistent c n).
  - destruct (dispatch_good exp rand rand_unit ev c p n IH Hv)
      as (u'' & n'' & Hrun' & Hu).
    rewrite Hrun' in Hrun. by injection Hrun as <- <-.
Qed.

(** X15.  The component never leaves its good states.  The draws being in
    [0,1): every state reached from the first renders by actions that the
    markup and the clock allow is consistent (an initialized N x N lattice
    of spins with N in [10, 69], every parameter in the range of its slider
    but for the temperature, which is at least 0.1, the magnetization and
    every sample of the history in [-100, 100], the brush radius in
    [1, 15]), so the guard shared by [evolveSystem], [flipSpinsInRadius]
    and the magnetization effect does not fire in it; and in such a state
    every allowed action runs to its end without a fault and leads to a
    reached state. *)
Theorem reachable_consistent (u : State * Pointer) (n : nat) :
  reachable exp rand u n ->
  consistent u
  /\ notReady (fst u) = false
  /\ forall ev : Event,
       valid_event u ev ->
       exists (u' : State * Pointer) (n' : nat),
         dispatch exp rand ev u n = Some (u', n')
         /\ reachable exp rand u' n'.
Proof.
  intros Hu. pose proof (reachable_good u n Hu) as Hc.
  split; [exact Hc|]. split; [apply lattice_ready, Hc|].
  intros ev Hv. destruct u as [c p].
  destruct (dispatch_good exp rand rand_unit ev c p n Hc Hv)
    as (u' & n' & Hrun & _).
  exists u', n'. split; [exact Hrun|].
  by apply (reachable_step exp rand (c, p) u' n n' ev).
Qed.

End Reached.

(** ** The statistics follow the lattice *)

Lemma in_sync_recorded (m : Q) (c s : State) :
  (m == percent (sum_spins (grid c)) (size c * size c))%Q ->
  grid s = grid c -> size s = size c -> in_sync (recorded m s).
Proof.
  intros Hm Hg Hs. split.
  - change (magnetization (recorded m s)) with m.
    change (grid (recorded m s)) with (grid s).
    change (size (recorded m s)) with (size s).
    by rewrite Hg, Hs.
  - change (magnetizationHistory (recorded m s))
      with (magnetizationHistory s ++ [m]).
    apply last_snoc.
Qed.

Lemma in_sync_effect (c : State) :
  good c -> in_sync (magnetizationEffectIn c c).
Proof.
  intros (Hl & Hs & _).
  destruct (magnetizationEffectIn_lattice c c Hl Hs) as (m & _ & Hval & ->).
  by apply (in_sync_recorded m c c).
Qed.

Section Statistics.

Variable exp : Q -> Q.
Variable rand : nat -> Q.
Hypothesis rand_unit : forall k, (0 <= rand k < 1)%Q.

Lemma settle_sync (prev c : State) (b : bool) (n : nat) (s : State)
    (n' : nat) :
  pending_ok c ->
  (size prev = size c -> initialPattern prev = initialPattern c ->
   js_length (grid c) = size c) ->
  (b = false -> size prev = size c -> initialPattern prev = initialPattern c ->
   in_sync c) ->
  settle rand prev c b n = Some (s, n') -> in_sync s.
Proof.
  intros Hpre Hsame Hsync.
  destruct (decide (size prev = size c
                    /\ initialPattern prev = initialPattern c))
    as [[Hs Hp]|Hch].
  - assert (Hg : good c) by (apply pending_good; auto).
    rewrite (settle_unchanged rand prev c b n Hg Hs Hp).
    intros [= <- <-]. destruct b; cbn [orb]; [by apply in_sync_effect|].
    destruct (negb _); [by apply in_sync_effect|by apply Hsync].
  - destruct (settle_changed rand prev c b n)
      as (s1 & n1 & Hg1 & _ & _ & _ & Hrun); [|done|].
    { destruct (decide (size prev = size c)); [|by left].
      right. intros Hp. apply Hch. by split. }
    rewrite Hrun. intros [= <- <-]. by apply in_sync_effect.
Qed.

Lemma rerender_sync (c c1 : State) (touched b : bool) (n : nat) (s : State)
    (n' : nat) :
  pending_ok c1 ->
  (size c = size c1 -> initialPattern c = initialPattern c1 ->
   js_length (grid c1) = size c1) ->
  (b = false -> size c = size c1 -> initialPattern c = initialPattern c1 ->
   in_sync c1) ->
  (touched = false -> in_sync c1) ->
  rerender rand c c1 touched b n = Some (s, n') -> in_sync s.
Proof.
  intros Hpre Hsame Hsync Hun. unfold rerender. destruct touched.
  - by apply settle_sync.
  - intros [= <- <-]. by apply Hun.
Qed.

Lemma mount_sync (c : State) (n : nat) :
  mount rand 0%nat = Some (c, n) -> in_sync c.
Proof.
  destruct (mount_run rand) as (g & m & Hrun & _ & _ & _ & Hval & _).
  rewrite Hrun. intros [= <- <-].
  by apply (in_sync_recorded m
              (initialized g (setIsPlaying false initialState))).
Qed.

Lemma dispatch_sync (ev : Event) (c : State) (p : Pointer) (n : nat)
    (u' : State * Pointer) (n' : nat) :
  consistent (c, p) -> in_sync c -> valid_event (c, p) ev ->
  dispatch exp rand ev (c, p) n = Some (u', n') -> in_sync (fst u').
Proof.
  intros [Hg Hr] Hy Hv. simpl in Hg, Hr.
  pose proof Hg as (Hl & Hs & Hp & Hst).
  pose proof Hp as (Hp1 & Hp2 & Hp3 & Hp4 & Hp5 & Hp6).
  assert (Hre : forall (c1 : State) (touched b : bool) (p' : Pointer)
                  (n0 : nat),
            pending_ok c1 ->
            (size c = size c1 -> initialPattern c = initialPattern c1 ->
             js_length (grid c1) = size c1) ->
            (b = false -> size c = size c1 ->
             initialPattern c = initialPattern c1 -> in_sync c1) ->
            (touched = false -> in_sync c1) ->
            (let! s := rerender rand c c1 touched b in ret (s, p')) n0
            = Some (u', n') -> in_sync (fst u')).
  { intros c1 touched b p' n0 Hpre Hsame Hsync Hun. unfold bind.
    destruct (rerender rand c c1 touched b n0) as [[s n2]|] eqn:Hset;
      [|done].
    intros [= <- <-]. cbn [fst].
    by apply (rerender_sync c c1 touched b n0 s n2). }
  assert (Hframe : forall (c1 : State) (touched : bool) (p' : Pointer),
            grid c1 = grid c -> gridInitialized c1 = gridInitialized c ->
            magnetization c1 = magnetization c ->
            magnetizationHistory c1 = magnetizationHistory c ->
            parameters_ok c1 ->
            (touched = false -> size c = size c1) ->
            (let! s := rerender rand c c1 touched false in ret (s, p')) n
            = Some (u', n') -> in_sync (fst u')).
  { intros c1 touched p' H1 H2 H3 H4 Hp' Hun.
    destruct (pending_frame c c1 Hg H1 H2 H3 H4 Hp') as [Hpre Hsame].
    assert (Hkeep : size c = size c1 -> in_sync c1).
    { intros Hsz. destruct Hy as [Hm Hh]. unfold in_sync.
      rewrite H1, <- Hsz, H3, H4. by split. }
    apply Hre; [done|by intros ? _; apply Hsame| |].
    - intros _ Hsz _. by apply Hkeep.
    - intros Ht. by apply Hkeep, Hun. }
  assert (Hsame_c : size c = size c -> initialPattern c = initialPattern c ->
                    js_length (grid c) = size c) by (intros _ _; apply Hl).
  destruct ev; simpl in Hv; unfold dispatch; cbn [fst snd].
  - apply Hframe; try done. unfold handleGridSizeChange.
    intros Ht. apply negb_false_iff, Z.eqb_eq in Ht. by rewrite Ht.
  - by apply Hframe.
  - apply Hframe; try done. split; [done|]. split; [apply Hv|done].
  - by apply Hframe.
  - by apply Hframe.
  - by apply Hframe.
  - by apply Hframe.
  - destruct (settles_pattern rand c p0 n Hg)
      as (c' & n1 & Hrun & Hpre & Hsame).
    unfold bind at 1. rewrite Hrun. by apply Hre.
  - by apply Hframe.
  - destruct (settles_reset rand c n Hg) as (c' & n1 & Hrun & Hpre & Hsame).
    unfold bind at 1. rewrite Hrun. by apply Hre.
  - unfold handleMouseDown. rewrite (lattice_ready c Hl).
    destruct (onLattice (size c) (getMousePos (size c) e)) as [[x y]|].
    + destruct (settles_paint exp rand c x y (radius p) n Hg)
        as (c' & n1 & Hrun & Hpre & Hsame).
      unfold bind in Hrun. unfold bind at 1. unfold bind at 1.
      destruct (flipSpinsInRadius exp rand c x y (radius p) n)
        as [[res n2]|] eqn:Hpaint; [|done].
      injection Hrun as <- <-. unfold ret at 1. cbn [fst snd orb andb negb].
      by apply Hre.
    + unfold bind at 1. unfold ret at 1. cbn [fst snd andb].
      apply Hre; [by apply good_pending|done|done|done].
  - unfold handleMouseMove. rewrite (lattice_ready c Hl).
    destruct (isDrawing p) eqn:Hd; cbn [andb negb].
    + destruct (onLattice (size c) (getMousePos (size c) e)) as [[x y]|].
      * destruct (settles_paint exp rand c x y (currentRadius p e) n Hg)
          as (c' & n1 & Hrun & Hpre & Hsame).
        unfold bind in Hrun. unfold bind at 1. unfold bind at 1.
        destruct (flipSpinsInRadius exp rand c x y (currentRadius p e) n)
          as [[res n2]|] eqn:Hpaint; [|done].
        injection Hrun as <- <-. unfold ret at 1. cbn [fst snd orb].
        by apply Hre.
      * unfold bind at 1. unfold ret at 1. cbn [fst snd].
        apply Hre; [by apply good_pending|done|done|done].
    + unfold bind at 1. unfold ret at 1. cbn [fst snd].
      apply Hre; [by apply good_pending|done|done|done].
  - apply Hre; [by apply good_pending|done|done|done].
  - destruct (settles_sweep exp rand rand_unit c n Hg)
      as (c' & n1 & Hrun & Hpre & Hsame).
    unfold bind in Hrun. unfold bind at 1.
    destruct (sweepTick exp rand c n) as [[res n2]|] eqn:Hsweep; [|done].
    injection Hrun as <- <-.
    assert (Hidle : isPlaying c && negb (notReady c) = false ->
                    in_sync (fst res)).
    { rewrite (lattice_ready c Hl), andb_true_r. intros Hplay.
      unfold sweepTick in Hsweep. rewrite Hplay in Hsweep.
      by injection Hsweep as <- <-. }
    apply Hre; [done|done| |done]. intros Hb _ _. by apply Hidle.
  - unfold annealingTick. destruct (negb _ && _); [|by apply Hframe].
    apply Hframe; try done.
    split; [done|]. split; [apply Q.le_max_l|done].
Qed.

Lemma reachable_sync (u : State * Pointer) (n : nat) :
  reachable exp rand u n -> in_sync (fst u).
Proof.
  induction 1 as [c n Hrun|[c p] u' n n' ev Hu IH Hv Hrun].
  - by apply (mount_sync c n).
  - apply (dispatch_sync ev c p n u' n'); try done.
    by apply (reachable_good exp rand rand_unit (c, p) n).
Qed.

(** X16.  The statistics follow the lattice.  The draws being in [0,1), in
    every state reached from the first renders by allowed actions the
    magnetization shown is [(sum of the spins shown / N^2) * 100], and it is
    the last sample of the history: no action leaves the display of the
    statistics behind the lattice, or the lattice behind the statistics. *)
Theorem statistics_follow_lattice (u : State * Pointer) (n : nat) :
  reachable exp rand u n ->
  (magnetization (fst u)
   == percent (sum_spins (grid (fst u))) (size (fst u) * size (fst u)))%Q
  /\ last (magnetizationHistory (fst u)) = Some (magnetization (fst u)).
Proof. apply reachable_sync. Qed.

(** X17.  One tick of the sweep interval.  In a good state that plays, the
    draws being in [0,1), a tick runs one sweep, installs its lattice and
    appends one sample to the history, the magnetization of that lattice;
    nothing else changes.  Two renders follow the sweep.  The first shows
    the new lattice with the magnetization of the old one, and draws the
    stars, 200 values of [Math.random()], when that is below -50; the second
    shows the sample recorded, and draws them when the new magnetization is
    below -50.  In a good state that is paused a tick changes nothing,
    causes no render and consumes no random value. *)
Theorem sweep_tick_records (c : State) (p : Pointer) (n : nat) :
  good c ->
  (isPlaying c = true ->
   exists (log : list Trial) (m : Q) (n' : nat),
     evolveSystem exp rand c n
     = Some ((setGrid (replay (grid c) log) c, log), n')
     /\ dispatch exp rand SweepInterval (c, p) n
        = Some ((recorded m (setGrid (replay (grid c) log) c), p),
                (n' + star_draws (magnetization c) + star_draws m)%nat)
     /\ (m == percent (sum_spins (replay (grid c) log)) (size c * size c))%Q
     /\ percentage m)
  /\ (isPlaying c = false ->
      dispatch exp rand SweepInterval (c, p) n = Some ((c, p), n)).
Proof.
  intros Hg. pose proof Hg as (Hl & Hs & Hp & Hst).
  unfold dispatch, sweepTick, rerender. cbn [fst snd].
  rewrite (lattice_ready c Hl).
  split; intros Hplay; rewrite Hplay; cbn [andb negb].
  - destruct (evolveSystem_run exp rand c n Hl rand_unit)
      as (log & ks & n' & Hrun & _).
    set (c' := setGrid (replay (grid c) log) c) in *.
    assert (Hg' : good c').
    { apply good_setGrid; [done| |by apply replay_spins].
      by apply replay_square, lattice_square. }
    destruct (magnetizationEffectIn_lattice c' c' (proj1 Hg')
                (proj1 (proj2 Hg'))) as (m & Hm & Hval & Heff).
    exists log, m, n'. split; [exact Hrun|].
    unfold bind. rewrite Hrun. cbn [fst].
    rewrite (settle_unchanged rand c c' true n' Hg') by reflexivity.
    cbn [orb]. rewrite Heff. split; [reflexivity|].
    split; [exact Hval|exact Hm].
  - reflexivity.
Qed.

(** X18.  What never touches the lattice.  In a good state, moving the
    speed, temperature, coupling, field or annealing slider within its
    range, choosing a draw mode, pressing play or pause, and a tick of the
    annealing interval run to their end and leave the lattice, its size,
    the pattern, the magnetization and the history as they were; the
    pointer state is not touched either.  They cause at most one render,
    that of the state they leave, so they consume the 200 values of the
    stars when a render follows and the magnetization is below -50, and
    none otherwise; the play button always causes that render. *)
Theorem parameters_keep_lattice (ev : Event) (c : State) (p : Pointer)
    (n : nat) :
  good c -> sets_parameter ev = true -> valid_event (c, p) ev ->
  exists (s : State) (n' : nat),
    dispatch exp rand ev (c, p) n = Some ((s, p), n')
    /\ same_lattice c s
    /\ (n' = n \/ n' = (n + star_draws (magnetization c))%nat)
    /\ (nightShown c = false -> n' = n)
    /\ (ev = PlayButton -> n' = (n + star_draws (magnetization c))%nat).
Proof.
  intros Hg Hev Hv. pose proof Hg as (Hl & Hs & Hp & Hst).
  pose proof Hp as (Hp1 & Hp2 & Hp3 & Hp4 & Hp5 & Hp6).
  assert (Hnight : nightShown c = false ->
                   (n + star_draws (magnetization c))%nat = n).
  { unfold nightShown, star_draws. intros ->. apply Nat.add_0_r. }
  assert (Hret : forall (c' : State) (touched : bool),
            same_lattice c c' -> parameters_ok c' ->
            exists (s : State) (n' : nat),
              (let! s := rerender rand c c' touched false in ret (s, p)) n
              = Some ((s, p), n')
              /\ same_lattice c s
              /\ (n' = n \/ n' = (n + star_draws (magnetization c))%nat)
              /\ (nightShown c = false -> n' = n)
              /\ (touched = true ->
                  n' = (n + star_draws (magnetization c))%nat)).
  { intros c' touched Hsame Hp'. exists c'.
    destruct Hsame as (H1 & H2 & H3 & H4 & H5 & H6).
    unfold rerender. destruct touched.
    - exists (n + star_draws (magnetization c))%nat. unfold bind.
      rewrite (settle_unchanged rand c c' false n); [| |done..].
      + rewrite H4, eqb_reflx, H5. cbn [orb negb]. rewrite Nat.add_0_r.
        split; [reflexivity|]. split; [done|]. split; [by right|].
        split; [exact Hnight|done].
      + destruct (pending_frame c c' Hg H1 H4 H5 H6 Hp') as [Hpre Hlen].
        apply pending_good; [exact Hpre|]. by apply Hlen.
    - exists n. split; [reflexivity|]. split; [done|]. split; [by left|].
      split; done. }
  assert (Hany : forall (c' : State) (touched : bool),
            same_lattice c c' -> parameters_ok c' ->
            (ev = PlayButton -> touched = true) ->
            exists (s : State) (n' : nat),
              (let! s := rerender rand c c' touched false in ret (s, p)) n
              = Some ((s, p), n')
              /\ same_lattice c s
              /\ (n' = n \/ n' = (n + star_draws (magnetization c))%nat)
              /\ (nightShown c = false -> n' = n)
              /\ (ev = PlayButton ->
                  n' = (n + star_draws (magnetization c))%nat)).
  { intros c' touched Hsame Hp' Hplay.
    destruct (Hret c' touched Hsame Hp') as (s & n' & H1 & H2 & H3 & H4 & H5).
    exists s, n'. repeat (split; [done|]). intros He. by apply H5, Hplay. }
  destruct ev; try discriminate Hev; simpl in Hv; unfold dispatch;
    cbn [fst snd].
  - by apply Hany.
  - apply Hany; [done| |done]. split; [done|]. split; [apply Hv|done].
  - by apply Hany.
  - by apply Hany.
  - by apply Hany.
  - by apply Hany.
  - by apply Hany.
  - unfold annealingTick. destruct (negb _ && _); [|by apply Hany].
    apply Hany; [done| |done]. split; [done|]. split; [apply Q.le_max_l|done].
Qed.

End Statistics.

(** ** The canvas *)

Lemma bind_length_const {A B : Type} (f : A -> list B) (k : nat)
    (l : list A) :
  (forall a, a ∈ l -> length (f a) = k) ->
  length (l ≫= f) = (length l * k)%nat.
Proof.
  induction l as [|a l IH]; intros Hf; [done|].
  rewrite bind_cons, length_app, IH, Hf.
  - simpl. lia.
  - apply elem_of_cons. by left.
  - intros b Hb. apply Hf, elem_of_cons. by right.
Qed.

Lemma drawCell_lattice (c : State) (cellSize : Q) (x y : Z) :
  lattice c -> 0 <= x < size c -> 0 <= y < size c ->
  drawCell (grid c) cellSize y x
  = [shadow_fill cellSize x y (spin (grid c) x y);
     main_fill cellSize x y (spin (grid c) x y)].
Proof.
  intros Hl Hx Hy. unfold drawCell.
  by rewrite (cell_spin _ _ _ _ (lattice_square c Hl) Hx Hy).
Qed.

(** X19.  What the draw effect paints.  On an initialized N x N lattice of
    spins and a canvas wider than 4 N pixels (the canvas of the markup is
    400 wide and N is at most 69), the effect fills the veil and then, for
    each cell of the lattice and for nothing else, a shadow and a main
    square: 1 + 2 N^2 fills.  The main square of a cell is cyan exactly when
    the cell holds +1 and pink exactly when it holds -1; it has a positive
    side and lies strictly inside the square of side [cellSize] of its cell,
    and the N columns of side [cellSize] cover the width exactly. *)
Theorem drawEffect_cells (c : State) (p : Pointer) (width height : Q) :
  lattice c -> spins (grid c) -> (4 * inject_Z (size c) < width)%Q ->
  let cellSize := (width / inject_Z (size c))%Q in
  exists fills : list Fill,
    drawEffect c p width height = Some (fills, drawShape c p cellSize)
    /\ js_length fills = 1 + 2 * (size c * size c)
    /\ (forall f : Fill,
          f ∈ fills <->
          f = mkFill Veil 0 0 width height
          \/ exists x y : Z,
               (0 <= x < size c /\ 0 <= y < size c)
               /\ (f = shadow_fill cellSize x y (spin (grid c) x y)
                   \/ f = main_fill cellSize x y (spin (grid c) x y)))
    /\ (forall x y : Z,
          0 <= x < size c -> 0 <= y < size c ->
          let f := main_fill cellSize x y (spin (grid c) x y) in
          (f_style f = Cyan <-> spin (grid c) x y = 1)
          /\ (f_style f = Pink <-> spin (grid c) x y = -1)
          /\ ((0 < f_w f)%Q /\ (0 < f_h f)%Q)
          /\ ((fst (cell_corner cellSize x y) < f_x f)%Q
              /\ (f_x f + f_w f < fst (cell_corner cellSize (x + 1) y))%Q)
          /\ ((snd (cell_corner cellSize x y) < f_y f)%Q
              /\ (f_y f + f_h f < snd (cell_corner cellSize x (y + 1)))%Q))
    /\ (inject_Z (size c) * cellSize == width)%Q.
Proof.
  intros Hl Hs Hw cellSize.
  assert (Hn : 0 < size c) by apply Hl.
  assert (HN : (0 < inject_Z (size c))%Q)
    by (change 0%Q with (inject_Z 0); by rewrite <- Zlt_Qlt).
  assert (Hcs : (4 < cellSize)%Q) by by apply Qlt_shift_div_l.
  unfold drawEffect. rewrite (lattice_ready c Hl). fold cellSize.
  eexists. split; [reflexivity|]. split; [|split; [|split]].
  - unfold js_length. cbn [length].
    rewrite (bind_length_const _ (Z.to_nat (size c) * 2)%nat).
    + rewrite length_seqZ. lia.
    + intros y Hy%elem_of_seqZ.
      rewrite (bind_length_const _ 2%nat); [by rewrite length_seqZ|].
      intros x Hx%elem_of_seqZ. rewrite drawCell_lattice by (done || lia).
      done.
  - intros f. rewrite elem_of_cons, list_elem_of_bind.
    split.
    + intros [->|(y & Hf & Hy)]; [by left|]. right.
      apply list_elem_of_bind in Hf as (x & Hf & Hx).
      apply elem_of_seqZ in Hx, Hy.
      rewrite drawCell_lattice in Hf by (done || lia).
      exists x, y. split; [lia|].
      apply elem_of_cons in Hf as [->|Hf]; [by left|].
      apply list_elem_of_singleton in Hf as ->. by right.
    + intros [->|(x & y & [Hx Hy] & Hf)]; [by left|]. right.
      exists y. split; [|apply elem_of_seqZ; lia].
      apply list_elem_of_bind. exists x. split; [|apply elem_of_seqZ; lia].
      rewrite drawCell_lattice by done.
      destruct Hf as [-> | ->]; [by left|]. apply elem_of_cons. right.
      by apply list_elem_of_singleton.
  - intros x y Hx Hy.
    assert (Hv : spin (grid c) x y = 1 \/ spin (grid c) x y = -1).
    { apply (spins_spin (size c)); [by apply lattice_square|done..]. }
    unfold main_fill, cell_corner. cbn [f_style f_x f_y f_w f_h fst snd].
    rewrite !inject_Z_plus. change (inject_Z 1) with 1%Q.
    split; [|split; [|split; [|split]]].
    + destruct Hv as [-> | ->]; by split.
    + destruct Hv as [-> | ->]; by split.
    + split; lra.
    + split; lra.
    + split; lra.
  - unfold cellSize. field. lra.
Qed.

(** X20.  The outline and the region.  With a positive cell size, the path
    stroked for the brush bounds the painted region in this sense.  In
    circle mode a cell passes the shape test of the paint exactly when its
    center on the canvas is inside the circle stroked.  In square mode a
    cell passes the test exactly when its corner nearest the origin is
    inside the rectangle stroked; the cells whose center is inside the
    rectangle are those of the region of the same radius around the
    position half a cell up and to the left. *)
Theorem outline_matches_region (c : State) (p : Pointer)
    (cellSize cx cy r : Q) :
  (0 < cellSize)%Q -> circle p = Some (cx, cy, r) ->
  exists path : Path,
    drawShape c p cellSize = Some path
    /\ forall x y : Z,
         match drawMode c with
         | Circle =>
             inRegion Circle cx cy r x y
             <-> inside path (cell_center cellSize x y)
         | Square =>
             (inRegion Square cx cy r x y
              <-> inside path (cell_corner cellSize x y))
             /\ (inRegion Square (cx - (1 # 2)) (cy - (1 # 2)) r x y
                 <-> inside path (cell_center cellSize x y))
         end.
Proof.
  intros Hcs Hp. unfold drawShape. rewrite Hp.
  destruct (drawMode c); eexists; (split; [reflexivity|]); intros x y.
  - unfold inRegion, inside, cell_center. cbn [fst snd].
    set (dx := (inject_Z x - cx)%Q). set (dy := (inject_Z y - cy)%Q).
    assert (Hl : ((inject_Z x * cellSize + cellSize / 2
                   - (cx * cellSize + cellSize / 2))
                  * (inject_Z x * cellSize + cellSize / 2
                     - (cx * cellSize + cellSize / 2))
                  + (inject_Z y * cellSize + cellSize / 2
                     - (cy * cellSize + cellSize / 2))
                    * (inject_Z y * cellSize + cellSize / 2
                       - (cy * cellSize + cellSize / 2))
                  == cellSize * cellSize * (dx * dx + dy * dy))%Q)
      by (unfold dx, dy; field).
    assert (Hr : (r * cellSize * (r * cellSize)
                  == cellSize * cellSize * (r * r))%Q) by ring.
    rewrite Hl, Hr. symmetry. apply Qmult_le_l. nra.
  - unfold inRegion, inside, cell_corner, cell_center. cbn [fst snd].
    rewrite !Qabs_Qle_condition. split.
    + split.
      * intros [[H1 H2] [H3 H4]]. repeat split; nra.
      * intros [[H1 H2] [H3 H4]]. repeat split; nra.
    + assert (Hh : (cellSize / 2 == (1 # 2) * cellSize)%Q) by field.
      rewrite Hh. split.
      * intros [[H1 H2] [H3 H4]]. repeat split; nra.
      * intros [[H1 H2] [H3 H4]]. repeat split; nra.
Qed.

(** ** The brush between two gestures *)

Lemma bind_snd {A B C : Type} (m : M A) (k : A -> M (B * C)) (p : C)
    (n : nat) (u' : B * C) (n' : nat) :
  (forall (a : A) (n1 : nat), k a n1 = Some (u', n') -> snd u' = p) ->
  (let! a := m in k a) n = Some (u', n') -> snd u' = p.
Proof.
  intros Hk. unfold bind. destruct (m n) as [[a n1]|]; [|done]. apply Hk.
Qed.

Lemma ret_snd {A C : Type} (a : A) (p : C) (n : nat) (u' : A * C)
    (n' : nat) :
  ret (a, p) n = Some (u', n') -> snd u' = p.
Proof. unfold ret. by intros [= <- <-]. Qed.

Section Brush.

Variable exp : Q -> Q.
Variable rand : nat -> Q.
Hypothesis rand_unit : forall k, (0 <= rand k < 1)%Q.

Lemma dispatch_idle (ev : Event) (c : State) (p : Pointer) (n : nat)
    (u' : State * Pointer) (n' : nat) :
  idle p -> dispatch exp rand ev (c, p) n = Some (u', n') -> idle (snd u').
Proof.
  intros Hidle.
  assert (Hkeep : forall m : M State,
            (let! s := m in ret (s, p)) n = Some (u', n') -> idle (snd u')).
  { intros m Hrun.
    by rewrite (bind_snd m _ p n u' n' (fun a n1 => ret_snd a p n1 u' n') Hrun). }
  assert (Hdown : forall (m : M (State * Pointer))
                    (k : State * Pointer -> M State),
            (forall (r : State * Pointer) (n1 : nat),
               m n = Some (r, n1) -> idle (snd r)) ->
            (let! r := m in let! s := k r in ret (s, snd r)) n
            = Some (u', n') -> idle (snd u')).
  { intros m k Hm. unfold bind at 1.
    destruct (m n) as [[r n1]|] eqn:Hrun; [|done]. intros Hset.
    rewrite (bind_snd _ _ (snd r) n1 u' n'
               (fun a n2 => ret_snd a (snd r) n2 u' n') Hset).
    by apply (Hm r n1). }
  destruct ev; unfold dispatch; cbn [fst snd]; try apply Hkeep.
  - intros Hrun.
    by rewrite (bind_snd _ _ p n u' n'
                  (fun s1 n1 => bind_snd _ _ p n1 u' n'
                     (fun a n2 => ret_snd a p n2 u' n')) Hrun).
  - intros Hrun.
    by rewrite (bind_snd _ _ p n u' n'
                  (fun s1 n1 => bind_snd _ _ p n1 u' n'
                     (fun a n2 => ret_snd a p n2 u' n')) Hrun).
  - apply Hdown.
    intros r n1. unfold handleMouseDown.
    destruct (onLattice (size c) (getMousePos (size c) e)) as [[x y]|].
    + unfold bind.
      destruct (flipSpinsInRadius exp rand c x y (radius p) n) as [[res n2]|];
        [|done].
      unfold ret. by intros [= <- <-].
    + unfold ret. by intros [= <- <-].
  - apply Hdown.
    intros r n1. unfold handleMouseMove.
    destruct (isDrawing p) eqn:Hd; cbn [negb].
    + destruct (onLattice (size c) (getMousePos (size c) e)) as [[x y]|].
      * unfold bind.
        destruct (flipSpinsInRadius exp rand c x y (currentRadius p e) n)
          as [[res n2]|]; [|done].
        unfold ret. by intros [= <- <-].
      * unfold ret. by intros [= <- <-].
    + unfold ret. by intros [= <- <-].
  - intros Hrun.
    rewrite (bind_snd _ _ (handleMouseUp p) n u' n'
               (fun a n1 => ret_snd a (handleMouseUp p) n1 u' n') Hrun).
    by intros _.
  - intros Hrun.
    by rewrite (bind_snd _ _ p n u' n'
                  (fun s1 n1 => bind_snd _ _ p n1 u' n'
                     (fun a n2 => ret_snd a p n2 u' n')) Hrun).
Qed.

Lemma reachable_idle (u : State * Pointer) (n : nat) :
  reachable exp rand u n -> idle (snd u).
Proof.
  induction 1 as [c n Hrun|[c p] u' n n' ev Hu IH Hv Hrun].
  - intros _. split; reflexivity.
  - by apply (dispatch_idle ev c p n u' n').
Qed.

(** X21.  The brush between two gestures.  The draws being in [0,1), in
    every reached state in which no gesture is in progress the brush radius
    is 1 and no outline is shown, so that a press over the lattice paints
    the region of radius 1 around the pointer, the one whose outline it
    shows, and runs to its end. *)
Theorem press_brush (u : State * Pointer) (n : nat) :
  reachable exp rand u n -> isDrawing (snd u) = false ->
  radius (snd u) = 1%Q /\ circle (snd u) = None
  /\ forall (e : PointerEvent) (x y : Q),
       onLattice (size (fst u)) (getMousePos (size (fst u)) e) = Some (x, y) ->
       exists (res : State * list Trial) (n1 : nat),
         flipSpinsInRadius exp rand (fst u) x y 1 n = Some (res, n1)
         /\ handleMouseDown exp rand (fst u) (snd u) e n
            = Some ((fst res,
                     mkPointer true 1 (Some (now e)) (Some (x, y, 1%Q))), n1).
Proof.
  intros Hu Hd. destruct (reachable_idle u n Hu Hd) as [Hr Hc].
  split; [exact Hr|]. split; [exact Hc|]. intros e x y Hon.
  destruct (reachable_good exp rand rand_unit u n Hu) as [(Hl & _) _].
  destruct (flipSpinsInRadius_run exp rand (fst u) x y 1 n Hl)
    as (log & n1 & Hrun & _).
  eexists _, n1. split; [exact Hrun|].
  unfold handleMouseDown. rewrite Hon, Hr. unfold bind. by rewrite Hrun.
Qed.

End Brush.

(** ** How often the lattice is built *)

Section Rebuilds.

Variable exp : Q -> Q.
Variable rand : nat -> Q.

Lemma initializeGrid_counted (c : State) (pattern : PatternOrDefault)
    (s : State) (n : nat) :
  0 <= size c ->
  exists g : list (list Z),
    initializeGrid rand c pattern s n
    = Some (initialized g s,
            (n + pattern_draws
                   match pattern with
                   | Given p => p
                   | Default => initialPattern c
                   end (size c))%nat)
    /\ square (size c) g /\ spins g.
Proof.
  intros Hn.
  destruct (decide (match pattern with
                    | Given p => p
                    | Default => initialPattern c
                    end = Random)) as [Hp|Hp].
  - destruct (initializeGrid_random_run rand c pattern s n Hn Hp)
      as (g & Hrun & Hsq & Hsp & _).
    exists g. rewrite Hp. by split.
  - unfold initializeGrid. cbv zeta.
    destruct (match pattern with
              | Given p => p
              | Default => initialPattern c
              end); [| | |done]; unfold bind, ret, pattern_draws;
      rewrite Nat.add_0_r.
    + exists (uniform_grid (size c) 1). split; [reflexivity|].
      split; [by apply uniform_grid_square|apply uniform_grid_spins; lia].
    + exists (uniform_grid (size c) (-1)). split; [reflexivity|].
      split; [by apply uniform_grid_square|apply uniform_grid_spins; lia].
    + exists (checkerboard_grid (size c)). split; [reflexivity|].
      split; [by apply checkerboard_grid_square|apply checkerboard_grid_spins].
Qed.

Lemma initEffects_counted (prev c : State) (n : nat) :
  size prev <> size c \/ initialPattern prev <> initialPattern c ->
  0 <= size c ->
  exists g : list (list Z),
    initEffects rand prev c n
    = Some (initialized g (setIsPlaying false c),
            (n + 2 * pattern_draws (initialPattern c) (size c))%nat)
    /\ square (size c) g /\ spins g.
Proof.
  intros Hch Hn. unfold initEffects.
  assert (Hc : initializeGrid_changed prev c = true).
  { unfold initializeGrid_changed. destruct Hch as [H|H].
    - apply Z.eqb_neq in H. by rewrite H.
    - apply Pattern_eqb_neq in H. rewrite H. by rewrite orb_true_r. }
  rewrite Hc, orb_true_r.
  destruct (initializeGrid_counted c Default c n Hn) as (g1 & Hrun1 & _).
  unfold bind. rewrite Hrun1.
  destruct (initializeGrid_counted c Default
              (setIsPlaying false (initialized g1 c))
              (n + pattern_draws (initialPattern c) (size c))%nat Hn)
    as (g2 & Hrun2 & Hg2).
  exists g2. rewrite Hrun2. split; [|exact Hg2].
  f_equal. f_equal. lia.
Qed.

Lemma commit_counted (prev c : State) (b : bool) (n : nat) :
  size prev <> size c \/ initialPattern prev <> initialPattern c ->
  0 <= size c ->
  exists g : list (list Z),
    commit rand prev c b n
    = Some ((if b || negb (size prev =? size c)
                || negb (Bool.eqb (gridInitialized prev) (gridInitialized c))
             then magnetizationEffectIn c
                    (initialized g (setIsPlaying false c))
             else initialized g (setIsPlaying false c), true),
            (n + star_draws (magnetization c)
             + 2 * pattern_draws (initialPattern c) (size c))%nat)
    /\ square (size c) g /\ spins g.
Proof.
  intros Hch Hn.
  destruct (initEffects_counted prev c
              (n + star_draws (magnetization c))%nat Hch Hn)
    as (g & Hrun & Hg).
  exists g. split; [|exact Hg].
  unfold commit. unfold bind at 1. rewrite render_run.
  unfold bind. rewrite Hrun. unfold ret.
  by rewrite (changed_flag prev c Hch).
Qed.

(** The render of a state [s] whose lattice is the one the effects have
    just built, and its effects: one sample is recorded. *)
Lemma commit_built (prev : State) (g : list (list Z)) (c : State) (n : nat) :
  size prev = size c -> initialPattern prev = initialPattern c ->
  0 < size c -> square (size c) g -> spins g ->
  forall s : State,
    grid s = g -> size s = size c -> initialPattern s = initialPattern c ->
    gridInitialized s = true ->
    exists m : Q,
      commit rand prev s true n
      = Some ((recorded m s, false), (n + star_draws (magnetization s))%nat)
      /\ percentage m
      /\ (m == percent (sum_spins g) (size c * size c))%Q
      /\ effectsFire prev s true = true.
Proof.
  intros Hs Hp Hn Hsq Hsp s Hg Hsz Hpat Hgi.
  assert (Hl : lattice s).
  { destruct Hsq as [Hlen Hrows].
    split; [done|]. rewrite Hg, Hsz. by split. }
  destruct (magnetizationEffectIn_lattice s s Hl) as (m & Hm & Hval & Heff);
    [by rewrite Hg|].
  exists m. rewrite (commit_unchanged rand prev s true n) by congruence.
  cbn [orb]. rewrite Heff. split; [reflexivity|]. split; [exact Hm|].
  split; [by rewrite Hval, Hg, Hsz|].
  rewrite (effectsFire_unchanged prev s true) by congruence.
  by rewrite (lattice_ready s Hl).
Qed.

Lemma notReady_resized (c : State) (v : Z) :
  lattice c -> v <> size c -> notReady (setSize v c) = true.
Proof.
  intros (_ & _ & Hlen & _) Hv. apply notReady_cases.
  right. right. left. change (js_length (grid c) <> v). lia.
Qed.

(** X22.  How often the lattice is built, and how often the component is
    rendered.  In a good state: moving the size slider to another value
    makes the effects build the lattice twice (2 N^2 values of
    [Math.random()] for the random pattern, N the new size), pauses, and
    leaves a history of one sample; choosing another pattern builds it
    three times, once in the handler and twice in the effects, pauses, and
    leaves a history of two samples, the first taken from the lattice of
    the handler, which the effects have replaced; choosing the pattern
    already selected builds it once, keeps the play/pause state and leaves
    a history of one sample.  The last sample is each time the
    magnetization shown.  Each of the first two actions causes three
    renders and the third one two: the render after the handler and the one
    after the effects on [initializeGrid] show the magnetization of before,
    or the first sample where one was taken, and the last render the last
    sample; each of them draws the stars, 200 values more, when the
    magnetization it shows is below -50. *)
Theorem lattice_rebuilds (c : State) (p : Pointer) (n : nat) :
  good c ->
  (forall v : Z,
     10 <= v <= 69 -> v <> size c ->
     exists (s : State) (m : Q),
       dispatch exp rand (GridSizeSlider v) (c, p) n
       = Some ((s, p),
               (n + 2 * pattern_draws (initialPattern c) v
                + 2 * star_draws (magnetization c) + star_draws m)%nat)
       /\ size s = v /\ isPlaying s = false
       /\ magnetizationHistory s = [m] /\ magnetization s = m)
  /\ (forall q : Pattern,
        q <> initialPattern c ->
        exists (s : State) (m1 m2 : Q),
          dispatch exp rand (PatternButton q) (c, p) n
          = Some ((s, p),
                  (n + 3 * pattern_draws q (size c)
                   + star_draws (magnetization c)
                   + star_draws m1 + star_draws m2)%nat)
          /\ initialPattern s = q /\ isPlaying s = false
          /\ magnetizationHistory s = [m1; m2] /\ magnetization s = m2)
  /\ (exists (s : State) (m : Q),
        dispatch exp rand (PatternButton (initialPattern c)) (c, p) n
        = Some ((s, p),
                (n + pattern_draws (initialPattern c) (size c)
                 + star_draws (magnetization c) + star_draws m)%nat)
        /\ isPlaying s = isPlaying c
        /\ magnetizationHistory s = [m] /\ magnetization s = m).
Proof.
  intros Hg. pose proof Hg as (Hl & Hs & Hp & Hst).
  pose proof Hp as (Hp1 & _).
  split; [|split].
  - intros v Hv Hne.
    unfold dispatch, handleGridSizeChange, rerender. cbn [fst snd].
    assert (Hv' : (v =? size c) = false) by by apply Z.eqb_neq.
    rewrite Hv'. cbn [negb].
    set (c' := setSize v c).
    assert (Hch : size c <> size c' \/ initialPattern c <> initialPattern c')
      by (left; by apply not_eq_sym).
    destruct (commit_counted c c' false n Hch) as (g & Hrun & Hsq & Hsp);
      [change (0 <= v); lia|].
    change (size c') with v in Hrun, Hsq.
    change (initialPattern c') with (initialPattern c) in Hrun.
    change (magnetization c') with (magnetization c) in Hrun.
    assert (Hcond : false || negb (size c =? v)
                    || negb (Bool.eqb (gridInitialized c) (gridInitialized c'))
                    = true).
    { apply not_eq_sym, Z.eqb_neq in Hne. by rewrite Hne. }
    rewrite Hcond in Hrun. clear Hcond.
    assert (Hskip : forall s, magnetizationEffectIn c' s = s).
    { intros s. unfold magnetizationEffectIn.
      pose proof (notReady_resized c v Hl Hne) as Hnr. fold c' in Hnr.
      by rewrite Hnr. }
    rewrite Hskip in Hrun.
    set (sa := initialized g (setIsPlaying false c')) in *.
    destruct (commit_built c' g c'
                (n + star_draws (magnetization c)
                 + 2 * pattern_draws (initialPattern c) v)%nat
                eq_refl eq_refl ltac:(change (0 < v); lia) Hsq Hsp sa
                eq_refl eq_refl eq_refl eq_refl) as (m & Hrun2 & _ & _ & Hfire).
    change (magnetization sa) with (magnetization c) in Hrun2.
    exists (recorded m sa), m.
    unfold settle. unfold bind at 1. unfold bind at 1. rewrite Hrun.
    rewrite (effectsFire_changed c c' false Hch). cbn [fst snd].
    unfold bind at 1. rewrite Hrun2. cbn [fst snd]. rewrite Hfire.
    unfold bind at 1. rewrite render_run. unfold ret.
    change (magnetization (recorded m sa)) with m.
    split; [do 2 f_equal; lia|]. by repeat split.
  - intros q Hq. unfold dispatch, onClickPattern, rerender. cbn [fst snd].
    destruct (initializeGrid_counted c (Given q) (setInitialPattern q c) n)
      as (g1 & Hrun1 & Hsq1 & Hsp1); [lia|].
    unfold bind at 1. rewrite Hrun1.
    set (c1 := initialized g1 (setInitialPattern q c)) in *.
    assert (Hch : size c <> size c1 \/ initialPattern c <> initialPattern c1)
      by (right; by apply not_eq_sym).
    destruct (commit_counted c c1 true
                (n + pattern_draws q (size c))%nat Hch)
      as (g & Hrun & Hsq & Hsp); [change (0 <= size c); lia|].
    change (size c1) with (size c) in Hrun, Hsq.
    change (initialPattern c1) with q in Hrun.
    change (magnetization c1) with (magnetization c) in Hrun.
    cbn [orb] in Hrun.
    set (sa := initialized g (setIsPlaying false c1)) in *.
    assert (Hl1 : lattice c1).
    { apply lattice_initialized; [|exact Hsq1]. change (0 < size c). lia. }
    destruct (magnetizationEffectIn_lattice c1 sa Hl1 Hsp1)
      as (m1 & _ & _ & Heff).
    rewrite Heff in Hrun.
    destruct (commit_built c1 g c1
                (n + pattern_draws q (size c) + star_draws (magnetization c)
                 + 2 * pattern_draws q (size c))%nat
                eq_refl eq_refl ltac:(change (0 < size c); lia) Hsq Hsp
                (recorded m1 sa) eq_refl eq_refl eq_refl eq_refl)
      as (m2 & Hrun2 & _ & _ & Hfire).
    change (magnetization (recorded m1 sa)) with m1 in Hrun2.
    exists (recorded m2 (recorded m1 sa)), m1, m2.
    unfold settle. unfold bind at 1. unfold bind at 1. rewrite Hrun.
    rewrite (effectsFire_changed c c1 true Hch). cbn [fst snd].
    unfold bind at 1. rewrite Hrun2. cbn [fst snd]. rewrite Hfire.
    unfold bind at 1. rewrite render_run. unfold ret.
    change (magnetization (recorded m2 (recorded m1 sa))) with m2.
    split; [do 2 f_equal; lia|]. by repeat split.
  - unfold dispatch, onClickPattern, rerender. cbn [fst snd].
    destruct (initializeGrid_counted c (Given (initialPattern c))
                (setInitialPattern (initialPattern c) c) n)
      as (g1 & Hrun1 & Hsq1 & Hsp1); [lia|].
    unfold bind at 1. rewrite Hrun1.
    set (c1 := initialized g1 (setInitialPattern (initialPattern c) c)) in *.
    assert (Hg1 : good c1).
    { split; [apply lattice_initialized; [|exact Hsq1]; change (0 < size c);
              lia|].
      split; [exact Hsp1|]. split; [exact Hp|].
      split; [apply Hst|constructor]. }
    destruct (magnetizationEffectIn_lattice c1 c1 (proj1 Hg1) Hsp1)
      as (m & _ & _ & Heff).
    exists (recorded m c1), m. unfold bind.
    rewrite (settle_unchanged rand c c1 true _ Hg1) by reflexivity.
    cbn [orb]. rewrite Heff. by repeat split.
Qed.

End Rebuilds.

(** * The further properties at concrete inputs *)

Lemma flipAt_involutive_witness :
  flipAt example_grid 0 0 = Some (flipped example_grid 0 0)
  /\ flipAt (flipped example_grid 0 0) 0 0 = Some example_grid.
Proof.
  assert (H : flipAt example_grid 0 0 = Some (flipped example_grid 0 0))
    by reflexivity.
  split; [exact H|].
  exact (flipAt_involutive example_grid (flipped example_grid 0 0) 0 0 H).
Defined.

Lemma evolveSystem_parity_witness :
  lattice example_state
  /\ exists (s' : State) (log : list Trial) (n' : nat),
       evolveSystem (fun _ => 1 # 2) (fun _ => 1 # 4) example_state 0%nat
       = Some ((s', log), n')
       /\ Forall decided log
       /\ forall x y : Z,
            cell (grid s') x y
            = (fun v => if Nat.even (hits log x y) then v else - v)
                <$> cell (grid example_state) x y.
Proof.
  assert (Hl : lattice example_state) by by_computation.
  split; [exact Hl|].
  apply (evolveSystem_parity (fun _ => 1 # 2) (fun _ => 1 # 4) example_state
           0%nat Hl).
  intros k. by vm_compute.
Defined.

Lemma flipSpinsInRadius_covers_witness :
  lattice example_state /\ (0 <= 1)%Q
  /\ exists (s' : State) (log : list Trial) (n' : nat),
       flipSpinsInRadius (fun _ => 1 # 2) (fun _ => 1 # 4) example_state
         (1 # 2) 0 1 0%nat
       = Some ((s', log), n')
       /\ NoDup (site <$> log)
       /\ (forall x y : Z,
             (x, y) ∈ site <$> log
             <-> (0 <= x < size example_state /\ 0 <= y < size example_state)
                 /\ inRegion (drawMode example_state) (1 # 2) 0 1 x y)
       /\ (forall t : Trial,
             t ∈ log ->
             cell (grid s') (t_x t) (t_y t)
             = Some (if t_flipped t
                     then - spin (grid example_state) (t_x t) (t_y t)
                     else spin (grid example_state) (t_x t) (t_y t)))
       /\ (forall x y : Z,
             0 <= x < size example_state -> 0 <= y < size example_state ->
             inRegion (drawMode example_state) (1 # 2) 0 1 x y ->
             (calculateDeltaE example_state x y <= 0)%Q ->
             cell (grid s') x y = Some (- spin (grid example_state) x y)).
Proof.
  assert (Hl : lattice example_state) by by_computation.
  assert (Hr : (0 <= 1)%Q) by by vm_compute.
  split; [exact Hl|]. split; [exact Hr|].
  apply (flipSpinsInRadius_covers (fun _ => 1 # 2) (fun _ => 1 # 4)
           example_state (1 # 2) 0 1 0%nat Hl Hr).
Defined.

Lemma flipAt_sum_witness :
  flipAt example_grid 0 0 = Some (flipped example_grid 0 0)
  /\ sum_spins (flipped example_grid 0 0)
     = sum_spins example_grid - 2 * spin example_grid 0 0
  /\ (0 < 100
      /\ (percent (sum_spins (flipped example_grid 0 0)) 100
          == percent (sum_spins example_grid) 100
             - 200 * inject_Z (spin example_grid 0 0) / inject_Z 100)%Q).
Proof.
  assert (H : flipAt example_grid 0 0 = Some (flipped example_grid 0 0))
    by reflexivity.
  assert (Ht : 0 < 100) by lia.
  destruct (flipAt_sum example_grid (flipped example_grid 0 0) 0 0 H)
    as [Hsum Hpercent].
  split; [exact H|]. split; [exact Hsum|]. split; [exact Ht|].
  exact (Hpercent 100 Ht).
Defined.

Lemma calculateDeltaE_bound_witness :
  lattice example_state /\ spins (grid example_state)
  /\ (0 <= coupling example_state)%Q
  /\ (- (8 * coupling example_state + 2 * Qabs (externalField example_state))
      <= calculateDeltaE example_state 0 0
      <= 8 * coupling example_state
         + 2 * Qabs (externalField example_state))%Q.
Proof.
  assert (Hl : lattice example_state) by by_computation.
  assert (Hs : spins (grid example_state)) by by_computation.
  assert (Hj : (0 <= coupling example_state)%Q) by by vm_compute.
  split; [exact Hl|]. split; [exact Hs|]. split; [exact Hj|].
  apply (calculateDeltaE_bound example_state 0 0 Hl Hs Hj); simpl; lia.
Defined.

Lemma calculateDeltaE_antisymmetric_witness :
  lattice example_state /\ 2 <= size example_state
  /\ (calculateDeltaE
        (setGrid (flipped (grid example_state) 0 0) example_state) 0 0
      == - calculateDeltaE example_state 0 0)%Q.
Proof.
  assert (Hl : lattice example_state) by by_computation.
  assert (Hn : 2 <= size example_state) by (simpl; lia).
  split; [exact Hl|]. split; [exact Hn|].
  apply (calculateDeltaE_antisymmetric example_state 0 0 Hl Hn); simpl; lia.
Defined.

Lemma evolveSystem_extremes_witness :
  lattice running_state
  /\ (exists (s' : State) (log : list Trial) (n' : nat),
        evolveSystem (fun _ => 1 # 2) (fun _ => 3 # 4) running_state 0%nat
        = Some ((s', log), n')
        /\ grid s' = grid running_state
        /\ js_length log = size running_state * size running_state
        /\ Forall (fun t => t_flipped t = false) log)
  /\ lattice checker_state
  /\ (exists (s' : State) (log : list Trial) (n' : nat),
        evolveSystem (fun _ => 1 # 2) (fun _ => 3 # 4) checker_state 0%nat
        = Some ((s', log), n')
        /\ js_length log = size checker_state * size checker_state
        /\ Forall (fun t => t_flipped t = true) log).
Proof.
  assert (Hl : lattice running_state) by by_computation.
  assert (Hl' : lattice checker_state) by by_computation.
  assert (Hr : forall k : nat, (0 <= (fun _ : nat => 3 # 4) k < 1)%Q)
    by (intros k; by vm_compute).
  split; [exact Hl|]. split; [|split; [exact Hl'|]].
  - apply (proj1 (evolveSystem_extremes (fun _ => 1 # 2) (fun _ => 3 # 4)
                    running_state 0%nat Hl Hr)).
    intros x y k Hx Hy. cbv beta. split; [|by vm_compute].
    destruct (calculateDeltaE_on_patterns running_state x y Hl Hx Hy)
      as [Huniform _].
    rewrite (Huniform 1); [by vm_compute|by left|reflexivity].
  - apply (proj2 (evolveSystem_extremes (fun _ => 1 # 2) (fun _ => 3 # 4)
                    checker_state 0%nat Hl' Hr)).
    intros x y Hx Hy.
    destruct (calculateDeltaE_on_patterns checker_state x y Hl' Hx Hy)
      as [_ Hchecker].
    rewrite Hchecker; [by vm_compute|reflexivity..].
Defined.

Lemma calculateDeltaE_patterns_witness :
  (lattice running_state
   /\ grid running_state = uniform_grid (size running_state) 1
   /\ (calculateDeltaE running_state 3 4
       == 8 * coupling running_state
          + 2 * externalField running_state * inject_Z 1)%Q)
  /\ (lattice checker_state /\ Z.even (size checker_state) = true
      /\ grid checker_state = checkerboard_grid (size checker_state)
      /\ (calculateDeltaE checker_state 3 4
          == - (8 * coupling checker_state)
             + 2 * externalField checker_state * inject_Z (checker 3 4))%Q).
Proof.
  assert (Hl : lattice running_state) by by_computation.
  assert (Hl' : lattice checker_state) by by_computation.
  assert (Hg : grid running_state = uniform_grid (size running_state) 1)
    by reflexivity.
  assert (He : Z.even (size checker_state) = true) by reflexivity.
  assert (Hg' : grid checker_state = checkerboard_grid (size checker_state))
    by reflexivity.
  split.
  - split; [exact Hl|]. split; [exact Hg|].
    apply (proj1 (calculateDeltaE_patterns running_state 3 4 Hl
                    ltac:(simpl; lia) ltac:(simpl; lia)) 1);
      [by left|exact Hg].
  - split; [exact Hl'|]. split; [exact He|]. split; [exact Hg'|].
    exact (proj2 (calculateDeltaE_patterns checker_state 3 4 Hl'
                    ltac:(simpl; lia) ltac:(simpl; lia)) He Hg').
Defined.

Lemma annealing_ticks_witness :
  (isPlaying cooling_state = true /\ ~ (annealingRate cooling_state == 0)%Q
   /\ ((1 # 10) <= temperature cooling_state)%Q
   /\ (temperature (Nat.iter 3 annealingTick cooling_state)
       == Qmax (1 # 10)
            (temperature cooling_state
             + inject_Z (Z.of_nat 3) * annealingRate cooling_state))%Q
   /\ ((1 # 10) <= temperature (Nat.iter 4 annealingTick cooling_state))%Q)
  /\ ((annealingRate running_state == 0)%Q
      /\ Nat.iter 3 annealingTick running_state = running_state).
Proof.
  assert (Hp : isPlaying cooling_state = true) by reflexivity.
  assert (Hr : ~ (annealingRate cooling_state == 0)%Q) by by vm_compute.
  assert (Ht : ((1 # 10) <= temperature cooling_state)%Q) by by vm_compute.
  assert (H0 : (annealingRate running_state == 0)%Q) by reflexivity.
  split.
  - destruct (proj1 (annealing_ticks cooling_state 3) Hp Hr) as [Hk Hfloor].
    split; [exact Hp|]. split; [exact Hr|]. split; [exact Ht|].
    split; [exact (Hk Ht)|exact Hfloor].
  - split; [exact H0|].
    exact (proj2 (annealing_ticks running_state 3) (or_intror H0)).
Defined.

Lemma pointer_paints_over_canvas_witness :
  0 < size example_state
  /\ ((0 < rect_width example_event)%Q /\ (0 < rect_height example_event)%Q
      /\ over_canvas example_event
      /\ onLattice (size example_state)
           (getMousePos (size example_state) example_event)
         = Some (((clientX example_event - rect_left example_event)
                  * inject_Z (size example_state) / rect_width example_event,
                  (clientY example_event - rect_top example_event)
                  * inject_Z (size example_state) / rect_height example_event)%Q)
      /\ 0 <= Qfloor ((clientX example_event - rect_left example_event)
                      * inject_Z (size example_state)
                      / rect_width example_event) < size example_state
      /\ 0 <= Qfloor ((clientY example_event - rect_top example_event)
                      * inject_Z (size example_state)
                      / rect_height example_event) < size example_state)
  /\ ((rect_width collapsed_event == 0)%Q
      /\ onLattice (size example_state)
           (getMousePos (size example_state) collapsed_event) = None
      /\ exists p' : Pointer,
           handleMouseDown (fun _ => 1 # 2) (fun _ => 1 # 4) example_state
             initialPointer collapsed_event 0%nat
           = Some ((example_state, p'), 0%nat)
           /\ isDrawing p' = true /\ (radius p' == 1)%Q).
Proof.
  assert (Hn : 0 < size example_state) by (simpl; lia).
  assert (Hw : (0 < rect_width example_event)%Q) by by vm_compute.
  assert (Hh : (0 < rect_height example_event)%Q) by by vm_compute.
  assert (Ho : over_canvas example_event) by (repeat split; by vm_compute).
  assert (H0 : (rect_width collapsed_event == 0)%Q) by reflexivity.
  split; [exact Hn|]. split.
  - destruct (pointer_paints_over_canvas (fun _ => 1 # 2) (fun _ => 1 # 4)
                example_state initialPointer example_event 0%nat Hn)
      as (Hover & _ & _).
    split; [exact Hw|]. split; [exact Hh|]. split; [exact Ho|].
    exact (proj1 (Hover Hw Hh) Ho).
  - destruct (pointer_paints_over_canvas (fun _ => 1 # 2) (fun _ => 1 # 4)
                example_state initialPointer collapsed_event 0%nat Hn)
      as (_ & Hzero & Hmiss).
    split; [exact H0|].
    split; [exact (Hzero (or_introl H0))|].
    exact (Hmiss (Hzero (or_introl H0))).
Defined.

Lemma dispatch_consistent_witness :
  (forall k : nat, (0 <= (fun _ : nat => 1 # 4) k < 1)%Q)
  /\ consistent (running_state, initialPointer)
  /\ valid_event (running_state, initialPointer) (GridSizeSlider 20)
  /\ exists (u' : State * Pointer) (n' : nat),
       dispatch (fun _ => 1 # 2) (fun _ => 1 # 4) (GridSizeSlider 20)
         (running_state, initialPointer) 0%nat = Some (u', n')
       /\ consistent u'.
Proof.
  assert (Hr : forall k : nat, (0 <= (fun _ : nat => 1 # 4) k < 1)%Q)
    by (intros k; by vm_compute).
  assert (Hl : lattice running_state) by by_computation.
  assert (Hs : spins (grid running_state)) by by_computation.
  assert (Hc : consistent (running_state, initialPointer)).
  { split; [split; [exact Hl|split; [exact Hs|]]|by vm_compute].
    split; [|split; [by vm_compute|by repeat constructor]].
    unfold parameters_ok. repeat split; simpl; try lia; by vm_compute. }
  assert (Hv : valid_event (running_state, initialPointer) (GridSizeSlider 20))
    by (simpl; lia).
  split; [exact Hr|]. split; [exact Hc|]. split; [exact Hv|].
  exact (dispatch_consistent (fun _ => 1 # 2) (fun _ => 1 # 4) Hr
           (GridSizeSlider 20) (running_state, initialPointer) 0%nat Hc Hv).
Defined.

Lemma initializeGrid_draws_witness :
  0 <= size example_state
  /\ (exists (g : list (list Z)) (n' : nat),
        initializeGrid (fun _ => 1 # 4) example_state (Given Positive)
          example_state 5%nat = Some (initialized g example_state, n')
        /\ n' = 5%nat)
  /\ (exists (g : list (list Z)) (n' : nat),
        initializeGrid (fun _ => 1 # 4) example_state Default
          example_state 5%nat = Some (initialized g example_state, n')
        /\ n' = (5 + Z.to_nat (size example_state * size example_state))%nat
        /\ forall x y : Z,
             0 <= x < size example_state -> 0 <= y < size example_state ->
             cell g x y
             = Some (random_spin
                       ((fun _ : nat => 1 # 4)
                          (5 + Z.to_nat (y * size example_state + x))%nat))).
Proof.
  assert (Hn : 0 <= size example_state) by (simpl; lia).
  split; [exact Hn|]. split.
  - destruct (initializeGrid_draws (fun _ => 1 # 4) example_state
                (Given Positive) example_state 5%nat Hn)
      as (g & n' & Hrun & Hfixed & _).
    exists g, n'. split; [exact Hrun|]. apply Hfixed. discriminate.
  - destruct (initializeGrid_draws (fun _ => 1 # 4) example_state
                Default example_state 5%nat Hn)
      as (g & n' & Hrun & _ & Hrandom).
    exists g, n'. split; [exact Hrun|]. exact (Hrandom eq_refl).
Defined.

Lemma reachable_consistent_witness :
  (forall k : nat, (0 <= (fun _ : nat => 1 # 4) k < 1)%Q)
  /\ reachable (fun _ => 1 # 2) (fun _ => 1 # 4)
       (mounted_state, initialPointer) 1800%nat
  /\ consistent (mounted_state, initialPointer)
  /\ notReady (fst (mounted_state, initialPointer)) = false
  /\ forall ev : Event,
       valid_event (mounted_state, initialPointer) ev ->
       exists (u' : State * Pointer) (n' : nat),
         dispatch (fun _ => 1 # 2) (fun _ => 1 # 4) ev
           (mounted_state, initialPointer) 1800%nat = Some (u', n')
         /\ reachable (fun _ => 1 # 2) (fun _ => 1 # 4) u' n'.
Proof.
  assert (Hr : forall k : nat, (0 <= (fun _ : nat => 1 # 4) k < 1)%Q)
    by (intros k; by vm_compute).
  assert (Hm : reachable (fun _ => 1 # 2) (fun _ => 1 # 4)
                 (mounted_state, initialPointer) 1800%nat).
  { apply reachable_mount. vm_compute. reflexivity. }
  split; [exact Hr|]. split; [exact Hm|].
  exact (reachable_consistent (fun _ => 1 # 2) (fun _ => 1 # 4) Hr
           (mounted_state, initialPointer) 1800%nat Hm).
Defined.

Lemma statistics_follow_lattice_witness :
  (forall k : nat, (0 <= (fun _ : nat => 1 # 4) k < 1)%Q)
  /\ reachable (fun _ => 1 # 2) (fun _ => 1 # 4)
       (mounted_state, initialPointer) 1800%nat
  /\ (magnetization mounted_state
      == percent (sum_spins (grid mounted_state))
           (size mounted_state * size mounted_state))%Q
  /\ last (magnetizationHistory mounted_state)
     = Some (magnetization mounted_state).
Proof.
  assert (Hr : forall k : nat, (0 <= (fun _ : nat => 1 # 4) k < 1)%Q)
    by (intros k; by vm_compute).
  assert (Hm : reachable (fun _ => 1 # 2) (fun _ => 1 # 4)
                 (mounted_state, initialPointer) 1800%nat).
  { apply reachable_mount. vm_compute. reflexivity. }
  split; [exact Hr|]. split; [exact Hm|].
  exact (statistics_follow_lattice (fun _ => 1 # 2) (fun _ => 1 # 4) Hr
           (mounted_state, initialPointer) 1800%nat Hm).
Defined.

Lemma sweep_tick_records_witness :
  (forall k : nat, (0 <= (fun _ : nat => 1 # 4) k < 1)%Q)
  /\ (good night_state /\ isPlaying night_state = true
      /\ star_draws (magnetization night_state) = 200%nat
      /\ exists (log : list Trial) (m : Q) (n' : nat),
           evolveSystem (fun _ => 1 # 2) (fun _ => 1 # 4) night_state 0%nat
           = Some ((setGrid (replay (grid night_state) log) night_state,
                    log), n')
           /\ dispatch (fun _ => 1 # 2) (fun _ => 1 # 4) SweepInterval
                (night_state, initialPointer) 0%nat
              = Some ((recorded m
                         (setGrid (replay (grid night_state) log)
                            night_state), initialPointer),
                      (n' + star_draws (magnetization night_state)
                       + star_draws m)%nat)
           /\ (m == percent (sum_spins (replay (grid night_state) log))
                      (size night_state * size night_state))%Q
           /\ percentage m)
  /\ (good example_state /\ isPlaying example_state = false
      /\ dispatch (fun _ => 1 # 2) (fun _ => 1 # 4) SweepInterval
           (example_state, initialPointer) 0%nat
         = Some ((example_state, initialPointer), 0%nat)).
Proof.
  assert (Hr : forall k : nat, (0 <= (fun _ : nat => 1 # 4) k < 1)%Q)
    by (intros k; by vm_compute).
  assert (Hg : good night_state).
  { split; [by_computation|]. split; [by_computation|].
    split; [|split; [by vm_compute|by repeat constructor]].
    unfold parameters_ok. repeat split; simpl; try lia; by vm_compute. }
  assert (Hg' : good example_state).
  { split; [by_computation|]. split; [by_computation|].
    split; [|split; [by vm_compute|constructor]].
    unfold parameters_ok. repeat split; simpl; try lia; by vm_compute. }
  split; [exact Hr|]. split.
  - split; [exact Hg|]. split; [reflexivity|]. split; [reflexivity|].
    exact (proj1 (sweep_tick_records (fun _ => 1 # 2) (fun _ => 1 # 4) Hr
                    night_state initialPointer 0%nat Hg) eq_refl).
  - split; [exact Hg'|]. split; [reflexivity|].
    exact (proj2 (sweep_tick_records (fun _ => 1 # 2) (fun _ => 1 # 4) Hr
                    example_state initialPointer 0%nat Hg') eq_refl).
Defined.

Lemma parameters_keep_lattice_witness :
  good night_state
  /\ sets_parameter (TemperatureSlider 3) = true
  /\ valid_event (night_state, initialPointer) (TemperatureSlider 3)
  /\ star_draws (magnetization night_state) = 200%nat
  /\ exists (s : State) (n' : nat),
       dispatch (fun _ => 1 # 2) (fun _ => 1 # 4) (TemperatureSlider 3)
         (night_state, initialPointer) 0%nat
       = Some ((s, initialPointer), n')
       /\ same_lattice night_state s
       /\ (n' = 0%nat
           \/ n' = (0 + star_draws (magnetization night_state))%nat)
       /\ (nightShown night_state = false -> n' = 0%nat)
       /\ (TemperatureSlider 3 = PlayButton ->
           n' = (0 + star_draws (magnetization night_state))%nat).
Proof.
  assert (Hg : good night_state).
  { split; [by_computation|]. split; [by_computation|].
    split; [|split; [by vm_compute|by repeat constructor]].
    unfold parameters_ok. repeat split; simpl; try lia; by vm_compute. }
  assert (Hp : sets_parameter (TemperatureSlider 3) = true) by reflexivity.
  assert (Hv : valid_event (night_state, initialPointer)
                 (TemperatureSlider 3)) by (split; by vm_compute).
  split; [exact Hg|]. split; [exact Hp|]. split; [exact Hv|].
  split; [reflexivity|].
  exact (parameters_keep_lattice (fun _ => 1 # 2) (fun _ => 1 # 4)
           (TemperatureSlider 3) night_state initialPointer 0%nat
           Hg Hp Hv).
Defined.

Lemma drawEffect_cells_witness :
  lattice example_state /\ spins (grid example_state)
  /\ (4 * inject_Z (size example_state) < canvas_width)%Q
  /\ exists fills : list Fill,
       drawEffect example_state initialPointer canvas_width canvas_height
       = Some (fills,
               drawShape example_state initialPointer
                 (canvas_width / inject_Z (size example_state)))
       /\ js_length fills = 1 + 2 * (size example_state * size example_state)
       /\ (inject_Z (size example_state)
           * (canvas_width / inject_Z (size example_state))
           == canvas_width)%Q.
Proof.
  assert (Hl : lattice example_state) by by_computation.
  assert (Hs : spins (grid example_state)) by by_computation.
  assert (Hw : (4 * inject_Z (size example_state) < canvas_width)%Q)
    by by vm_compute.
  split; [exact Hl|]. split; [exact Hs|]. split; [exact Hw|].
  destruct (drawEffect_cells example_state initialPointer canvas_width
              canvas_height Hl Hs Hw)
    as (fills & Hrun & Hlen & _ & _ & Htile).
  exists fills. split; [exact Hrun|]. split; [exact Hlen|exact Htile].
Defined.

Lemma outline_matches_region_witness :
  (0 < 40)%Q
  /\ circle example_pointer = Some (23 # 10, 5, 1)%Q
  /\ (exists path : Path,
        drawShape example_state example_pointer 40 = Some path
        /\ forall x y : Z,
             inRegion Circle (23 # 10) 5 1 x y
             <-> inside path (cell_center 40 x y))
  /\ (exists path : Path,
        drawShape (setDrawMode Square example_state) example_pointer 40
        = Some path
        /\ forall x y : Z,
             (inRegion Square (23 # 10) 5 1 x y
              <-> inside path (cell_corner 40 x y))
             /\ (inRegion Square ((23 # 10) - (1 # 2)) (5 - (1 # 2)) 1 x y
                 <-> inside path (cell_center 40 x y))).
Proof.
  assert (Hcs : (0 < 40)%Q) by by vm_compute.
  assert (Hp : circle example_pointer = Some (23 # 10, 5, 1)%Q)
    by reflexivity.
  split; [exact Hcs|]. split; [exact Hp|]. split.
  - exact (outline_matches_region example_state example_pointer 40
             (23 # 10) 5 1 Hcs Hp).
  - exact (outline_matches_region (setDrawMode Square example_state)
             example_pointer 40 (23 # 10) 5 1 Hcs Hp).
Defined.

Lemma press_brush_witness :
  (forall k : nat, (0 <= (fun _ : nat => 1 # 4) k < 1)%Q)
  /\ reachable (fun _ => 1 # 2) (fun _ => 1 # 4)
       (mounted_state, initialPointer) 1800%nat
  /\ isDrawing (snd (mounted_state, initialPointer)) = false
  /\ radius (snd (mounted_state, initialPointer)) = 1%Q
  /\ circle (snd (mounted_state, initialPointer)) = None
  /\ forall (e : PointerEvent) (x y : Q),
       onLattice (size (fst (mounted_state, initialPointer)))
         (getMousePos (size (fst (mounted_state, initialPointer))) e)
       = Some (x, y) ->
       exists (res : State * list Trial) (n1 : nat),
         flipSpinsInRadius (fun _ => 1 # 2) (fun _ => 1 # 4)
           (fst (mounted_state, initialPointer)) x y 1 1800%nat
         = Some (res, n1)
         /\ handleMouseDown (fun _ => 1 # 2) (fun _ => 1 # 4)
              (fst (mounted_state, initialPointer))
              (snd (mounted_state, initialPointer)) e 1800%nat
            = Some ((fst res,
                     mkPointer true 1 (Some (now e)) (Some (x, y, 1%Q))), n1).
Proof.
  assert (Hr : forall k : nat, (0 <= (fun _ : nat => 1 # 4) k < 1)%Q)
    by (intros k; by vm_compute).
  assert (Hm : reachable (fun _ => 1 # 2) (fun _ => 1 # 4)
                 (mounted_state, initialPointer) 1800%nat).
  { apply reachable_mount. vm_compute. reflexivity. }
  assert (Hd : isDrawing (snd (mounted_state, initialPointer)) = false)
    by reflexivity.
  split; [exact Hr|]. split; [exact Hm|]. split; [exact Hd|].
  exact (press_brush (fun _ => 1 # 2) (fun _ => 1 # 4) Hr
           (mounted_state, initialPointer) 1800%nat Hm Hd).
Defined.

Lemma lattice_rebuilds_witness :
  good night_state
  /\ star_draws (magnetization night_state) = 200%nat
  /\ ((10 <= 20 <= 69 /\ 20 <> size night_state)
      /\ exists (s : State) (m : Q),
           dispatch (fun _ => 1 # 2) (fun _ => 1 # 4) (GridSizeSlider 20)
             (night_state, initialPointer) 0%nat
           = Some ((s, initialPointer),
                   (0 + 2 * pattern_draws (initialPattern night_state) 20
                    + 2 * star_draws (magnetization night_state)
                    + star_draws m)%nat)
           /\ size s = 20 /\ isPlaying s = false
           /\ magnetizationHistory s = [m] /\ magnetization s = m)
  /\ (Random <> initialPattern night_state
      /\ exists (s : State) (m1 m2 : Q),
           dispatch (fun _ => 1 # 2) (fun _ => 1 # 4) (PatternButton Random)
             (night_state, initialPointer) 0%nat
           = Some ((s, initialPointer),
                   (0 + 3 * pattern_draws Random (size night_state)
                    + star_draws (magnetization night_state)
                    + star_draws m1 + star_draws m2)%nat)
           /\ initialPattern s = Random /\ isPlaying s = false
           /\ magnetizationHistory s = [m1; m2] /\ magnetization s = m2).
Proof.
  assert (Hg : good night_state).
  { split; [by_computation|]. split; [by_computation|].
    split; [|split; [by vm_compute|by repeat constructor]].
    unfold parameters_ok. repeat split; simpl; try lia; by vm_compute. }
  assert (Hv : 10 <= 20 <= 69 /\ 20 <> size night_state)
    by (simpl; lia).
  assert (Hq : Random <> initialPattern night_state) by discriminate.
  destruct (lattice_rebuilds (fun _ => 1 # 2) (fun _ => 1 # 4) night_state
              initialPointer 0%nat Hg) as (Hsize & Hpattern & _).
  split; [exact Hg|]. split; [reflexivity|]. split.
  - split; [exact Hv|]. exact (Hsize 20 (proj1 Hv) (proj2 Hv)).
  - split; [exact Hq|]. exact (Hpattern Random Hq).
Defined.
